(** * ansible.parsing.vault: the vault container, its AES256 cipher and the
      vault editor, embedded from [lib/ansible/parsing/vault/__init__.py].

    The module is Python 2 code: [str] is the byte string, and the cipher
    mixes [b''] and [''] literals freely.  Byte strings are [list byte];
    Python exceptions are the [Raise] case of [result]; the cryptographic and
    codec libraries the module imports (PyCrypto, hashlib, base64) are the
    fields of the class [CryptoLib], and what the proofs need of them is
    stated as hypotheses where it is used; the file system, the standard
    streams and the randomness the editor works with are an explicit state,
    [world].  The optional imports are taken as present ([HAS_AES] and the
    other flags are true), so that no cipher class raises [CRYPTO_UPGRADE]. *)

From Stdlib Require Import ZArith NArith List Lia Bool.
From Stdlib Require Import Strings.String Strings.Byte.
From stdpp Require Import base option list gmap strings.
Import ListNotations.

#[global] Instance byte_eq_decision : EqDecision byte := Byte.byte_eq_dec.

Abbreviation bytes := (list byte).

(** A byte-string literal: [B "AES256"] is the Python literal [b'AES256']. *)
Definition B (s : string) : bytes := list_byte_of_string s.

(** The bytes Python writes [b'\n'], [b';'] and [b'.']. *)
Definition NL : byte := x0a.
Definition SEMI : byte := x3b.
Definition DOT : byte := x2e.

(** ** Exceptions *)

(** [AnsibleError] is raised with one of the messages of the module; the
    other constructors are the built-in exceptions its code can let through. *)
Inductive ansible_error : Type :=
| CipherNotFound        (* "{0} cipher could not be found" *)
| MalformedHeader4      (* "Malformed vault header.  Expected 4 fields for vault 1.2" *)
| MalformedHeader3      (* "Malformed vault header.  Expected 3 fields for vault 1.1 and below" *)
| NotVault              (* "Input is not an encrypted vault file" *)
| AlreadyEncrypted      (* "input is already encrypted" *)
| PasswordRequired      (* "A vault password must be specified to decrypt data" *)
| UnknownCipher         (* "Vault file encrypted with unrecognised cipher: {0}" *)
| DecryptionFailed      (* "Decryption failed" *)
| DeprecatedEncrypt     (* "Encryption disabled for deprecated VaultAES class" *)
| AlreadyExists         (* "%s exists, please use 'edit' instead" *)
| IoError.              (* AnsibleError(str(e)) of read_data *)

Inductive exn : Type :=
| AnsibleError (e : ansible_error)
| TypeError
| ValueError
| IndexError
| AttributeError
| ZeroDivisionError
| AssertionError
| OSError.

Inductive result (A : Type) : Type :=
| Ok (a : A)
| Raise (e : exn).
Arguments Ok {A} a.
Arguments Raise {A} e.

Definition bind {A C : Type} (r : result A) (k : A -> result C) : result C :=
  match r with
  | Ok a => k a
  | Raise e => Raise e
  end.

Notation "'let*' x ':=' r 'in' k" := (bind r (fun x => k))
  (at level 10, x pattern, r at level 200, k at level 200).

(** The spec's error kind [MalformedHeader] covers both messages. *)
Definition is_malformed_header {A} (r : result A) : Prop :=
  r = Raise (AnsibleError MalformedHeader4) \/ r = Raise (AnsibleError MalformedHeader3).

(** ** Python's operations on byte strings *)

Module Py.

(** [s.split(sep)] for a one-byte separator: every occurrence splits, and
    the result is never empty. *)
Fixpoint split (sep : byte) (s : bytes) : list bytes :=
  match s with
  | [] => [[]]
  | c :: s' =>
      if decide (c = sep) then [] :: split sep s'
      else match split sep s' with
           | w :: ws => (c :: w) :: ws
           | [] => [[c]]
           end
  end.

(** [s.split(sep, maxsplit)]: at most [maxsplit] splits, from the left;
    what is left after them is the last item. *)
Fixpoint splitn (maxsplit : nat) (sep : byte) (s : bytes) {struct s} : list bytes :=
  match maxsplit with
  | O => [s]
  | S m =>
      match s with
      | [] => [[]]
      | c :: s' =>
          if decide (c = sep) then [] :: splitn m sep s'
          else match splitn maxsplit sep s' with
               | w :: ws => (c :: w) :: ws
               | [] => [[c]]
               end
      end
  end.

(** The bytes [str.strip()] removes: space, \t, \n, \v, \f, \r. *)
Definition isspace (c : byte) : bool :=
  match c with
  | x20 | x09 | x0a | x0b | x0c | x0d => true
  | _ => false
  end.

Fixpoint lstrip (s : bytes) : bytes :=
  match s with
  | c :: s' => if isspace c then lstrip s' else s
  | [] => []
  end.

Definition rstrip (s : bytes) : bytes := rev (lstrip (rev s)).

Definition strip (s : bytes) : bytes := rstrip (lstrip s).

(** [s.replace(old, b'')] for a one-byte [old]. *)
Definition remove (old : byte) (s : bytes) : bytes :=
  filter (fun c => c <> old) s.

Fixpoint startswith (s prefix : bytes) : bool :=
  match prefix, s with
  | [], _ => true
  | p :: prefix', c :: s' => if decide (c = p) then startswith s' prefix' else false
  | _ :: _, [] => false
  end.

(** [s[i:j]] for non-negative [i], [j]: indices are clamped, never an error. *)
Definition slice (s : bytes) (i j : nat) : bytes := take (j - i) (drop i s).

(** [s[:j]] for an integer [j] of either sign: a negative [j] counts from
    the end, and [-0] is [0]. *)
Definition slice_to (s : bytes) (j : Z) : bytes :=
  if (j <? 0)%Z then take (Z.to_nat (Z.of_nat (length s) + j)) s
  else take (Z.to_nat j) s.

(** [s[-1]]: the last byte, [IndexError] on the empty string. *)
Definition last_item (s : bytes) : result byte :=
  match last s with
  | Some c => Ok c
  | None => Raise IndexError
  end.

Definition ord (c : byte) : N := Byte.to_N c.

(** Ordering of sequences (byte strings, lists): the first position where
    the two differ decides; if there is none, the shorter is the smaller. *)
Fixpoint seq_compare {A} (cmp : A -> A -> comparison) (l1 l2 : list A) : comparison :=
  match l1, l2 with
  | [], [] => Eq
  | [], _ :: _ => Lt
  | _ :: _, [] => Gt
  | a1 :: l1', a2 :: l2' =>
      match cmp a1 a2 with
      | Eq => seq_compare cmp l1' l2'
      | c => c
      end
  end.

Definition bytes_compare : bytes -> bytes -> comparison :=
  seq_compare (fun a b => N.compare (ord a) (ord b)).

Definition list_compare : list bytes -> list bytes -> comparison :=
  seq_compare bytes_compare.

(** [l1 >= l2] on lists of byte strings. *)
Definition list_ge (l1 l2 : list bytes) : bool :=
  match list_compare l1 l2 with
  | Lt => false
  | _ => true
  end.

(** [range(0, stop, step)] for a positive step. *)
Definition range_step (stop step : nat) : list nat :=
  map (fun k => k * step) (seq 0 (Nat.div (stop + step - 1) step)).

End Py.

(** ** Module constants *)

Definition b_HEADER : bytes := B "$ANSIBLE_VAULT".
Definition CIPHER_WHITELIST : list bytes := [B "AES"; B "AES256"].
Definition CIPHER_WRITE_WHITELIST : list bytes := [B "AES256"].
Definition DEFAULT_WRITE_CIPHER : bytes := B "AES256".

(** ** VaultLib: the header codec *)

(** [VaultLib.is_encrypted] *)
Definition is_encrypted (data : bytes) : bool := Py.startswith data b_HEADER.

(** [VaultLib._add_vault_header] *)
Definition _add_vault_header (b_cipher_name b_cipher_version b_ciphertext : bytes) : bytes :=
  let b_vault_version := B "1.2" in
  b_HEADER ++ [SEMI] ++ b_vault_version ++ [SEMI] ++ b_cipher_name ++ [SEMI]
    ++ b_cipher_version ++ [NL] ++ b_ciphertext.

(** The fields of the header line, as [_parse_vault_header] computes them:
    [lines[0].strip().split(b';')]. *)
Definition header_fields (data : bytes) : list bytes :=
  let lines := Py.splitn 1 NL data in
  Py.split SEMI (Py.strip (nth 0 lines [])).

(** The test [b_vault_version.split(b'.') >= [b'1', b'2']]. *)
Definition vault_version_ge_1_2 (b_vault_version : bytes) : bool :=
  Py.list_ge (Py.split DOT b_vault_version) [B "1"; B "2"].

(** [VaultLib._parse_vault_header]: the vault version, the cipher name, the
    cipher version and the body ([None] when the data has no second line). *)
Definition _parse_vault_header (data : bytes)
  : result (bytes * bytes * bytes * option bytes) :=
  let lines := Py.splitn 1 NL data in
  let header := Py.split SEMI (Py.strip (nth 0 lines [])) in
  let* (b_vault_version, b_cipher_name, b_cipher_version) :=
    (if (3 <=? length header) && bool_decide (nth 0 header [] = b_HEADER) then
       let b_vault_version := Py.strip (nth 1 header []) in
       let b_cipher_name := Py.strip (nth 2 header []) in
       if vault_version_ge_1_2 b_vault_version then
         if negb (length header =? 4) then Raise (AnsibleError MalformedHeader4)
         else Ok (b_vault_version, b_cipher_name, Py.strip (nth 3 header []))
       else if length header =? 3 then
         Ok (b_vault_version, b_cipher_name, b_vault_version)
       else Raise (AnsibleError MalformedHeader3)
     else Raise (AnsibleError NotVault)) in
  let b_data := if 1 <? length lines then Some (nth 1 lines []) else None in
  Ok (b_vault_version, b_cipher_name, b_cipher_version, b_data).

(** ** The libraries the module imports *)

(** [binascii.unhexlify]: two hexadecimal digits of either case per byte;
    [TypeError] on an odd length or on a byte that is no digit. *)
Module Binascii.

Definition hex_digit (c : byte) : option N :=
  let n := Byte.to_N c in
  if (48 <=? n)%N && (n <=? 57)%N then Some (n - 48)%N
  else if (97 <=? n)%N && (n <=? 102)%N then Some (n - 87)%N
  else if (65 <=? n)%N && (n <=? 70)%N then Some (n - 55)%N
  else None.

Definition byte_of_N (n : N) : byte :=
  match Byte.of_N n with
  | Some c => c
  | None => x00
  end.

Fixpoint unhexlify (s : bytes) : result bytes :=
  match s with
  | [] => Ok []
  | [_] => Raise TypeError
  | h :: l :: s' =>
      match hex_digit h, hex_digit l with
      | Some a, Some b =>
          let* r := unhexlify s' in Ok (byte_of_N (16 * a + b) :: r)
      | _, _ => Raise TypeError
      end
  end.

Definition hex_char (n : N) : byte :=
  nth (N.to_nat n) (B "0123456789abcdef") x30.

(** [binascii.hexlify]: two lower-case digits per byte. *)
Definition hexlify (s : bytes) : bytes :=
  flat_map (fun c => [hex_char (Byte.to_N c / 16); hex_char (Byte.to_N c mod 16)]%N) s.

(** [int(hexlify(s), 16)]: the bytes read as a big-endian integer;
    [ValueError] on the empty string, whose hexlify has no digit. *)
Definition int_of_hexlify (s : bytes) : result N :=
  match s with
  | [] => Raise ValueError
  | _ => Ok (fold_left (fun acc c => (256 * acc + Byte.to_N c)%N) s 0%N)
  end.

End Binascii.

(** What the module imports from PyCrypto ([Crypto.Protocol.KDF],
    [Crypto.Hash], [Crypto.Cipher.AES], [Crypto.Util.Counter]), from
    [hashlib] and from [base64].  The module calls them with keys that
    [PBKDF2] cut to the lengths AES accepts, so they are total here. *)
Class CryptoLib : Type := {
  (** [PBKDF2(password, salt, dkLen, count=10000, prf=HMAC-SHA256)], which is
      also cryptography's [PBKDF2HMAC(SHA256, dkLen, salt, 10000).derive]. *)
  PBKDF2 : bytes -> bytes -> nat -> bytes;
  (** [HMAC.new(key, msg, SHA256).digest()] *)
  HMAC_SHA256 : bytes -> bytes -> bytes;
  (** [AES.new(key, AES.MODE_CTR, counter=Counter.new(128, initial_value=iv))]
      followed by [.encrypt(data)], respectively [.decrypt(data)]. *)
  AES_CTR_encrypt : bytes -> N -> bytes -> bytes;
  AES_CTR_decrypt : bytes -> N -> bytes -> bytes;
  (** [base64.b64encode], and [base64.b64decode] with [None] for its
      [TypeError]. *)
  b64encode : bytes -> bytes;
  b64decode : bytes -> option bytes;
  (** [md5(text).digest()] and [sha256(data).hexdigest()] *)
  MD5 : bytes -> bytes;
  SHA256_hexdigest : bytes -> bytes;
  (** [AES.new(key, AES.MODE_CBC, iv)] is a cipher object whose [decrypt]
      advances its chaining state; [None] is its [ValueError]. *)
  cbc_cipher : Type;
  AES_CBC_new : bytes -> bytes -> cbc_cipher;
  AES_CBC_decrypt : cbc_cipher -> bytes -> option (bytes * cbc_cipher);
  AES_block_size : nat
}.

Section Ciphers.
Context {L : CryptoLib}.

(** *** VaultAES256 *)

(** [VaultAES256.gen_key_initctr]: both branches on [HAS_PBKDF2HMAC]
    compute the same PBKDF2. *)
Definition gen_key_initctr (password salt : bytes) (generate_iv : bool)
  : result (bytes * bytes * N) :=
  let keylength := 32 in
  let ivlength := if generate_iv then 16 else 0 in
  let derivedkey := PBKDF2 password salt (2 * keylength + ivlength) in
  let key1 := Py.slice derivedkey 0 keylength in
  let key2 := Py.slice derivedkey keylength (keylength * 2) in
  let* iv :=
    (if generate_iv then
       Binascii.int_of_hexlify
         (Py.slice derivedkey (keylength * 2) (keylength * 2 + ivlength))
     else Ok 0%N) in
  Ok (key1, key2, iv).

(** [VaultAES256.is_equal] *)
Definition is_equal (a b : bytes) : bool :=
  if negb (length a =? length b) then false
  else
    let result :=
      fold_left (fun result xy => N.lor result (N.lxor (Py.ord xy.1) (Py.ord xy.2)))
                (zip a b) 0%N in
    (result =? 0)%N.

(** The accumulator of [is_equal] after the loop over [zip(a, b)]. *)
Definition xor_accumulate (a b : bytes) : N :=
  fold_left (fun result xy => N.lor result (N.lxor (Py.ord xy.1) (Py.ord xy.2)))
            (zip a b) 0%N.

(** [VaultAES256.encrypt]; [salt] is what [os.urandom(32)] returned. *)
Definition VaultAES256_encrypt (salt : bytes) (plaintext password : bytes)
  : result bytes :=
  let* (key1, key2, iv) := gen_key_initctr password salt false in
  let ciphertext := AES_CTR_encrypt key1 iv plaintext in
  let hmac := HMAC_SHA256 key2 ciphertext in
  let message := b64encode (salt ++ hmac ++ ciphertext) in
  let lines :=
    map (fun i => Py.slice message i (i + 80) ++ [NL])
        (Py.range_step (length message) 80) in
  Ok (concat lines).

(** The first half of [VaultAES256.decrypt]: the salt, the stored mac and
    the ciphertext of the message, and the keys derived for them. *)
Definition unpack_message (message password version : bytes)
  : result (bytes * bytes * bytes * (bytes * bytes * N)) :=
  let message := Py.remove NL message in
  if bool_decide (version = B "1.1") then
    let* message := Binascii.unhexlify message in
    match Py.splitn 2 NL message with
    | [salt; mac; ciphertext] =>
        let* salt := Binascii.unhexlify salt in
        let* mac := Binascii.unhexlify mac in
        let* ciphertext := Binascii.unhexlify ciphertext in
        let* keys := gen_key_initctr password salt true in
        Ok (salt, mac, ciphertext, keys)
    | _ => Raise ValueError
    end
  else
    match b64decode message with
    | None => Raise TypeError
    | Some message =>
        let salt := Py.slice message 0 32 in
        let mac := Py.slice message 32 64 in
        let ciphertext := drop 64 message in
        let* keys := gen_key_initctr password salt false in
        Ok (salt, mac, ciphertext, keys)
    end.

(** [VaultAES256.decrypt]: [Ok None] is the [return None] of a mac that
    does not validate; a message that is [None] has no [replace]. *)
Definition VaultAES256_decrypt (message : option bytes) (password version : bytes)
  : result (option bytes) :=
  match message with
  | None => Raise AttributeError
  | Some message =>
      let* (salt, mac, ciphertext, (key1, key2, iv)) :=
        unpack_message message password version in
      let hmac := HMAC_SHA256 key2 ciphertext in
      if negb (is_equal mac hmac) then Ok None
      else
        let plaintext := AES_CTR_decrypt key1 iv ciphertext in
        if bool_decide (version = B "1.1") then
          let* c := Py.last_item plaintext in
          let padding_length := Py.ord c in
          Ok (Some (Py.slice_to plaintext (- Z.of_N padding_length)))
        else Ok (Some plaintext)
  end.

(** *** VaultAES, the obsolete cipher kept for reading old files *)

(** The loop of [VaultAES.aes_derive_key_and_iv].  Every round appends one
    MD5 digest, so [target] rounds are all it can need. *)
Fixpoint aes_derive_loop (rounds target : nat) (password salt d d_i : bytes) : bytes :=
  if length d <? target then
    match rounds with
    | O => d
    | S rounds' =>
        let text := d_i ++ password ++ salt in
        let d_i := MD5 text in
        aes_derive_loop rounds' target password salt (d ++ d_i) d_i
    end
  else d.

(** [VaultAES.aes_derive_key_and_iv] *)
Definition aes_derive_key_and_iv (password salt : bytes) (key_length iv_length : nat)
  : bytes * bytes :=
  let d := aes_derive_loop (key_length + iv_length) (key_length + iv_length)
                           password salt [] [] in
  (Py.slice d 0 key_length, Py.slice d key_length (key_length + iv_length)).

(** The [while not finished] loop of [VaultAES.decrypt]: [in_file] is what
    is left to read, [out] what was written to [out_file].  A read of
    nothing decrypts to nothing, and every other round consumes input, so
    [S (length in_file)] rounds are enough. *)
Fixpoint aes_decrypt_loop (rounds : nat) (bs : nat) (cipher : cbc_cipher)
    (in_file next_chunk out : bytes) : result bytes :=
  match rounds with
  | O => Raise ValueError
  | S rounds' =>
      let data := take (1024 * bs) in_file in
      let in_file := drop (1024 * bs) in_file in
      let chunk := next_chunk in
      match (match data with
             | [] => Some ([], cipher)
             | _ => AES_CBC_decrypt cipher data
             end) with
      | None => Raise ValueError
      | Some (next_chunk, cipher) =>
          if length next_chunk =? 0 then
            let* c := Py.last_item chunk in
            let padding_length := Py.ord c in
            let chunk := Py.slice_to chunk (- Z.of_N padding_length) in
            Ok (out ++ chunk)
          else aes_decrypt_loop rounds' bs cipher in_file next_chunk (out ++ chunk)
      end
  end.

(** [VaultAES.decrypt] *)
Definition VaultAES_decrypt (data : option bytes) (password : bytes)
  : result (option bytes) :=
  match data with
  | None => Raise AttributeError
  | Some data =>
      let* data := Binascii.unhexlify (Py.remove NL data) in
      let bs := AES_block_size in
      let tmpsalt := take bs data in
      let in_file := drop bs data in
      let salt := drop (length (B "Salted__")) tmpsalt in
      let '(key, iv) := aes_derive_key_and_iv password salt 32 bs in
      let cipher := AES_CBC_new key iv in
      let* out_data := aes_decrypt_loop (S (length in_file)) bs cipher in_file [] [] in
      match Py.splitn 1 NL out_data with
      | [this_sha; this_data] =>
          let test_sha := SHA256_hexdigest this_data in
          if bool_decide (this_sha <> test_sha)
          then Raise (AnsibleError DecryptionFailed)
          else Ok (Some this_data)
      | _ => Raise IndexError
      end
  end.

(** *** The cipher classes and [CIPHER_MAPPING] *)

Inductive cipher_class : Type := VaultAES | VaultAES256.

Definition CIPHER_MAPPING (name : bytes) : option cipher_class :=
  if decide (name = B "AES") then Some VaultAES
  else if decide (name = B "AES256") then Some VaultAES256
  else None.

(** The [version] attribute each class sets in [__init__]. *)
Definition cipher_version (c : cipher_class) : bytes :=
  match c with
  | VaultAES => B "1.1"
  | VaultAES256 => B "1.2"
  end.

Definition cipher_encrypt (c : cipher_class) (salt plaintext password : bytes)
  : result bytes :=
  match c with
  | VaultAES => Raise (AnsibleError DeprecatedEncrypt)
  | VaultAES256 => VaultAES256_encrypt salt plaintext password
  end.

Definition cipher_decrypt (c : cipher_class) (data : option bytes)
    (password version : bytes) : result (option bytes) :=
  match c with
  | VaultAES => VaultAES_decrypt data password
  | VaultAES256 => VaultAES256_decrypt data password version
  end.

(** *** VaultLib *)

(** The attribute of a [VaultLib] its methods read. *)
Record VaultLib : Type := { b_password : option bytes }.

(** [VaultLib._cipher] *)
Definition _cipher (cipher_name : bytes) : result cipher_class :=
  match CIPHER_MAPPING cipher_name with
  | Some c => Ok c
  | None => Raise (AnsibleError CipherNotFound)
  end.

(** [VaultLib.encrypt]; [salt] is what [os.urandom(32)] returns inside the
    cipher.  A password that is [None] is refused by the key derivation. *)
Definition VaultLib_encrypt (self : VaultLib) (salt : bytes) (data : bytes)
    (cipher_name : option bytes) : result bytes :=
  let b_plaintext := data in
  if is_encrypted b_plaintext then Raise (AnsibleError AlreadyEncrypted)
  else
    let b_cipher_name :=
      match cipher_name with
      | Some n =>
          if bool_decide (n = []) || negb (bool_decide (n ∈ CIPHER_WRITE_WHITELIST))
          then DEFAULT_WRITE_CIPHER else n
      | None => DEFAULT_WRITE_CIPHER
      end in
    let* cipher := _cipher b_cipher_name in
    match b_password self with
    | None => Raise TypeError
    | Some password =>
        let* b_ciphertext := cipher_encrypt cipher salt b_plaintext password in
        Ok (_add_vault_header b_cipher_name (cipher_version cipher) b_ciphertext)
    end.

(** [VaultLib.decrypt] *)
Definition VaultLib_decrypt (self : VaultLib) (data : bytes)
  : result (bytes * bytes * bytes * bytes) :=
  match b_password self with
  | None => Raise (AnsibleError PasswordRequired)
  | Some password =>
      let* (b_vault_version, b_cipher_name, b_cipher_version, b_ciphertext) :=
        _parse_vault_header data in
      if negb (bool_decide (b_cipher_name ∈ CIPHER_WHITELIST))
      then Raise (AnsibleError UnknownCipher)
      else
        let* cipher := _cipher b_cipher_name in
        let* b_plaintext :=
          cipher_decrypt cipher b_ciphertext password b_cipher_version in
        match b_plaintext with
        | None => Raise (AnsibleError DecryptionFailed)
        | Some b_plaintext =>
            Ok (b_vault_version, b_cipher_name, b_cipher_version, b_plaintext)
        end
  end.

End Ciphers.

(** ** The operating system, as the editor sees it *)

(** A regular file: its permission bits, its owner and group, its bytes. *)
Record file : Type := mk_file {
  f_mode : N;
  f_uid : N;
  f_gid : N;
  f_data : bytes
}.

(** The fields of [os.stat] the editor reads. *)
Record stat_result : Type := mk_stat {
  st_mode : N;
  st_uid : N;
  st_gid : N;
  st_size : nat
}.

(** The state of the process and of what it can reach: the files by path,
    the standard streams, the credentials and umask new files get, the
    [shred] of coreutils ([None] when it cannot be run; otherwise its exit
    status and the bytes it leaves in the file), and the source of
    randomness of [random] and [os.urandom], read at position [w_rand_pos]. *)
Record world : Type := mk_world {
  w_fs : gmap string file;
  w_stdin : bytes;
  w_stdout : bytes;
  w_umask : N;
  w_euid : N;
  w_egid : N;
  w_shred : option (bytes -> Z * bytes);
  w_rand_nat : nat -> nat;
  w_rand_byte : nat -> nat -> byte;
  w_rand_pos : nat
}.

Definition set_fs (fs : gmap string file) (w : world) : world :=
  mk_world fs (w_stdin w) (w_stdout w) (w_umask w) (w_euid w) (w_egid w)
           (w_shred w) (w_rand_nat w) (w_rand_byte w) (w_rand_pos w).

Definition set_stdin (s : bytes) (w : world) : world :=
  mk_world (w_fs w) s (w_stdout w) (w_umask w) (w_euid w) (w_egid w)
           (w_shred w) (w_rand_nat w) (w_rand_byte w) (w_rand_pos w).

Definition set_stdout (s : bytes) (w : world) : world :=
  mk_world (w_fs w) (w_stdin w) s (w_umask w) (w_euid w) (w_egid w)
           (w_shred w) (w_rand_nat w) (w_rand_byte w) (w_rand_pos w).

Definition next_random (w : world) : world :=
  mk_world (w_fs w) (w_stdin w) (w_stdout w) (w_umask w) (w_euid w) (w_egid w)
           (w_shred w) (w_rand_nat w) (w_rand_byte w) (S (w_rand_pos w)).

(** Code that reads and changes the world, and may raise. *)
Definition io (A : Type) : Type := world -> result A * world.

Definition ret {A} (a : A) : io A := fun w => (Ok a, w).

Definition raise {A} (e : exn) : io A := fun w => (Raise e, w).

Definition lift {A} (r : result A) : io A := fun w => (r, w).

Definition io_bind {A C} (m : io A) (k : A -> io C) : io C :=
  fun w =>
    match m w with
    | (Ok a, w') => k a w'
    | (Raise e, w') => (Raise e, w')
    end.

Notation "'let!' x ':=' m 'in' k" := (io_bind m (fun x => k))
  (at level 10, x pattern, m at level 200, k at level 200).

(** [try: m except: handler] *)
Definition try_except {A} (m : io A) (handler : exn -> io A) : io A :=
  fun w =>
    match m w with
    | (Ok a, w') => (Ok a, w')
    | (Raise e, w') => handler e w'
    end.

Module Os.

Definition S_IFREG : N := 32768.         (* 0o100000 *)
Definition S_IALLUGO : N := 4095.        (* 0o7777 *)

Definition path_isfile (path : string) : io bool :=
  fun w => (Ok (match w_fs w !! path with Some _ => true | None => false end), w).

Definition stat (path : string) : io stat_result :=
  fun w =>
    match w_fs w !! path with
    | Some f =>
        (Ok (mk_stat (N.lor S_IFREG (N.land (f_mode f) S_IALLUGO))
                     (f_uid f) (f_gid f) (length (f_data f))), w)
    | None => (Raise OSError, w)
    end.

Definition path_getsize (path : string) : io nat :=
  let! st := stat path in ret (st_size st).

Definition remove (path : string) : io unit :=
  fun w =>
    match w_fs w !! path with
    | Some _ => (Ok tt, set_fs (delete path (w_fs w)) w)
    | None => (Raise OSError, w)
    end.

(** [os.chmod]: the permission bits of the mode replace the file's. *)
Definition chmod (path : string) (mode : N) : io unit :=
  fun w =>
    match w_fs w !! path with
    | Some f =>
        (Ok tt, set_fs (<[path := mk_file (N.land mode S_IALLUGO)
                                          (f_uid f) (f_gid f) (f_data f)]> (w_fs w)) w)
    | None => (Raise OSError, w)
    end.

Definition chown (path : string) (uid gid : N) : io unit :=
  fun w =>
    match w_fs w !! path with
    | Some f =>
        (Ok tt, set_fs (<[path := mk_file (f_mode f) uid gid (f_data f)]> (w_fs w)) w)
    | None => (Raise OSError, w)
    end.

(** [os.urandom(n)]: [n] bytes of the source of randomness. *)
Definition urandom (n : nat) (w : world) : bytes * world :=
  (map (w_rand_byte w (w_rand_pos w)) (seq 0 n), next_random w).

(** [random.randint(lo, hi)]: a number of [lo..hi], both included. *)
Definition randint (lo hi : nat) (w : world) : nat * world :=
  (lo + w_rand_nat w (w_rand_pos w) mod (hi - lo + 1), next_random w).

(** [subprocess.call(['shred', path])]: [OSError] when it cannot be run;
    otherwise it rewrites the bytes of the file and exits with a status. *)
Definition call_shred (path : string) : io Z :=
  fun w =>
    match w_shred w with
    | None => (Raise OSError, w)
    | Some shred =>
        match w_fs w !! path with
        | Some f =>
            let '(status, data) := shred (f_data f) in
            (Ok status,
             set_fs (<[path := mk_file (f_mode f) (f_uid f) (f_gid f) data]> (w_fs w)) w)
        | None => (Ok 1%Z, w)
        end
    end.

(** A file object opened for writing: the position and the bytes so far. *)
Record file_handle : Type := mk_fh { fh_pos : nat; fh_buf : bytes }.

(** [open(path, "wb")]: an existing file is emptied and keeps its mode and
    owner; a new one gets the mode that the umask leaves of 0o666 and the
    credentials of the process. *)
Definition open_wb (path : string) : io file_handle :=
  fun w =>
    let f :=
      match w_fs w !! path with
      | Some f => mk_file (f_mode f) (f_uid f) (f_gid f) []
      | None => mk_file (N.ldiff 438 (w_umask w)) (w_euid w) (w_egid w) []
      end in
    (Ok (mk_fh 0 []), set_fs (<[path := f]> (w_fs w)) w).

Definition seek (pos : nat) (fh : file_handle) : file_handle :=
  mk_fh pos (fh_buf fh).

Definition tell (fh : file_handle) : nat := fh_pos fh.

(** [fh.write(data)]: the bytes go at the position, over what is there and
    past the end (after zeros, if the position is past the end). *)
Definition write (data : bytes) (fh : file_handle) : file_handle :=
  let buf := fh_buf fh in
  let pos := fh_pos fh in
  mk_fh (pos + length data)
        (take pos buf ++ repeat x00 (pos - length buf) ++ data
           ++ drop (pos + length data) buf).

(** Leaving the [with] block: the bytes of the file object are the file's. *)
Definition close (path : string) (fh : file_handle) : io unit :=
  fun w =>
    match w_fs w !! path with
    | Some f =>
        (Ok tt, set_fs (<[path := mk_file (f_mode f) (f_uid f) (f_gid f) (fh_buf fh)]>
                          (w_fs w)) w)
    | None => (Ok tt, w)
    end.

End Os.

(** ** VaultEditor *)

(** [1024*1024*2], the bound of [_shred_file_custom] on a chunk. *)
Definition MAX_CHUNK_LEN : nat := N.to_nat 2097152.

(** One overwrite of [_shred_file_custom], the body of [for _ in
    range(passes)] once [chunk_len] and [data] are drawn: the file object at
    the end is returned with the outcome, for the [with] block to close. *)
Definition overwrite_pass (file_len chunk_len : nat) (data : bytes)
    (fh : Os.file_handle) : result unit * Os.file_handle :=
  let fh := Os.seek 0 fh in
  if chunk_len =? 0 then (Raise ZeroDivisionError, fh)
  else
    let fh := Nat.iter (file_len / chunk_len) (Os.write data) fh in
    let fh := Os.write (take (file_len mod chunk_len) data) fh in
    if negb (Os.tell fh =? file_len) then (Raise AssertionError, fh)
    else (Ok tt, fh).

(** The loop [for _ in range(passes)] of [_shred_file_custom]. *)
Fixpoint shred_passes (passes file_len max_chunk_len : nat) (fh : Os.file_handle)
    (w : world) : result unit * Os.file_handle * world :=
  match passes with
  | O => (Ok tt, fh, w)
  | S passes' =>
      let '(chunk_len, w) := Os.randint (max_chunk_len / 2) max_chunk_len w in
      let '(data, w) := Os.urandom chunk_len w in
      match overwrite_pass file_len chunk_len data fh with
      | (Ok _, fh) => shred_passes passes' file_len max_chunk_len fh w
      | (Raise e, fh) => (Raise e, fh, w)
      end
  end.

(** [VaultEditor._shred_file_custom] *)
Definition _shred_file_custom (tmp_path : string) : io unit :=
  let! file_len := Os.path_getsize tmp_path in
  if 0 <? file_len then
    let max_chunk_len := Nat.min MAX_CHUNK_LEN file_len in
    let passes := 3 in
    let! fh := Os.open_wb tmp_path in
    fun w =>
      let '(r, fh, w) := shred_passes passes file_len max_chunk_len fh w in
      let '(_, w) := Os.close tmp_path fh w in
      (r, w)
  else ret tt.

(** [VaultEditor._shred_file] *)
Definition _shred_file (tmp_path : string) : io unit :=
  let! isfile := Os.path_isfile tmp_path in
  if negb isfile then ret tt
  else
    let! r := try_except (Os.call_shred tmp_path)
                         (fun e => match e with
                                   | OSError => ret 1%Z
                                   | _ => raise e
                                   end) in
    let! _ := (if negb (r =? 0)%Z then _shred_file_custom tmp_path else ret tt) in
    Os.remove tmp_path.

(** [VaultEditor.read_data] *)
Definition read_data (filename : string) : io bytes :=
  try_except
    (if bool_decide (filename = "-"%string) then
       fun w => (Ok (w_stdin w), set_stdin [] w)
     else
       fun w =>
         match w_fs w !! filename with
         | Some f => (Ok (f_data f), w)
         | None => (Raise OSError, w)
         end)
    (fun _ => raise (AnsibleError IoError)).

(** [VaultEditor.write_data] *)
Definition write_data (data : bytes) (filename : string) (shred : bool) : io unit :=
  if bool_decide (filename = "-"%string) then
    fun w => (Ok tt, set_stdout (w_stdout w ++ data) w)
  else
    let! isfile := Os.path_isfile filename in
    let! _ := (if isfile then
                 if shred then _shred_file filename else Os.remove filename
               else ret tt) in
    let! fh := Os.open_wb filename in
    Os.close filename (Os.write data fh).

Section Editor.
Context {L : CryptoLib}.

(** The attributes of a [VaultEditor]. *)
Record VaultEditor : Type := { cipher : option bytes; vault : VaultLib }.

(** [self.vault.encrypt], with the salt drawn where the cipher draws it. *)
Definition vault_encrypt (v : VaultLib) (data : bytes) (cipher_name : option bytes)
  : io bytes :=
  fun w =>
    let '(salt, w') := Os.urandom 32 w in
    match VaultLib_encrypt v salt data cipher_name with
    | Ok r => (Ok r, w')
    | Raise e => (Raise e, w)
    end.

(** [VaultEditor.rekey_file] *)
Definition rekey_file (self : VaultEditor) (filename : string) (new_password : bytes)
  : io unit :=
  let! prev := Os.stat filename in
  let! ciphertext := read_data filename in
  let! (_, _, _, plaintext) := lift (VaultLib_decrypt (vault self) ciphertext) in
  let new_vault := {| b_password := Some new_password |} in
  let! new_ciphertext := vault_encrypt new_vault plaintext (cipher self) in
  let! _ := write_data new_ciphertext filename true in
  (* preserve permissions *)
  let! _ := Os.chmod filename (st_mode prev) in
  Os.chown filename (st_uid prev) (st_gid prev).

End Editor.

(** ** An executable library

    Base64 as RFC 4648 defines it, and small stand-ins for the key
    derivation, the MAC and the ciphers: enough to run the module on
    concrete inputs. *)

Module Base64.

Definition alphabet : bytes :=
  B "ABCDEFGHIJKLMNOPQRSTUVWXYZabcdefghijklmnopqrstuvwxyz0123456789+/".

Definition PAD : byte := x3d.

Definition char (n : N) : byte := nth (N.to_nat n) alphabet PAD.

(** The position of a byte in the alphabet. *)
Fixpoint index_of (c : byte) (l : bytes) (i : N) : option N :=
  match l with
  | [] => None
  | x :: l' => if decide (x = c) then Some i else index_of c l' (N.succ i)
  end.

Definition val (c : byte) : option N := index_of c alphabet 0.

Fixpoint encode (s : bytes) : bytes :=
  match s with
  | [] => []
  | [a] =>
      let a := Byte.to_N a in
      [char (a / 4); char (a mod 4 * 16); PAD; PAD]
  | [a; b] =>
      let a := Byte.to_N a in
      let b := Byte.to_N b in
      [char (a / 4); char (a mod 4 * 16 + b / 16); char (b mod 16 * 4); PAD]
  | a :: b :: c :: s' =>
      let a := Byte.to_N a in
      let b := Byte.to_N b in
      let c := Byte.to_N c in
      char (a / 4) :: char (a mod 4 * 16 + b / 16)
        :: char (b mod 16 * 4 + c / 64) :: char (c mod 64) :: encode s'
  end%N.

(** The strict decoder: groups of four characters, padding only at the end. *)
Fixpoint decode (s : bytes) : option bytes :=
  match s with
  | [] => Some []
  | c1 :: c2 :: c3 :: c4 :: s' =>
      match val c1, val c2 with
      | Some v1, Some v2 =>
          let b1 := Binascii.byte_of_N (v1 * 4 + v2 / 16) in
          if decide (c3 = PAD) then
            if decide (c4 = PAD) then
              match s' with [] => Some [b1] | _ => None end
            else None
          else
            match val c3 with
            | Some v3 =>
                let b2 := Binascii.byte_of_N (v2 mod 16 * 16 + v3 / 4) in
                if decide (c4 = PAD) then
                  match s' with [] => Some [b1; b2] | _ => None end
                else
                  match val c4 with
                  | Some v4 =>
                      let b3 := Binascii.byte_of_N (v3 mod 4 * 64 + v4) in
                      match decode s' with
                      | Some r => Some (b1 :: b2 :: b3 :: r)
                      | None => None
                      end
                  | None => None
                  end
            | None => None
            end
      | _, _ => None
      end
  | _ => None
  end%N.

End Base64.

Module Example.

Definition checksum (s : bytes) : N :=
  fold_left (fun acc c => ((31 * acc + Byte.to_N c) mod 256)%N) s 7%N.

Definition byte_xor (a c : byte) : byte :=
  Binascii.byte_of_N (N.lxor (Byte.to_N a) (Byte.to_N c)).

Definition kdf (password salt : bytes) (dkLen : nat) : bytes :=
  take dkLen (password ++ salt ++ repeat x2a dkLen).

Definition mac (key msg : bytes) : bytes :=
  repeat (Binascii.byte_of_N (checksum (key ++ x00 :: msg))) 32.

(** A stream cipher with a one-byte key stream. *)
Definition stream (key : bytes) (iv : N) (data : bytes) : bytes :=
  map (byte_xor (Binascii.byte_of_N ((checksum key + iv) mod 256)%N)) data.

Definition lib : CryptoLib := {|
  PBKDF2 := kdf;
  HMAC_SHA256 := mac;
  AES_CTR_encrypt := stream;
  AES_CTR_decrypt := stream;
  b64encode := Base64.encode;
  b64decode := Base64.decode;
  MD5 := fun text => repeat (Binascii.byte_of_N (checksum text)) 16;
  SHA256_hexdigest := fun data => repeat x30 64;
  cbc_cipher := bytes;
  AES_CBC_new := fun key iv => key;
  AES_CBC_decrypt := fun key data => Some (stream key 0 data, key);
  AES_block_size := 16
|}.

(** A body in the 1.1 layout of AES256: the hexlify of the three hex
    fields on three lines, with the counter derived from the password. *)
Definition legacy_body (password salt plaintext : bytes) : bytes :=
  let derivedkey := kdf password salt 80 in
  let key1 := Py.slice derivedkey 0 32 in
  let key2 := Py.slice derivedkey 32 64 in
  let iv := fold_left (fun acc c => (256 * acc + Byte.to_N c)%N)
                      (Py.slice derivedkey 64 80) 0%N in
  let ciphertext := stream key1 iv plaintext in
  Binascii.hexlify
    (Binascii.hexlify salt ++ [NL] ++ Binascii.hexlify (mac key2 ciphertext)
       ++ [NL] ++ Binascii.hexlify ciphertext).

(** A salt of 32 bytes. *)
Definition salt : bytes := map (fun k => Binascii.byte_of_N (N.of_nat k)) (seq 1 32).

Definition password : bytes := B "secret".

Definition vault_lib : VaultLib := {| b_password := Some password |}.

(** The vault that [VaultLib.encrypt] makes of [b'hello'] here. *)
Definition hello_vault : bytes :=
  match VaultLib_encrypt (L := lib) vault_lib salt (B "hello") None with
  | Ok blob => blob
  | Raise _ => []
  end.

(** A vault whose stored mac is 32 zero bytes. *)
Definition tampered_vault : bytes :=
  _add_vault_header (B "AES256") (B "1.2")
    (Base64.encode (salt ++ repeat x00 32 ++ B "xyz") ++ [NL]).

(** A vault whose body decodes to five bytes. *)
Definition short_vault : bytes :=
  _add_vault_header (B "AES256") (B "1.2") (Base64.encode (B "short") ++ [NL]).

(** A 1.1 vault whose plaintext, [b'A\x00'], ends in a zero byte. *)
Definition zero_padded_vault : bytes :=
  B "$ANSIBLE_VAULT;1.1;AES256" ++ [NL] ++ legacy_body password salt [x41; x00] ++ [NL].

(** A 1.1 vault whose plaintext is [b'hello'] and three bytes of padding. *)
Definition padded_vault : bytes :=
  B "$ANSIBLE_VAULT;1.1;AES256" ++ [NL]
    ++ legacy_body password salt (B "hello" ++ [x03; x03; x03]) ++ [NL].

(** A world where root, with umask 0o022 and no shred installed, finds
    [hello_vault] in a file of mode 0o600 that belongs to user 1000. *)
Definition world0 : world :=
  mk_world {[ "vault.yml"%string := mk_file 384 1000 1000 hello_vault ]}
           [] [] 18 0 0 None
           (fun pos => 3 * pos + 1)
           (fun pos i => Binascii.byte_of_N (N.of_nat ((7 * pos + i) mod 256)))
           0.

Definition editor : VaultEditor := {| cipher := None; vault := vault_lib |}.

(** A body in the layout of the obsolete AES cipher: the hexlify of
    [Salted__], eight bytes of salt, and the encryption of the digest, a
    newline, the data and its padding. *)
Definition legacy_aes_body (password salt8 data padding : bytes) : bytes :=
  let key := (aes_derive_key_and_iv (L := lib) password salt8 32 16).1 in
  Binascii.hexlify
    (B "Salted__" ++ salt8
       ++ stream key 0 (SHA256_hexdigest (CryptoLib := lib) data ++ [NL] ++ data ++ padding)).

Definition legacy_aes_vault : bytes :=
  B "$ANSIBLE_VAULT;1.1;AES" ++ [NL]
    ++ legacy_aes_body password (B "saltsalt") (B "hi") [x02; x02] ++ [NL].

End Example.


(** ** The container-version test as the specification words it

    "Lexicographic on dotted components as integers": every component of
    the version is read as a decimal number and the list of numbers is
    compared with [1; 2]. *)

Module SpecVersion.

(** A non-empty string of decimal digits, as a number. *)
Definition decimal (s : bytes) : option N :=
  match s with
  | [] => None
  | _ =>
      fold_left
        (fun acc c =>
           match acc with
           | Some n =>
               let d := Byte.to_N c in
               if (48 <=? d)%N && (d <=? 57)%N then Some (10 * n + (d - 48))%N else None
           | None => None
           end)
        s (Some 0%N)
  end.

Definition components (version : bytes) : option (list N) :=
  mapM decimal (Py.split DOT version).

(** [Some true] when the components are numbers and at least (1, 2). *)
Definition ge_1_2_as_integers (version : bytes) : option bool :=
  match components version with
  | Some ns =>
      Some (match Py.seq_compare N.compare ns [1; 2]%N with
            | Lt => false
            | _ => true
            end)
  | None => None
  end.

End SpecVersion.

(** A component that is one decimal digit. *)
Definition single_digit (s : bytes) : Prop :=
  exists d, s = [d] /\ (48 <= Py.ord d <= 57)%N.

(** The lines of [VaultAES256.encrypt] before their newline:
    [message[i:i+80] for i in range(0, len(message), 80)]. *)
Definition wrapped_lines (message : bytes) : list bytes :=
  map (fun i => Py.slice message i (i + 80)) (Py.range_step (length message) 80).

(** What a file object has written since its last [seek(0)]: the position
    is past it, and it is what the file starts with. *)
Definition written (fh : Os.file_handle) (w : bytes) : Prop :=
  Os.fh_pos fh = length w /\ take (Os.fh_pos fh) (Os.fh_buf fh) = w.

(** Two worlds that have the same files at every path but [path], and code
    that leaves the files at all other paths as they are, however it ends. *)
Definition same_elsewhere (path : string) (w w' : world) : Prop :=
  forall other, other <> path -> w_fs w' !! other = w_fs w !! other.

Definition touches_only {A} (path : string) (m : io A) : Prop :=
  forall w, same_elsewhere path w (m w).2.

(** ** The rest of VaultEditor, and VaultFile *)

(** A header field that [_parse_vault_header] gives back as it was written:
    no separator, no newline, and nothing for [strip()] to remove. *)
Definition plain_field (s : bytes) : Prop :=
  (SEMI ∉ s) /\ (NL ∉ s) /\ Py.strip s = s.

Module Shutil.

(** [shutil.move(src, dest)] between two paths of one file system, which is
    [os.rename]: the file is then at [dest], with its mode, owner and bytes. *)
Definition move (src dest : string) : io unit :=
  fun w =>
    match w_fs w !! src with
    | Some f => (Ok tt, set_fs (<[dest := f]> (delete src (w_fs w))) w)
    | None => (Raise OSError, w)
    end.

End Shutil.

(** [tempfile.mkstemp()], for the path it chose: an empty file of mode 0o600
    that belongs to the process. *)
Definition mkstemp (tmp_path : string) : io unit :=
  fun w =>
    (Ok tt, set_fs (<[tmp_path := mk_file 384 (w_euid w) (w_egid w) []]> (w_fs w)) w).

(** [VaultEditor.shuffle_files] *)
Definition shuffle_files (src dest : string) : io unit :=
  let! isfile := Os.path_isfile dest in
  let! prev := (if isfile then
                  let! st := Os.stat dest in
                  (* old file 'dest' was encrypted, no need to _shred_file *)
                  let! _ := Os.remove dest in
                  ret (Some st)
                else ret None) in
  let! _ := Shutil.move src dest in
  (* reset permissions if needed *)
  match prev with
  | Some prev =>
      let! _ := Os.chmod dest (st_mode prev) in
      Os.chown dest (st_uid prev) (st_gid prev)
  | None => ret tt
  end.

Section EditorFiles.
Context {L : CryptoLib}.

(** [output_file or filename] *)
Definition output_or (output_file : option string) (filename : string) : string :=
  match output_file with
  | Some o => if bool_decide (o = ""%string) then filename else o
  | None => filename
  end.

(** [VaultEditor.encrypt_file] *)
Definition encrypt_file (self : VaultEditor) (filename : string)
    (output_file : option string) : io unit :=
  let! plaintext := read_data filename in
  let! ciphertext := vault_encrypt (vault self) plaintext (cipher self) in
  write_data ciphertext (output_or output_file filename) true.

(** [VaultEditor.plaintext] *)
Definition VaultEditor_plaintext (self : VaultEditor) (filename : string) : io bytes :=
  let! ciphertext := read_data filename in
  let! (_, _, _, plaintext) := lift (VaultLib_decrypt (vault self) ciphertext) in
  ret plaintext.

(** [VaultEditor._edit_file_helper].  [tmp_path] is the path [mkstemp]
    chose, and [editor] is what [call(self._editor_shell_command(tmp_path))]
    does: the editor process runs on the path, changes the world as it
    likes, and exits with a status, or cannot be started. *)
Definition _edit_file_helper (self : VaultEditor) (tmp_path : string)
    (editor : string -> io Z) (filename : string) (existing_data : option bytes)
    (force_save : bool) : io unit :=
  (* Create a tempfile *)
  let! _ := mkstemp tmp_path in
  let! _ := (match existing_data with
             | Some (c :: data) => write_data (c :: data) tmp_path false
             | _ => ret tt
             end) in
  (* drop the user into an editor on the tmp file *)
  let! _ := try_except (editor tmp_path)
                       (fun e =>
                          (* whatever happens, destroy the decrypted file *)
                          let! _ := _shred_file tmp_path in
                          raise e) in
  let! tmpdata := read_data tmp_path in
  (* Do nothing if the content has not changed *)
  if bool_decide (existing_data = Some tmpdata) && negb force_save then
    _shred_file tmp_path
  else
    (* encrypt new data and write out to tmp *)
    let! enc_data := vault_encrypt (vault self) tmpdata (cipher self) in
    let! _ := write_data enc_data tmp_path true in
    (* shuffle tmp file into place *)
    shuffle_files tmp_path filename.

(** [VaultEditor.create_file] *)
Definition create_file (self : VaultEditor) (tmp_path : string)
    (editor : string -> io Z) (filename : string) : io unit :=
  let! isfile := Os.path_isfile filename in
  if isfile then raise (AnsibleError AlreadyExists)
  else _edit_file_helper self tmp_path editor filename None false.

(** [VaultEditor.edit_file] *)
Definition edit_file (self : VaultEditor) (tmp_path : string)
    (editor : string -> io Z) (filename : string) : io unit :=
  let! b_ciphertext := read_data filename in
  let! (b_vault_version, b_cipher_name, b_cipher_version, b_plaintext) :=
    lift (VaultLib_decrypt (vault self) b_ciphertext) in
  if negb (bool_decide (b_cipher_name ∈ CIPHER_WRITE_WHITELIST)) then
    (* we want to get rid of files encrypted with the AES cipher *)
    _edit_file_helper self tmp_path editor filename (Some b_plaintext) true
  else
    _edit_file_helper self tmp_path editor filename (Some b_plaintext) false.

End EditorFiles.

(** An exception that is not an [AnsibleError]. *)
Definition builtin_exception (e : exn) : Prop :=
  match e with
  | AnsibleError _ => False
  | _ => True
  end.

(** Two worlds with the same umask, credentials and [shred], and code that
    leaves them as they are. *)
Definition same_process (w w' : world) : Prop :=
  w_umask w' = w_umask w /\ w_euid w' = w_euid w /\ w_egid w' = w_egid w
  /\ w_shred w' = w_shred w.

Definition keeps_process {A} (m : io A) : Prop :=
  forall w, same_process w (m w).2.

(** What one overwrite pass leaves in a file of [file_len] bytes: the chunk
    as often as it fits, then the start of the chunk. *)
Definition pass_pattern (file_len : nat) (data : bytes) : bytes :=
  concat (repeat data (file_len / length data)) ++ take (file_len mod length data) data.

(** The chunk length and the chunk that [_shred_file_custom] draws when the
    source of randomness is at position [pos]. *)
Definition drawn_chunk_len (w : world) (pos file_len : nat) : nat :=
  let max_chunk_len := Nat.min MAX_CHUNK_LEN file_len in
  max_chunk_len / 2 + w_rand_nat w pos mod (max_chunk_len - max_chunk_len / 2 + 1).

Definition drawn_chunk (w : world) (pos file_len : nat) : bytes :=
  map (w_rand_byte w (S pos)) (seq 0 (drawn_chunk_len w pos file_len)).

(** The worlds the passes go through differ in the position of the source
    of randomness only. *)
Fixpoint advance (n : nat) (w : world) : world :=
  match n with
  | O => w
  | S n => advance n (next_random w)
  end.

(** The world in which [_edit_file_helper] starts the editor: the path that
    [mkstemp] chose holds the existing data, in a file that [write_data]
    made anew, or the empty file of [mkstemp] when there is no data. *)
Definition editor_start (tmp_path : string) (existing_data : option bytes) (w : world)
  : world :=
  set_fs (<[tmp_path :=
             match existing_data with
             | Some (c :: data) =>
                 mk_file (N.ldiff 438 (w_umask w)) (w_euid w) (w_egid w) (c :: data)
             | _ => mk_file 384 (w_euid w) (w_egid w) []
             end]> (w_fs w)) w.

(** ** VaultFile *)

(** The attributes of a [VaultFile]: [vf_filehandle] is what is left to read
    of the file that [__init__] opened, and [vf_tmpfile] is the second item
    of [tempfile.mkstemp()], the path of the temporary file, a [str]. *)
Record VaultFile : Type := mk_VaultFile {
  vf_password : option bytes;
  vf_filename : string;
  vf_filehandle : bytes;
  vf_tmpfile : string
}.

Definition set_filehandle (unread : bytes) (self : VaultFile) : VaultFile :=
  mk_VaultFile (vf_password self) (vf_filename self) unread (vf_tmpfile self).

(** [fh.readline()]: the bytes up to the first newline, with it, and what is
    left to read after them. *)
Fixpoint readline (unread : bytes) : bytes * bytes :=
  match unread with
  | [] => ([], [])
  | c :: rest =>
      if decide (c = NL) then ([c], rest)
      else let '(line, rest') := readline rest in (c :: line, rest')
  end.

(** [VaultFile.is_encrypted] *)
Definition VaultFile_is_encrypted (self : VaultFile) : bool * VaultFile :=
  let '(peak, unread) := readline (vf_filehandle self) in
  (Py.startswith peak b_HEADER, set_filehandle unread self).

Section VaultFileDecrypt.
Context {L : CryptoLib}.

(** [VaultFile.get_decrypted].  [VaultLib.decrypt] raises where it has no
    plaintext, so that [dec_data] is never [None]; [self.tmpfile] is a path,
    and a [str] has no attribute [write]. *)
Definition VaultFile_get_decrypted (self : VaultFile) : result string * VaultFile :=
  let '(encrypted, self) := VaultFile_is_encrypted self in
  if encrypted then
    let tmpdata := vf_filehandle self in
    let self := set_filehandle [] self in
    let this_vault := {| b_password := vf_password self |} in
    match VaultLib_decrypt this_vault tmpdata with
    | Ok (_, _, _, dec_data) => (Raise AttributeError, self)
    | Raise e => (Raise e, self)
    end
  else (Ok (vf_filename self), self).

End VaultFileDecrypt.

(** Two editors for the examples: one that replaces the content of the
    file by [text] and exits with status 0, and one that cannot be
    started. *)
Module ExampleEdit.

Definition typing (text : bytes) (path : string) : io Z :=
  let! fh := Os.open_wb path in
  let! _ := Os.close path (Os.write text fh) in
  ret 0%Z.

Definition no_editor (path : string) : io Z := raise OSError.

(** [Example.world0] with a file of plain text beside the vault. *)
Definition world1 : world :=
  set_fs (<["notes.txt"%string := mk_file 420 1000 1000 (B "plain text")]>
            (w_fs Example.world0)) Example.world0.

(** A [VaultFile] on [Example.hello_vault], and one on plain text. *)
Definition vault_file : VaultFile :=
  mk_VaultFile (Some Example.password) "vault.yml" Example.hello_vault "/tmp/tmpb".

Definition plain_file : VaultFile :=
  mk_VaultFile (Some Example.password) "notes.txt" (B "plain text") "/tmp/tmpb".

End ExampleEdit.

(** * Theorems *)

(** ** Properties of the byte-string operations *)

Lemma split_nonempty sep s : Py.split sep s <> [].
Proof.
  destruct s as [|c s]; simpl; [discriminate|].
  destruct (decide (c = sep)); [discriminate|].
  destruct (Py.split sep s); discriminate.
Qed.

(** ** The MAC comparison *)

Lemma ord_inj (x y : byte) : Py.ord x = Py.ord y -> x = y.
Proof.
  unfold Py.ord. intros H.
  assert (E : Byte.of_N (Byte.to_N x) = Byte.of_N (Byte.to_N y)) by (now rewrite H).
  rewrite !Byte.of_to_N in E. now injection E.
Qed.

Lemma xor_fold_zero (l : list (byte * byte)) (acc : N) :
  fold_left (fun result xy => N.lor result (N.lxor (Py.ord xy.1) (Py.ord xy.2))) l acc = 0%N
  <-> acc = 0%N /\ Forall (fun xy => xy.1 = xy.2) l.
Proof.
  revert acc. induction l as [|[x y] l IH]; intros acc; simpl.
  - split; [intros ->; split; constructor | now intros [-> _]].
  - rewrite IH, N.lor_eq_0_iff, N.lxor_eq_0_iff, Forall_cons. simpl.
    split.
    + intros [[-> Hxy] Hl]. repeat split; auto using ord_inj.
    + intros [-> [-> Hl]]. repeat split; auto.
Qed.

Lemma zip_all_equal (a b : bytes) :
  length a = length b ->
  (Forall (fun xy : byte * byte => xy.1 = xy.2) (zip a b) <-> a = b).
Proof.
  revert b. induction a as [|x a IH]; intros [|y b]; simpl; try discriminate.
  - intros _. split; [reflexivity | constructor].
  - intros Hlen. injection Hlen as Hlen.
    rewrite Forall_cons. simpl. rewrite (IH b Hlen).
    split; [intros [-> ->]; reflexivity | intros E; injection E; auto].
Qed.

Lemma is_equal_true_iff (a b : bytes) :
  is_equal a b = true <-> length a = length b /\ xor_accumulate a b = 0%N.
Proof.
  unfold is_equal, xor_accumulate.
  destruct (Nat.eqb_spec (length a) (length b)) as [Hlen|Hlen]; simpl.
  - rewrite N.eqb_eq. tauto.
  - split; [discriminate | tauto].
Qed.

Lemma is_equal_eq (a b : bytes) : is_equal a b = true <-> a = b.
Proof.
  rewrite is_equal_true_iff. unfold xor_accumulate. rewrite xor_fold_zero.
  split.
  - intros [Hlen [_ Hall]]. now apply zip_all_equal.
  - intros ->. split; [reflexivity|]. split; [reflexivity|].
    now apply zip_all_equal.
Qed.

(** C5: is_equal answers true exactly when the two byte strings have the
    same length and the XOR accumulation over their paired bytes is zero,
    which is exactly when they are the same byte string. *)
Theorem is_equal_iff_same_bytes (a b : bytes) :
  (is_equal a b = true <-> length a = length b /\ xor_accumulate a b = 0%N)
  /\ (is_equal a b = true <-> a = b).
Proof. split; [apply is_equal_true_iff | apply is_equal_eq]. Qed.

Lemma is_equal_false_of_length (a b : bytes) :
  length a <> length b -> is_equal a b = false.
Proof.
  intros H. unfold is_equal.
  destruct (Nat.eqb_spec (length a) (length b)); [contradiction | reflexivity].
Qed.

Lemma is_equal_false_of_neq (a b : bytes) : a <> b -> is_equal a b = false.
Proof.
  intros H. destruct (is_equal a b) eqn:E; [|reflexivity].
  now apply is_equal_eq in E.
Qed.

Lemma is_equal_refl (a : bytes) : is_equal a a = true.
Proof. now apply is_equal_eq. Qed.

(** ** The header codec *)

(** [_parse_vault_header], one branch per outcome. *)
Lemma parse_vault_header_unfold (data : bytes) :
  let lines := Py.splitn 1 NL data in
  let header := header_fields data in
  let b_vault_version := Py.strip (nth 1 header []) in
  let b_cipher_name := Py.strip (nth 2 header []) in
  let b_data := if 1 <? length lines then Some (nth 1 lines []) else None in
  _parse_vault_header data =
    if (3 <=? length header) && bool_decide (nth 0 header [] = b_HEADER) then
      if vault_version_ge_1_2 b_vault_version then
        if length header =? 4
        then Ok (b_vault_version, b_cipher_name, Py.strip (nth 3 header []), b_data)
        else Raise (AnsibleError MalformedHeader4)
      else if length header =? 3
           then Ok (b_vault_version, b_cipher_name, b_vault_version, b_data)
           else Raise (AnsibleError MalformedHeader3)
    else Raise (AnsibleError NotVault).
Proof.
  unfold _parse_vault_header, header_fields. cbv zeta.
  destruct ((3 <=? _) && _); [|reflexivity].
  destruct (vault_version_ge_1_2 _).
  - destruct (_ =? 4); reflexivity.
  - destruct (_ =? 3); reflexivity.
Qed.

(** What decides the outcome of [_parse_vault_header]: the number of fields,
    the first field, and the byte-wise version test. *)
Lemma parse_vault_header_outcome (data : bytes) :
  let header := header_fields data in
  let b_vault_version := Py.strip (nth 1 header []) in
  let expected := if vault_version_ge_1_2 b_vault_version then 4 else 3 in
  (length header < 3 \/ nth 0 header [] <> b_HEADER ->
     _parse_vault_header data = Raise (AnsibleError NotVault))
  /\ (3 <= length header -> nth 0 header [] = b_HEADER -> length header <> expected ->
        _parse_vault_header data =
          Raise (AnsibleError (if vault_version_ge_1_2 b_vault_version
                               then MalformedHeader4 else MalformedHeader3)))
  /\ (3 <= length header -> nth 0 header [] = b_HEADER -> length header = expected ->
        exists b_data,
          _parse_vault_header data =
            Ok (b_vault_version, Py.strip (nth 2 header []),
                (if vault_version_ge_1_2 b_vault_version
                 then Py.strip (nth 3 header []) else b_vault_version),
                b_data)).
Proof.
  cbv zeta. rewrite parse_vault_header_unfold. cbv zeta.
  set (header := header_fields data).
  destruct (Nat.leb_spec 3 (length header)) as [Hlen|Hlen];
    destruct (bool_decide_reflect (nth 0 header [] = b_HEADER)) as [Hh|Hh]; simpl.
  2-4: (split; [reflexivity | split; intros; try lia; contradiction]).
  split; [intros [?|?]; [lia | contradiction]|].
  destruct (vault_version_ge_1_2 _).
  - destruct (Nat.eqb_spec (length header) 4) as [E|E].
    + split; [intros; contradiction | intros; eexists; reflexivity].
    + split; [reflexivity | intros; contradiction].
  - destruct (Nat.eqb_spec (length header) 3) as [E|E].
    + split; [intros; contradiction | intros; eexists; reflexivity].
    + split; [reflexivity | intros; contradiction].
Qed.

(** The ordering of lists does not change under a map that respects the
    ordering of the elements. *)
Lemma seq_compare_map {A C} (cmpA : A -> A -> comparison) (cmpC : C -> C -> comparison)
    (f : A -> C) (l1 l2 : list A) :
  (forall a b, In a l1 -> In b l2 -> cmpA a b = cmpC (f a) (f b)) ->
  Py.seq_compare cmpA l1 l2 = Py.seq_compare cmpC (map f l1) (map f l2).
Proof.
  revert l2. induction l1 as [|a l1 IH]; intros [|b l2] H; simpl; try reflexivity.
  rewrite <- (H a b) by (simpl; auto).
  destruct (cmpA a b); try reflexivity.
  apply IH. intros; apply H; simpl; auto.
Qed.

Lemma decimal_single_digit (d : byte) :
  (48 <= Py.ord d <= 57)%N -> SpecVersion.decimal [d] = Some (Py.ord d - 48)%N.
Proof.
  intros [Hlo Hhi]. unfold SpecVersion.decimal, Py.ord in *. simpl.
  apply N.leb_le in Hlo, Hhi. now rewrite Hlo, Hhi.
Qed.

Lemma components_single_digits (l : list bytes) :
  Forall single_digit l ->
  mapM SpecVersion.decimal l
  = Some (map (fun s => default 0%N (SpecVersion.decimal s)) l).
Proof.
  induction 1 as [|s l [d [-> Hd]] _ IH]; [reflexivity|].
  cbn [mapM map]. rewrite IH, (decimal_single_digit d Hd). reflexivity.
Qed.

Lemma compare_single_digits (s t : bytes) :
  single_digit s -> single_digit t ->
  Py.bytes_compare s t
  = N.compare (default 0%N (SpecVersion.decimal s)) (default 0%N (SpecVersion.decimal t)).
Proof.
  intros [d [-> Hd]] [e [-> He]].
  rewrite !decimal_single_digit by assumption. simpl.
  unfold Py.bytes_compare. simpl.
  destruct (N.compare_spec (Py.ord d) (Py.ord e)) as [E|E|E]; symmetry.
  - rewrite E. apply N.compare_refl.
  - apply N.compare_lt_iff. lia.
  - apply N.compare_gt_iff. lia.
Qed.

(** On versions whose components are single decimal digits, the byte-wise
    test of the code and the integer test of the specification agree. *)
Lemma version_test_single_digits (version : bytes) :
  Forall single_digit (Py.split DOT version) ->
  SpecVersion.ge_1_2_as_integers version = Some (vault_version_ge_1_2 version).
Proof.
  intros H. unfold SpecVersion.ge_1_2_as_integers, SpecVersion.components.
  rewrite (components_single_digits _ H).
  unfold vault_version_ge_1_2, Py.list_ge, Py.list_compare.
  rewrite (seq_compare_map Py.bytes_compare N.compare
             (fun s => default 0%N (SpecVersion.decimal s))
             (Py.split DOT version) [B "1"; B "2"]).
  - reflexivity.
  - intros a b Ha Hb. apply compare_single_digits.
    + rewrite Forall_forall in H. apply H. now apply list_elem_of_In.
    + destruct Hb as [<-|[<-|[]]]; eexists; (split; [reflexivity|]); vm_compute;
        split; discriminate.
Qed.

(** C3 (amended): on a header with at least three fields whose first field is
    the magic, the container-version test compares the dot-separated
    components of field 1 as byte strings, in the order of Python lists;
    when the test holds exactly 4 fields are required and field 3 is the
    cipher version, otherwise exactly 3 fields are required and the cipher
    version is the container version.  Whenever every component is a single
    decimal digit the test agrees with the comparison of the components as
    integers. *)
Theorem parse_vault_header_version_test (data : bytes) :
  let header := header_fields data in
  let b_vault_version := Py.strip (nth 1 header []) in
  let b_cipher_name := Py.strip (nth 2 header []) in
  3 <= length header ->
  nth 0 header [] = b_HEADER ->
  (Py.list_ge (Py.split DOT b_vault_version) [B "1"; B "2"] = true ->
     (length header = 4 /\
      exists b_data, _parse_vault_header data
        = Ok (b_vault_version, b_cipher_name, Py.strip (nth 3 header []), b_data))
     \/ (length header <> 4 /\
         _parse_vault_header data = Raise (AnsibleError MalformedHeader4)))
  /\ (Py.list_ge (Py.split DOT b_vault_version) [B "1"; B "2"] = false ->
     (length header = 3 /\
      exists b_data, _parse_vault_header data
        = Ok (b_vault_version, b_cipher_name, b_vault_version, b_data))
     \/ (length header <> 3 /\
         _parse_vault_header data = Raise (AnsibleError MalformedHeader3)))
  /\ (Forall single_digit (Py.split DOT b_vault_version) ->
      SpecVersion.ge_1_2_as_integers b_vault_version
      = Some (Py.list_ge (Py.split DOT b_vault_version) [B "1"; B "2"])).
Proof.
  intros header b_vault_version b_cipher_name Hlen Hmagic.
  destruct (parse_vault_header_outcome data) as (_ & Hbad & Hgood).
  fold header in Hbad, Hgood. fold b_vault_version in Hbad, Hgood.
  fold b_cipher_name in Hgood.
  change (Py.list_ge (Py.split DOT b_vault_version) [B "1"; B "2"])
    with (vault_version_ge_1_2 b_vault_version).
  specialize (Hbad Hlen Hmagic). specialize (Hgood Hlen Hmagic).
  repeat split.
  - intros Hge. rewrite Hge in Hbad, Hgood.
    destruct (decide (length header = 4)) as [E|E]; [left | right]; auto.
  - intros Hge. rewrite Hge in Hbad, Hgood.
    destruct (decide (length header = 3)) as [E|E]; [left | right]; auto.
  - apply version_test_single_digits.
Qed.

Lemma parse_vault_header_version_test_witness :
  let data := B "$ANSIBLE_VAULT;1.2;AES256;1.2" ++ [NL] ++ B "YWJj" ++ [NL] in
  _parse_vault_header data = Ok (B "1.2", B "AES256", B "1.2", Some (B "YWJj" ++ [NL]))
  /\ SpecVersion.ge_1_2_as_integers (B "1.2") = Some true.
Proof.
  intros data.
  assert (Hlen : 3 <= length (header_fields data)) by (vm_compute; lia).
  assert (Hmagic : nth 0 (header_fields data) [] = b_HEADER) by reflexivity.
  destruct (parse_vault_header_version_test data Hlen Hmagic) as (Hge & _ & Hint).
  split.
  - reflexivity.
  - refine (Hint _).
    vm_compute. repeat constructor; eexists; (split; [reflexivity|]);
      vm_compute; split; discriminate.
Defined.

(** C3, as stated, fails on version 1.10: its components as integers are
    (1, 10), at least (1, 2), yet the code asks for three fields: it refuses
    the header of four fields and accepts the header of three. *)
Lemma version_1_10_is_below_1_2_for_the_code :
  let four := B "$ANSIBLE_VAULT;1.10;AES256;1.2" ++ [NL] ++ B "YWJj" in
  let three := B "$ANSIBLE_VAULT;1.10;AES256" ++ [NL] ++ B "YWJj" in
  SpecVersion.components (B "1.10") = Some [1; 10]%N
  /\ SpecVersion.ge_1_2_as_integers (B "1.10") = Some true
  /\ vault_version_ge_1_2 (B "1.10") = false
  /\ length (header_fields four) = 4
  /\ _parse_vault_header four = Raise (AnsibleError MalformedHeader3)
  /\ _parse_vault_header three = Ok (B "1.10", B "AES256", B "1.10", Some (B "YWJj")).
Proof. vm_compute. repeat split; reflexivity. Qed.

(** C7 (amended): parsing fails with NotVault exactly when the header line
    has fewer than three fields or its first field is not the magic; it
    fails with MalformedHeader exactly when there are at least three fields,
    the first is the magic, and the number of fields is not the one the
    version asks for (4 from 1.2 on, 3 below). *)
Theorem parse_vault_header_error_kinds (data : bytes) :
  let header := header_fields data in
  let expected :=
    if vault_version_ge_1_2 (Py.strip (nth 1 header [])) then 4 else 3 in
  (_parse_vault_header data = Raise (AnsibleError NotVault)
     <-> length header < 3 \/ nth 0 header [] <> b_HEADER)
  /\ (is_malformed_header (_parse_vault_header data)
     <-> 3 <= length header /\ nth 0 header [] = b_HEADER /\ length header <> expected).
Proof.
  intros header expected.
  destruct (parse_vault_header_outcome data) as (Hnot & Hbad & Hgood).
  fold header in Hnot, Hbad, Hgood. fold expected in Hbad, Hgood.
  unfold is_malformed_header.
  destruct (decide (length header < 3 \/ nth 0 header [] <> b_HEADER)) as [Hn|Hn].
  - rewrite (Hnot Hn). split; [tauto|].
    split; [intros [?|?]; discriminate|].
    intros (? & ? & _). destruct Hn; [lia | contradiction].
  - assert (Hlen : 3 <= length header) by (destruct (decide (3 <= length header)); [assumption | exfalso; apply Hn; left; lia]).
    assert (Hmagic : nth 0 header [] = b_HEADER)
      by (destruct (decide (nth 0 header [] = b_HEADER)); [assumption | exfalso; apply Hn; now right]).
    destruct (decide (length header = expected)) as [E|E].
    + destruct (Hgood Hlen Hmagic E) as [b_data ->].
      split; (split; [try discriminate; try (intros [?|?]; discriminate) | tauto]).
    + rewrite (Hbad Hlen Hmagic E).
      split.
      * split; [destruct (vault_version_ge_1_2 _); discriminate | tauto].
      * split; [auto|]. intros _. destruct (vault_version_ge_1_2 _); auto.
Qed.

(** C7, as stated, fails on a header of two fields: the first field is the
    magic and the field count is wrong, yet the error is NotVault and not
    MalformedHeader. *)
Lemma two_fields_fail_as_not_vault :
  let data := B "$ANSIBLE_VAULT;1.1" ++ [NL] ++ B "YWJj" in
  nth 0 (header_fields data) [] = B "$ANSIBLE_VAULT"
  /\ length (header_fields data) = 2
  /\ _parse_vault_header data = Raise (AnsibleError NotVault)
  /\ ~ is_malformed_header (_parse_vault_header data).
Proof.
  vm_compute. repeat split; try reflexivity.
  intros [H|H]; discriminate H.
Qed.

(** ** The wrapping of the body into lines *)

Lemma range_step_length (stop step : nat) :
  0 < step -> stop <= length (Py.range_step stop step) * step.
Proof.
  intros Hstep. unfold Py.range_step. rewrite length_map, length_seq.
  pose proof (Nat.div_mod_eq (stop + step - 1) step) as E.
  pose proof (Nat.mod_upper_bound (stop + step - 1) step) as U.
  nia.
Qed.

Lemma range_step_bound (stop step i : nat) :
  0 < step -> In i (Py.range_step stop step) -> i < stop.
Proof.
  intros Hstep. unfold Py.range_step. rewrite in_map_iff.
  intros [k [<- Hk]]. apply in_seq in Hk.
  pose proof (Nat.div_mod_eq (stop + step - 1) step) as E.
  pose proof (Nat.mod_upper_bound (stop + step - 1) step) as U.
  nia.
Qed.

Lemma concat_slices (step q : nat) (m : bytes) :
  length m <= q * step ->
  concat (map (fun i => Py.slice m i (i + step)) (map (fun k => k * step) (seq 0 q))) = m.
Proof.
  revert m. induction q as [|q IH]; intros m Hlen.
  - simpl in *. destruct m; [reflexivity | simpl in Hlen; lia].
  - cbn [seq map concat]. rewrite <- seq_shift, !map_map.
    unfold Py.slice at 1. simpl. replace (step - 0) with step by lia.
    transitivity (take step m ++ drop step m); [|apply take_drop].
    f_equal.
    assert (Hrest : length (drop step m) <= q * step)
      by (rewrite length_drop; simpl in Hlen; lia).
    etransitivity; [|apply (IH _ Hrest)].
    rewrite map_map. f_equal. apply map_ext. intros k.
    unfold Py.slice. rewrite drop_drop.
    replace (step + k * step + step - (step + k * step)) with (k * step + step - k * step) by lia.
    reflexivity.
Qed.

Lemma wrapped_lines_concat (message : bytes) : concat (wrapped_lines message) = message.
Proof.
  unfold wrapped_lines. pose proof (range_step_length (length message) 80) as H.
  unfold Py.range_step in *. rewrite length_map, length_seq in H.
  apply concat_slices. lia.
Qed.

Lemma wrapped_lines_width (message : bytes) :
  Forall (fun line => 1 <= length line <= 80) (wrapped_lines message).
Proof.
  unfold wrapped_lines. rewrite Forall_forall. intros line Hin.
  apply list_elem_of_In, in_map_iff in Hin. destruct Hin as [i [<- Hi]].
  apply range_step_bound in Hi; [|lia].
  unfold Py.slice. rewrite length_take, length_drop. lia.
Qed.

Lemma remove_app (c : byte) (s t : bytes) :
  Py.remove c (s ++ t) = Py.remove c s ++ Py.remove c t.
Proof. unfold Py.remove. apply filter_app. Qed.

Lemma remove_absent (c : byte) (s : bytes) : c ∉ s -> Py.remove c s = s.
Proof.
  unfold Py.remove. induction s as [|x s IH]; intros H; [reflexivity|].
  rewrite not_elem_of_cons in H. destruct H as [Hx Hs].
  rewrite filter_cons_True by congruence. now rewrite IH.
Qed.

Lemma remove_lines (lines : list bytes) :
  NL ∉ concat lines ->
  Py.remove NL (concat (map (fun line => line ++ [NL]) lines)) = concat lines.
Proof.
  induction lines as [|line lines IH]; intros H; [reflexivity|].
  simpl in *. rewrite not_elem_of_app in H. destruct H as [Hl Hr].
  rewrite !remove_app, (remove_absent _ _ Hl), IH by assumption.
  unfold Py.remove at 1. rewrite filter_cons_False by (intros E; now apply E).
  rewrite filter_nil. now rewrite app_nil_r.
Qed.

(** ** VaultAES256 and VaultLib *)

Lemma splitn_0 (sep : byte) (s : bytes) : Py.splitn 0 sep s = [s].
Proof. destruct s; reflexivity. Qed.

(** The first line and the rest, when there is a newline. *)
Lemma splitn_first_line (line rest : bytes) :
  NL ∉ line -> Py.splitn 1 NL (line ++ NL :: rest) = [line; rest].
Proof.
  induction line as [|c line IH]; intros H; simpl.
  - now rewrite splitn_0.
  - rewrite not_elem_of_cons in H. destruct H as [Hc Hline].
    destruct (decide (c = NL)) as [E|_]; [congruence|].
    now rewrite (IH Hline).
Qed.

Lemma add_vault_header_lines (body : bytes) :
  Py.splitn 1 NL (_add_vault_header (B "AES256") (B "1.2") body)
  = [B "$ANSIBLE_VAULT;1.2;AES256;1.2"; body].
Proof.
  change (_add_vault_header (B "AES256") (B "1.2") body)
    with (B "$ANSIBLE_VAULT;1.2;AES256;1.2" ++ NL :: body).
  apply splitn_first_line.
  apply (bool_decide_unpack _). vm_compute. exact I.
Qed.

Lemma parse_own_header (body : bytes) :
  _parse_vault_header (_add_vault_header (B "AES256") (B "1.2") body)
  = Ok (B "1.2", B "AES256", B "1.2", Some body).
Proof. unfold _parse_vault_header. rewrite add_vault_header_lines. reflexivity. Qed.

Lemma header_fields_own_header (body : bytes) :
  header_fields (_add_vault_header (B "AES256") (B "1.2") body)
  = [B "$ANSIBLE_VAULT"; B "1.2"; B "AES256"; B "1.2"].
Proof. unfold header_fields. rewrite add_vault_header_lines. reflexivity. Qed.

Section Vault.
Context {L : CryptoLib}.

Lemma gen_key_initctr_no_iv (password salt : bytes) :
  gen_key_initctr password salt false
  = Ok (Py.slice (PBKDF2 password salt 64) 0 32,
        Py.slice (PBKDF2 password salt 64) 32 64, 0%N).
Proof. reflexivity. Qed.

Lemma VaultAES256_encrypt_eq (salt plaintext password : bytes) :
  let key1 := Py.slice (PBKDF2 password salt 64) 0 32 in
  let key2 := Py.slice (PBKDF2 password salt 64) 32 64 in
  let ciphertext := AES_CTR_encrypt key1 0 plaintext in
  let message := b64encode (salt ++ HMAC_SHA256 key2 ciphertext ++ ciphertext) in
  VaultAES256_encrypt salt plaintext password
  = Ok (concat (map (fun line => line ++ [NL]) (wrapped_lines message))).
Proof.
  cbv zeta. unfold VaultAES256_encrypt. rewrite gen_key_initctr_no_iv. simpl.
  unfold wrapped_lines. now rewrite map_map.
Qed.

(** Whatever cipher name is asked for, [VaultLib.encrypt] writes AES256. *)
Lemma VaultLib_encrypt_eq (password salt data : bytes) (cipher_name : option bytes) :
  is_encrypted data = false ->
  VaultLib_encrypt {| b_password := Some password |} salt data cipher_name
  = let* body := VaultAES256_encrypt salt data password in
    Ok (_add_vault_header (B "AES256") (B "1.2") body).
Proof.
  intros Hplain. unfold VaultLib_encrypt. rewrite Hplain.
  assert (Hname :
    match cipher_name with
    | Some n =>
        if bool_decide (n = []) || negb (bool_decide (n ∈ CIPHER_WRITE_WHITELIST))
        then DEFAULT_WRITE_CIPHER else n
    | None => DEFAULT_WRITE_CIPHER
    end = B "AES256").
  { destruct cipher_name as [n|]; [|reflexivity].
    destruct (bool_decide_reflect (n = [])); simpl; [reflexivity|].
    destruct (bool_decide_reflect (n ∈ CIPHER_WRITE_WHITELIST)) as [Hin|Hin];
      simpl; [|reflexivity].
    unfold CIPHER_WRITE_WHITELIST in Hin. now apply list_elem_of_singleton in Hin. }
  rewrite Hname. reflexivity.
Qed.

(** The second half of [VaultAES256.decrypt], after the unpacking. *)
Lemma VaultAES256_decrypt_unpacked (message password version : bytes)
    (salt mac ciphertext key1 key2 : bytes) (iv : N) :
  unpack_message message password version = Ok (salt, mac, ciphertext, (key1, key2, iv)) ->
  VaultAES256_decrypt (Some message) password version =
    if negb (is_equal mac (HMAC_SHA256 key2 ciphertext)) then Ok None
    else
      let plaintext := AES_CTR_decrypt key1 iv ciphertext in
      if bool_decide (version = B "1.1") then
        let* c := Py.last_item plaintext in
        Ok (Some (Py.slice_to plaintext (- Z.of_N (Py.ord c))))
      else Ok (Some plaintext).
Proof. intros H. unfold VaultAES256_decrypt. rewrite H. reflexivity. Qed.

(** The keys of an unpacked message are derived from the password and the
    salt stored in the message. *)
Lemma unpack_message_keys (message password version : bytes)
    (salt mac ciphertext : bytes) (keys : bytes * bytes * N) :
  unpack_message message password version = Ok (salt, mac, ciphertext, keys) ->
  gen_key_initctr password salt (bool_decide (version = B "1.1")) = Ok keys.
Proof.
  unfold unpack_message.
  destruct (bool_decide_reflect (version = B "1.1")) as [_|_].
  - destruct (Binascii.unhexlify _) as [m|]; simpl; [|discriminate].
    destruct (Py.splitn 2 NL m) as [|s [|c [|t [|? ?]]]]; try discriminate.
    destruct (Binascii.unhexlify s) as [s'|]; simpl; [|discriminate].
    destruct (Binascii.unhexlify c) as [c'|]; simpl; [|discriminate].
    destruct (Binascii.unhexlify t) as [t'|]; simpl; [|discriminate].
    destruct (gen_key_initctr password s' true) as [k|] eqn:Hk; simpl; [|discriminate].
    intros E. injection E as <- _ _ <-. exact Hk.
  - destruct (b64decode _) as [m|]; [|discriminate].
    rewrite gen_key_initctr_no_iv. simpl. intros E. injection E as <- _ _ <-.
    reflexivity.
Qed.

(** [VaultLib.decrypt] on a parsed AES256 vault. *)
Lemma VaultLib_decrypt_AES256 (password data : bytes)
    (b_vault_version b_cipher_version : bytes) (body : option bytes) :
  _parse_vault_header data = Ok (b_vault_version, B "AES256", b_cipher_version, body) ->
  VaultLib_decrypt {| b_password := Some password |} data =
    let* b_plaintext := VaultAES256_decrypt body password b_cipher_version in
    match b_plaintext with
    | None => Raise (AnsibleError DecryptionFailed)
    | Some b_plaintext => Ok (b_vault_version, B "AES256", b_cipher_version, b_plaintext)
    end.
Proof. intros H. unfold VaultLib_decrypt. simpl. rewrite H. reflexivity. Qed.

End Vault.

(** ** Encryption and decryption with AES256

    The facts of the libraries the proofs rest on: an HMAC-SHA256 digest has
    32 bytes; AES in counter mode decrypts what it encrypted under the same
    key and counter; base64 decodes what it encoded, and encodes without
    newlines. *)

Section VaultAES256.
Context {L : CryptoLib}.

Hypothesis HMAC_digest_size : forall key msg, length (HMAC_SHA256 key msg) = 32.
Hypothesis AES_CTR_inverse :
  forall key iv data, AES_CTR_decrypt key iv (AES_CTR_encrypt key iv data) = data.
Hypothesis b64_inverse : forall s, b64decode (b64encode s) = Some s.
Hypothesis b64_no_newline : forall s, NL ∉ b64encode s.

Lemma slices_of_message (salt mac ciphertext : bytes) :
  length salt = 32 -> length mac = 32 ->
  let message := salt ++ mac ++ ciphertext in
  Py.slice message 0 32 = salt /\ Py.slice message 32 64 = mac /\ drop 64 message = ciphertext.
Proof.
  intros Hs Hm. cbv zeta. unfold Py.slice. simpl. repeat split.
  - now apply take_app_length'.
  - rewrite (drop_app_length' salt _ 32) by congruence. now apply take_app_length'.
  - rewrite app_assoc. apply drop_app_length'. rewrite length_app. lia.
Qed.

Lemma unpack_wrapped_message (salt mac ciphertext password version : bytes) :
  version <> B "1.1" -> length salt = 32 -> length mac = 32 ->
  let message := b64encode (salt ++ mac ++ ciphertext) in
  unpack_message (concat (map (fun line => line ++ [NL]) (wrapped_lines message)))
                 password version
  = Ok (salt, mac, ciphertext,
        (Py.slice (PBKDF2 password salt 64) 0 32,
         Py.slice (PBKDF2 password salt 64) 32 64, 0%N)).
Proof.
  intros Hv Hs Hm. cbv zeta. unfold unpack_message.
  rewrite remove_lines by (rewrite wrapped_lines_concat; apply b64_no_newline).
  rewrite wrapped_lines_concat, b64_inverse.
  rewrite bool_decide_false by assumption.
  destruct (slices_of_message salt mac ciphertext Hs Hm) as (-> & -> & ->).
  rewrite gen_key_initctr_no_iv. reflexivity.
Qed.

(** [VaultLib.encrypt] raises exactly on data that is armoured already. *)
Lemma VaultLib_encrypt_succeeds (password salt data : bytes) (cipher_name : option bytes) :
  is_encrypted data = false <->
  exists blob,
    VaultLib_encrypt {| b_password := Some password |} salt data cipher_name = Ok blob.
Proof.
  split.
  - intros H. rewrite (VaultLib_encrypt_eq _ _ _ _ H), VaultAES256_encrypt_eq.
    eexists. reflexivity.
  - intros [blob H]. unfold VaultLib_encrypt in H.
    destruct (is_encrypted data); [discriminate | reflexivity].
Qed.

(** C1 (amended): for every plaintext P that does not start with the magic
    $ANSIBLE_VAULT, every passphrase Q and every salt of 32 bytes, encrypt
    returns an armoured blob, and decrypt with the same passphrase returns
    exactly P, with container version 1.2, cipher name AES256 and cipher
    version 1.2. *)
Theorem encrypt_then_decrypt (P Q salt : bytes) (cipher_name : option bytes) :
  is_encrypted P = false ->
  length salt = 32 ->
  exists blob,
    VaultLib_encrypt {| b_password := Some Q |} salt P cipher_name = Ok blob
    /\ VaultLib_decrypt {| b_password := Some Q |} blob
       = Ok (B "1.2", B "AES256", B "1.2", P).
Proof.
  intros Hplain Hsalt.
  rewrite (VaultLib_encrypt_eq _ _ _ _ Hplain), VaultAES256_encrypt_eq.
  cbv zeta. simpl. eexists. split; [reflexivity|].
  rewrite (VaultLib_decrypt_AES256 _ _ _ _ _ (parse_own_header _)).
  erewrite VaultAES256_decrypt_unpacked;
    [| apply unpack_wrapped_message;
       [discriminate | assumption | apply HMAC_digest_size]].
  rewrite is_equal_refl. cbn [negb].
  rewrite bool_decide_false by discriminate. cbv zeta.
  rewrite AES_CTR_inverse. reflexivity.
Qed.

(** C4: whatever the plaintext and the passphrase, the blob that encrypt
    emits is the header line $ANSIBLE_VAULT;1.2;AES256;1.2 (four fields,
    container version 1.2) and a newline, followed by the base64 text of
    salt(32) || mac(32) || ciphertext cut into lines of 1 to 80 characters,
    every line followed by a newline; the body, without its newlines,
    base64-decodes to at least 64 bytes. *)
Theorem encrypt_output_format (password salt data : bytes) (cipher_name : option bytes)
    (blob : bytes) :
  length salt = 32 ->
  VaultLib_encrypt {| b_password := Some password |} salt data cipher_name = Ok blob ->
  let derivedkey := PBKDF2 password salt 64 in
  let ciphertext := AES_CTR_encrypt (Py.slice derivedkey 0 32) 0 data in
  let mac := HMAC_SHA256 (Py.slice derivedkey 32 64) ciphertext in
  let lines := wrapped_lines (b64encode (salt ++ mac ++ ciphertext)) in
  let body := concat (map (fun line => line ++ [NL]) lines) in
  length mac = 32
  /\ blob = B "$ANSIBLE_VAULT;1.2;AES256;1.2" ++ [NL] ++ body
  /\ header_fields blob = [B "$ANSIBLE_VAULT"; B "1.2"; B "AES256"; B "1.2"]
  /\ concat lines = b64encode (salt ++ mac ++ ciphertext)
  /\ Forall (fun line => 1 <= length line <= 80) lines
  /\ b64decode (Py.remove NL body) = Some (salt ++ mac ++ ciphertext)
  /\ 64 <= length (salt ++ mac ++ ciphertext).
Proof.
  intros Hsalt Henc. cbv zeta.
  assert (Hplain : is_encrypted data = false)
    by (apply (VaultLib_encrypt_succeeds password salt data cipher_name); eauto).
  rewrite (VaultLib_encrypt_eq _ _ _ _ Hplain), VaultAES256_encrypt_eq in Henc.
  cbv zeta in Henc. simpl in Henc. injection Henc as <-.
  refine (conj _ (conj _ (conj _ (conj _ (conj _ (conj _ _)))))).
  - apply HMAC_digest_size.
  - reflexivity.
  - apply header_fields_own_header.
  - apply wrapped_lines_concat.
  - apply wrapped_lines_width.
  - rewrite remove_lines by (rewrite wrapped_lines_concat; apply b64_no_newline).
    now rewrite wrapped_lines_concat, b64_inverse.
  - rewrite !length_app, Hsalt, HMAC_digest_size. lia.
Qed.

(** C2: on an AES256 vault whose stored mac is not the HMAC-SHA256 of the
    ciphertext under the mac key derived from the passphrase and the stored
    salt, the cipher returns None before any decryption and VaultLib.decrypt
    raises "Decryption failed": no plaintext comes out. *)
Theorem mac_mismatch_fails (password data : bytes)
    (b_vault_version b_cipher_version body : bytes)
    (salt mac ciphertext key1 key2 : bytes) (iv : N) :
  _parse_vault_header data
    = Ok (b_vault_version, B "AES256", b_cipher_version, Some body) ->
  unpack_message body password b_cipher_version
    = Ok (salt, mac, ciphertext, (key1, key2, iv)) ->
  mac <> HMAC_SHA256 key2 ciphertext ->
  gen_key_initctr password salt (bool_decide (b_cipher_version = B "1.1"))
    = Ok (key1, key2, iv)
  /\ VaultAES256_decrypt (Some body) password b_cipher_version = Ok None
  /\ VaultLib_decrypt {| b_password := Some password |} data
     = Raise (AnsibleError DecryptionFailed).
Proof.
  intros Hparse Hunpack Hmac.
  assert (Hdec : VaultAES256_decrypt (Some body) password b_cipher_version = Ok None).
  { rewrite (VaultAES256_decrypt_unpacked _ _ _ _ _ _ _ _ _ Hunpack).
    now rewrite (is_equal_false_of_neq _ _ Hmac). }
  repeat split.
  - exact (unpack_message_keys _ _ _ _ _ _ _ Hunpack).
  - exact Hdec.
  - rewrite (VaultLib_decrypt_AES256 _ _ _ _ _ Hparse), Hdec. reflexivity.
Qed.

(** C9: on an AES256 vault read by the base64 rules (any cipher version but
    1.1) whose body decodes to fewer than 64 bytes, the split into salt, mac
    and ciphertext raises nothing, the mac has fewer than 32 bytes, is_equal
    answers False against the 32-byte digest, and VaultLib.decrypt raises
    "Decryption failed". *)
Theorem short_body_fails (password data : bytes)
    (b_vault_version b_cipher_version body message : bytes) :
  _parse_vault_header data
    = Ok (b_vault_version, B "AES256", b_cipher_version, Some body) ->
  b_cipher_version <> B "1.1" ->
  b64decode (Py.remove NL body) = Some message ->
  length message < 64 ->
  exists keys,
    unpack_message body password b_cipher_version
      = Ok (Py.slice message 0 32, Py.slice message 32 64, drop 64 message, keys)
    /\ length (Py.slice message 32 64) < 32
    /\ is_equal (Py.slice message 32 64) (HMAC_SHA256 keys.1.2 (drop 64 message)) = false
    /\ VaultLib_decrypt {| b_password := Some password |} data
       = Raise (AnsibleError DecryptionFailed).
Proof.
  intros Hparse Hv Hdecode Hshort.
  assert (Hunpack :
    unpack_message body password b_cipher_version
    = Ok (Py.slice message 0 32, Py.slice message 32 64, drop 64 message,
          (Py.slice (PBKDF2 password (Py.slice message 0 32) 64) 0 32,
           Py.slice (PBKDF2 password (Py.slice message 0 32) 64) 32 64, 0%N))).
  { unfold unpack_message. rewrite bool_decide_false by assumption.
    rewrite Hdecode, gen_key_initctr_no_iv. reflexivity. }
  assert (Hmac : length (Py.slice message 32 64) < 32).
  { unfold Py.slice. rewrite length_take, length_drop. lia. }
  eexists. split; [exact Hunpack|]. split; [exact Hmac|]. simpl.
  assert (Hneq : is_equal (Py.slice message 32 64)
                   (HMAC_SHA256 (Py.slice (PBKDF2 password (Py.slice message 0 32) 64) 32 64)
                                (drop 64 message)) = false).
  { apply is_equal_false_of_length. rewrite HMAC_digest_size. lia. }
  split; [exact Hneq|].
  rewrite (VaultLib_decrypt_AES256 _ _ _ _ _ Hparse).
  rewrite (VaultAES256_decrypt_unpacked _ _ _ _ _ _ _ _ _ Hunpack), Hneq.
  reflexivity.
Qed.

End VaultAES256.

(** ** The padding of cipher version 1.1 *)

Section Padding.
Context {L : CryptoLib}.

Lemma slice_to_negative (s : bytes) (n : N) :
  (1 <= n)%N -> Py.slice_to s (- Z.of_N n) = take (length s - N.to_nat n) s.
Proof.
  intros Hn. unfold Py.slice_to.
  destruct (Z.ltb_spec (- Z.of_N n) 0) as [_|H]; [|lia].
  f_equal. lia.
Qed.

(** With cipher version 1.1, a mac that verifies and a last plaintext byte
    of value n between 1 and the length of the plaintext, exactly the last n
    bytes are dropped, whatever they are. *)
Lemma padding_dropped (message password : bytes)
    (salt mac ciphertext key1 key2 : bytes) (iv : N) (c : byte) :
  unpack_message message password (B "1.1") = Ok (salt, mac, ciphertext, (key1, key2, iv)) ->
  mac = HMAC_SHA256 key2 ciphertext ->
  let plaintext := AES_CTR_decrypt key1 iv ciphertext in
  last plaintext = Some c ->
  (1 <= Py.ord c)%N ->
  VaultAES256_decrypt (Some message) password (B "1.1")
  = Ok (Some (take (length plaintext - N.to_nat (Py.ord c)) plaintext)).
Proof.
  intros Hunpack -> plaintext Hlast Hn.
  rewrite (VaultAES256_decrypt_unpacked _ _ _ _ _ _ _ _ _ Hunpack), is_equal_refl.
  cbn [negb]. rewrite bool_decide_true by reflexivity. cbv zeta.
  fold plaintext. unfold Py.last_item. rewrite Hlast. simpl.
  now rewrite slice_to_negative.
Qed.

(** With any other cipher version the decrypted plaintext comes back as it is. *)
Lemma no_padding_dropped (message password version : bytes)
    (salt mac ciphertext key1 key2 : bytes) (iv : N) :
  version <> B "1.1" ->
  unpack_message message password version = Ok (salt, mac, ciphertext, (key1, key2, iv)) ->
  mac = HMAC_SHA256 key2 ciphertext ->
  VaultAES256_decrypt (Some message) password version
  = Ok (Some (AES_CTR_decrypt key1 iv ciphertext)).
Proof.
  intros Hv Hunpack ->.
  rewrite (VaultAES256_decrypt_unpacked _ _ _ _ _ _ _ _ _ Hunpack), is_equal_refl.
  cbn [negb]. now rewrite bool_decide_false by assumption.
Qed.

(** C6, where the code departs from it: with cipher version 1.1 and a mac
    that verifies, a plaintext whose last byte has value 0 loses all its
    bytes, not its last 0 bytes: [plaintext[:-0]] is [plaintext[:0]]. *)
Theorem zero_padding_drops_everything (message password : bytes)
    (salt mac ciphertext key1 key2 : bytes) (iv : N) :
  unpack_message message password (B "1.1") = Ok (salt, mac, ciphertext, (key1, key2, iv)) ->
  mac = HMAC_SHA256 key2 ciphertext ->
  let plaintext := AES_CTR_decrypt key1 iv ciphertext in
  last plaintext = Some x00 ->
  VaultAES256_decrypt (Some message) password (B "1.1") = Ok (Some [])
  /\ take (length plaintext - N.to_nat (Py.ord x00)) plaintext = plaintext
  /\ plaintext <> [].
Proof.
  intros Hunpack -> plaintext Hlast.
  rewrite (VaultAES256_decrypt_unpacked _ _ _ _ _ _ _ _ _ Hunpack), is_equal_refl.
  cbn [negb]. rewrite bool_decide_true by reflexivity. cbv zeta.
  fold plaintext. unfold Py.last_item. rewrite Hlast. simpl.
  split; [reflexivity|]. split.
  - rewrite Nat.sub_0_r. apply firstn_all.
  - intros E. rewrite E in Hlast. discriminate.
Qed.

End Padding.

(** ** The overwrite passes of the custom shred *)

Lemma written_seek (fh : Os.file_handle) : written (Os.seek 0 fh) [].
Proof. split; reflexivity. Qed.

Lemma written_write (fh : Os.file_handle) (w data : bytes) :
  written fh w -> written (Os.write data fh) (w ++ data).
Proof.
  intros [Hpos Hbuf]. unfold written, Os.write. simpl.
  assert (Hle : Os.fh_pos fh <= length (Os.fh_buf fh)).
  { apply (f_equal length) in Hbuf. rewrite length_take in Hbuf. lia. }
  replace (Os.fh_pos fh - length (Os.fh_buf fh)) with 0 by lia. simpl.
  rewrite Hbuf, length_app. split; [lia|].
  rewrite app_assoc. apply take_app_length'. rewrite length_app. lia.
Qed.

Lemma written_iter (n : nat) (fh : Os.file_handle) (w data : bytes) :
  written fh w ->
  written (Nat.iter n (Os.write data) fh) (w ++ concat (repeat data n)).
Proof.
  intros H. induction n as [|n IH].
  - simpl. now rewrite app_nil_r.
  - cbn [Nat.iter]. apply (written_write _ _ data) in IH.
    replace (w ++ concat (repeat data (S n)))
      with ((w ++ concat (repeat data n)) ++ data); [exact IH|].
    rewrite <- app_assoc. f_equal.
    change (repeat data (S n)) with (data :: repeat data n).
    rewrite repeat_cons, concat_app. simpl. now rewrite app_nil_r.
Qed.

Lemma length_concat_repeat (data : bytes) (n : nat) :
  length (concat (repeat data n)) = n * length data.
Proof.
  induction n as [|n IH]; [reflexivity|].
  simpl. rewrite length_app, IH. lia.
Qed.

Lemma overwrite_pass_ok (file_len chunk_len : nat) (data : bytes)
    (fh : Os.file_handle) :
  0 < file_len ->
  1 <= chunk_len <= file_len ->
  length data = chunk_len ->
  let chunks := concat (repeat data (file_len / chunk_len)) in
  let tail := take (file_len mod chunk_len) data in
  exists fh',
    overwrite_pass file_len chunk_len data fh = (Ok tt, fh')
    /\ Os.tell fh' = file_len
    /\ take file_len (Os.fh_buf fh') = chunks ++ tail
    /\ length chunks = file_len / chunk_len * chunk_len
    /\ length tail = file_len mod chunk_len
    /\ length (chunks ++ tail) = file_len.
Proof.
  intros HL Hc Hdata chunks tail.
  assert (Hchunks : length chunks = file_len / chunk_len * chunk_len).
  { unfold chunks. now rewrite length_concat_repeat, Hdata. }
  assert (Htail : length tail = file_len mod chunk_len).
  { unfold tail. rewrite length_take.
    pose proof (Nat.mod_upper_bound file_len chunk_len). lia. }
  assert (Hall : length (chunks ++ tail) = file_len).
  { rewrite length_app, Hchunks, Htail.
    pose proof (Nat.div_mod_eq file_len chunk_len). lia. }
  pose proof (written_write _ _ tail
                (written_iter (file_len / chunk_len) _ _ data (written_seek fh)))
    as [Hpos Hbuf].
  change ([] ++ concat (repeat data (file_len / chunk_len))) with chunks in Hpos, Hbuf.
  rewrite Hall in Hpos. rewrite Hpos in Hbuf.
  unfold overwrite_pass.
  destruct (Nat.eqb_spec chunk_len 0) as [E|_]; [lia|].
  fold tail. unfold Os.tell. rewrite Hpos, Nat.eqb_refl. simpl.
  eexists. split; [reflexivity|]. auto.
Qed.

(** C10: in one overwrite pass on a file of length L > 0 with a chunk of
    length c, 1 <= c <= L, the pass writes floor(L/c) whole chunks and then
    the first L mod c bytes of the chunk, which are L bytes in all; the
    position is then L, so the assertion holds and the pass raises nothing. *)
Theorem overwrite_pass_writes_file_len (file_len chunk_len : nat) (data : bytes)
    (fh : Os.file_handle) :
  0 < file_len ->
  1 <= chunk_len <= file_len ->
  length data = chunk_len ->
  let chunks := concat (repeat data (file_len / chunk_len)) in
  let tail := take (file_len mod chunk_len) data in
  exists fh',
    overwrite_pass file_len chunk_len data fh = (Ok tt, fh')
    /\ Os.tell fh' = file_len
    /\ take file_len (Os.fh_buf fh') = chunks ++ tail
    /\ length chunks = file_len / chunk_len * chunk_len
    /\ length tail = file_len mod chunk_len
    /\ length (chunks ++ tail) = file_len.
Proof. exact (overwrite_pass_ok file_len chunk_len data fh). Qed.

Lemma overwrite_pass_writes_file_len_witness :
  exists fh',
    overwrite_pass 7 3 (B "xyz") (Os.mk_fh 5 (B "secret!")) = (Ok tt, fh')
    /\ Os.tell fh' = 7
    /\ Os.fh_buf fh' = B "xyzxyzx".
Proof.
  destruct (overwrite_pass_writes_file_len 7 3 (B "xyz") (Os.mk_fh 5 (B "secret!")))
    as (fh' & Hpass & Htell & Hbuf & _); [lia | lia | reflexivity |].
  exists fh'. split; [exact Hpass|]. split; [exact Htell|].
  vm_compute in Hpass. injection Hpass as <-. reflexivity.
Defined.

(** On a file of two bytes or more every chunk length drawn is at least 1,
    so the passes of [_shred_file_custom] all end with the position at the
    length of the file. *)
Lemma shred_passes_ok (passes file_len : nat) (fh : Os.file_handle) (w : world) :
  2 <= file_len -> 0 < passes ->
  exists fh' w',
    shred_passes passes file_len (Nat.min MAX_CHUNK_LEN file_len) fh w = (Ok tt, fh', w')
    /\ Os.tell fh' = file_len.
Proof.
  intros HL. revert fh w.
  assert (Hmax : 2 <= Nat.min MAX_CHUNK_LEN file_len <= file_len)
    by (unfold MAX_CHUNK_LEN; lia).
  set (max_chunk_len := Nat.min MAX_CHUNK_LEN file_len) in *.
  induction passes as [|passes IH]; intros fh w Hp; [lia|].
  cbn [shred_passes]. unfold Os.randint, Os.urandom. cbn [fst snd].
  set (chunk_len := max_chunk_len / 2 + _ mod _).
  assert (Hc : 1 <= chunk_len <= file_len).
  { unfold chunk_len.
    pose proof (Nat.mod_upper_bound
                  (w_rand_nat w (w_rand_pos w))
                  (max_chunk_len - max_chunk_len / 2 + 1)).
    pose proof (Nat.div_mod_eq max_chunk_len 2).
    pose proof (Nat.mod_upper_bound max_chunk_len 2). lia. }
  match goal with
  | |- context [overwrite_pass file_len chunk_len ?d fh] => set (data := d)
  end.
  assert (Hd : length data = chunk_len)
    by (unfold data; now rewrite length_map, length_seq).
  destruct (overwrite_pass_ok file_len chunk_len data fh) as (fh' & -> & Htell & _);
    [lia | exact Hc | exact Hd |].
  destruct passes as [|passes'].
  - simpl. eauto.
  - apply IH. lia.
Qed.

(** ** The editor: rekey_file *)

Lemma io_bind_ok {A C} (m : io A) (k : A -> io C) (w w' : world) (c : C) :
  io_bind m k w = (Ok c, w') ->
  exists a w1, m w = (Ok a, w1) /\ k a w1 = (Ok c, w').
Proof.
  unfold io_bind. destruct (m w) as [[a|e] w1]; [eauto | discriminate].
Qed.

Lemma stat_ok (path : string) (w w' : world) (st : stat_result) :
  Os.stat path w = (Ok st, w') ->
  w' = w /\ exists f,
    w_fs w !! path = Some f
    /\ st = mk_stat (N.lor Os.S_IFREG (N.land (f_mode f) Os.S_IALLUGO))
                    (f_uid f) (f_gid f) (length (f_data f)).
Proof.
  unfold Os.stat. destruct (w_fs w !! path) as [f|]; [|discriminate].
  intros E. injection E as <- <-. eauto.
Qed.

Lemma chmod_ok (path : string) (mode : N) (w w' : world) :
  Os.chmod path mode w = (Ok tt, w') ->
  exists f,
    w_fs w !! path = Some f
    /\ w_fs w' = <[path := mk_file (N.land mode Os.S_IALLUGO) (f_uid f) (f_gid f) (f_data f)]>
                   (w_fs w).
Proof.
  unfold Os.chmod. destruct (w_fs w !! path) as [f|]; [|discriminate].
  intros E. injection E as <-. eauto.
Qed.

Lemma chown_ok (path : string) (uid gid : N) (w w' : world) :
  Os.chown path uid gid w = (Ok tt, w') ->
  exists f,
    w_fs w !! path = Some f
    /\ w_fs w' = <[path := mk_file (f_mode f) uid gid (f_data f)]> (w_fs w).
Proof.
  unfold Os.chown. destruct (w_fs w !! path) as [f|]; [|discriminate].
  intros E. injection E as <-. eauto.
Qed.

(** The permission bits of a mode that [os.stat] returned are the bits it
    was computed from. *)
Lemma stat_mode_bits (m : N) :
  N.lor Os.S_IFREG
        (N.land (N.land (N.lor Os.S_IFREG (N.land m Os.S_IALLUGO)) Os.S_IALLUGO)
                Os.S_IALLUGO)
  = N.lor Os.S_IFREG (N.land m Os.S_IALLUGO).
Proof.
  rewrite N.land_lor_distr_l.
  change (N.land Os.S_IFREG Os.S_IALLUGO) with 0%N. rewrite N.lor_0_l.
  now rewrite <- !N.land_assoc, !N.land_diag.
Qed.

Lemma same_elsewhere_refl (path : string) (w : world) : same_elsewhere path w w.
Proof. intros other _. reflexivity. Qed.

Lemma same_elsewhere_trans (path : string) (w1 w2 w3 : world) :
  same_elsewhere path w1 w2 -> same_elsewhere path w2 w3 -> same_elsewhere path w1 w3.
Proof. intros H12 H23 other Hne. now rewrite (H23 other Hne), (H12 other Hne). Qed.

Lemma same_elsewhere_fs (path : string) (w w' : world) :
  w_fs w' = w_fs w -> same_elsewhere path w w'.
Proof. intros E other _. now rewrite E. Qed.

Lemma same_elsewhere_insert (path : string) (f : file) (w : world) :
  same_elsewhere path w (set_fs (<[path := f]> (w_fs w)) w).
Proof. intros other Hne. simpl. now rewrite lookup_insert_ne. Qed.

Lemma same_elsewhere_delete (path : string) (w : world) :
  same_elsewhere path w (set_fs (delete path (w_fs w)) w).
Proof. intros other Hne. simpl. now rewrite lookup_delete_ne. Qed.

Create HintDb frame discriminated.

#[local] Hint Resolve same_elsewhere_refl same_elsewhere_insert same_elsewhere_delete
  : frame.

Lemma touches_only_ret {A} (path : string) (a : A) : touches_only path (ret a).
Proof. intros w. simpl. auto with frame. Qed.

Lemma touches_only_raise {A} (path : string) (e : exn) : touches_only path (@raise A e).
Proof. intros w. simpl. auto with frame. Qed.

Lemma touches_only_lift {A} (path : string) (r : result A) : touches_only path (lift r).
Proof. intros w. simpl. auto with frame. Qed.

Lemma touches_only_bind {A C} (path : string) (m : io A) (k : A -> io C) :
  touches_only path m -> (forall a, touches_only path (k a)) ->
  touches_only path (io_bind m k).
Proof.
  intros Hm Hk w. unfold io_bind. specialize (Hm w).
  destruct (m w) as [[a|e] w1]; simpl in *; [|exact Hm].
  exact (same_elsewhere_trans _ _ _ _ Hm (Hk a w1)).
Qed.

Lemma touches_only_try_except {A} (path : string) (m : io A) (handler : exn -> io A) :
  touches_only path m -> (forall e, touches_only path (handler e)) ->
  touches_only path (try_except m handler).
Proof.
  intros Hm Hh w. unfold try_except. specialize (Hm w).
  destruct (m w) as [[a|e] w1]; simpl in *; [exact Hm|].
  exact (same_elsewhere_trans _ _ _ _ Hm (Hh e w1)).
Qed.

(** The calls of [os] on a path touch that path only. *)
Ltac os_call f :=
  let w := fresh "w" in
  intros w; unfold f; simpl;
  repeat match goal with
         | |- context [match ?x with _ => _ end] => destruct x; simpl
         end;
  auto with frame.

Lemma touches_only_isfile (path p : string) : touches_only path (Os.path_isfile p).
Proof. os_call Os.path_isfile. Qed.

Lemma touches_only_stat (path p : string) : touches_only path (Os.stat p).
Proof. os_call Os.stat. Qed.

Lemma touches_only_remove (path : string) : touches_only path (Os.remove path).
Proof. os_call Os.remove. Qed.

Lemma touches_only_chmod (path : string) (mode : N) : touches_only path (Os.chmod path mode).
Proof. os_call Os.chmod. Qed.

Lemma touches_only_chown (path : string) (uid gid : N) :
  touches_only path (Os.chown path uid gid).
Proof. os_call Os.chown. Qed.

Lemma touches_only_call_shred (path : string) : touches_only path (Os.call_shred path).
Proof. os_call Os.call_shred. Qed.

Lemma touches_only_open_wb (path : string) : touches_only path (Os.open_wb path).
Proof. os_call Os.open_wb. Qed.

Lemma touches_only_close (path : string) (fh : Os.file_handle) :
  touches_only path (Os.close path fh).
Proof. os_call Os.close. Qed.

#[local] Hint Resolve touches_only_ret touches_only_raise touches_only_lift
  touches_only_isfile touches_only_stat touches_only_remove touches_only_chmod
  touches_only_chown touches_only_call_shred touches_only_open_wb touches_only_close
  : frame.

Lemma shred_passes_fs (passes file_len max_chunk_len : nat) (fh : Os.file_handle)
    (w : world) :
  w_fs (shred_passes passes file_len max_chunk_len fh w).2 = w_fs w.
Proof.
  revert fh w. induction passes as [|passes IH]; intros fh w; [reflexivity|].
  cbn [shred_passes]. unfold Os.randint, Os.urandom.
  destruct (overwrite_pass _ _ _ fh) as [[[]|e] fh']; [|reflexivity].
  now rewrite IH.
Qed.

Lemma touches_only_shred_file_custom (path : string) :
  touches_only path (_shred_file_custom path).
Proof.
  unfold _shred_file_custom, Os.path_getsize.
  apply touches_only_bind; [apply touches_only_bind; auto with frame|].
  intros file_len. destruct (0 <? file_len); [|auto with frame].
  apply touches_only_bind; [auto with frame|].
  intros fh w.
  pose proof (shred_passes_fs 3 file_len (Nat.min MAX_CHUNK_LEN file_len) fh w) as Hfs.
  destruct (shred_passes _ _ _ fh w) as [[r fh'] w1]. simpl in Hfs.
  pose proof (touches_only_close path fh' w1) as Hclose.
  destruct (Os.close path fh' w1) as [r' w2]. simpl in *.
  exact (same_elsewhere_trans _ _ _ _ (same_elsewhere_fs _ _ _ Hfs) Hclose).
Qed.

Lemma touches_only_shred_file (path : string) : touches_only path (_shred_file path).
Proof.
  unfold _shred_file.
  apply touches_only_bind; [auto with frame|].
  intros [|]; simpl; [|auto with frame].
  apply touches_only_bind.
  - apply touches_only_try_except; [auto with frame|].
    intros []; auto with frame.
  - intros r. apply touches_only_bind; [|auto with frame].
    destruct (negb _); auto using touches_only_shred_file_custom with frame.
Qed.

Lemma touches_only_read_data (path filename : string) :
  touches_only path (read_data filename).
Proof.
  unfold read_data. apply touches_only_try_except; [|auto with frame].
  destruct (bool_decide _); intros w; simpl; [intros other _; reflexivity|].
  destruct (w_fs w !! filename); simpl; auto with frame.
Qed.

Lemma touches_only_write_data (data : bytes) (path : string) (shred : bool) :
  touches_only path (write_data data path shred).
Proof.
  unfold write_data. destruct (bool_decide _).
  - intros w other _. reflexivity.
  - apply touches_only_bind; [auto with frame|]. intros isfile.
    apply touches_only_bind.
    + destruct isfile, shred; auto using touches_only_shred_file with frame.
    + intros _. apply touches_only_bind; auto with frame.
Qed.

Section Rekey.
Context {L : CryptoLib}.

Lemma touches_only_vault_encrypt (path : string) (v : VaultLib) (data : bytes)
    (cipher_name : option bytes) :
  touches_only path (vault_encrypt v data cipher_name).
Proof.
  intros w. unfold vault_encrypt, Os.urandom.
  destruct (VaultLib_encrypt _ _ _ _); simpl; auto with frame.
  intros other _. reflexivity.
Qed.

(** [rekey_file] leaves every file but the one it is given as it is. *)
Lemma touches_only_rekey_file (self : VaultEditor) (filename : string)
    (new_password : bytes) :
  touches_only filename (rekey_file self filename new_password).
Proof.
  unfold rekey_file.
  apply touches_only_bind; [auto with frame|]. intros prev.
  apply touches_only_bind; [apply touches_only_read_data|]. intros ciphertext.
  apply touches_only_bind; [auto with frame|]. intros [[[? ?] ?] plaintext].
  apply touches_only_bind; [apply touches_only_vault_encrypt|]. intros new_ciphertext.
  apply touches_only_bind; [apply touches_only_write_data|]. intros _.
  apply touches_only_bind; auto with frame.
Qed.

(** The last two calls of [rekey_file] run in the world the rest left. *)
Lemma rekey_file_ok (self : VaultEditor) (filename : string) (new_password : bytes)
    (w w' : world) :
  rekey_file self filename new_password w = (Ok tt, w') ->
  exists prev w1 w2,
    Os.stat filename w = (Ok prev, w)
    /\ Os.chmod filename (st_mode prev) w1 = (Ok tt, w2)
    /\ Os.chown filename (st_uid prev) (st_gid prev) w2 = (Ok tt, w').
Proof.
  unfold rekey_file. intros H.
  apply io_bind_ok in H as (prev & w0 & Hstat & H).
  destruct (stat_ok _ _ _ _ Hstat) as [-> _].
  apply io_bind_ok in H as (ciphertext & wa & _ & H).
  apply io_bind_ok in H as ([[[? ?] ?] plaintext] & wb & _ & H).
  apply io_bind_ok in H as (new_ciphertext & wc & _ & H).
  apply io_bind_ok in H as ([] & wd & _ & H).
  apply io_bind_ok in H as ([] & we & Hchmod & Hchown).
  eauto 10.
Qed.

(** C8: when rekey_file returns without raising, the mode, the owner uid
    and the group gid that os.stat reports for the file are the ones it
    reported before the file was overwritten, and every other file is as it
    was. *)
Theorem rekey_file_preserves_mode_and_owner (self : VaultEditor) (filename : string)
    (new_password : bytes) (w w' : world) :
  rekey_file self filename new_password w = (Ok tt, w') ->
  (exists prev after,
     Os.stat filename w = (Ok prev, w)
     /\ Os.stat filename w' = (Ok after, w')
     /\ st_mode after = st_mode prev
     /\ st_uid after = st_uid prev
     /\ st_gid after = st_gid prev)
  /\ same_elsewhere filename w w'.
Proof.
  intros H. split.
  - destruct (rekey_file_ok _ _ _ _ _ H) as (prev & w1 & w2 & Hstat & Hchmod & Hchown).
    destruct (stat_ok _ _ _ _ Hstat) as (_ & f & Hf & ->).
    destruct (chmod_ok _ _ _ _ Hchmod) as (f1 & Hf1 & Hfs2).
    destruct (chown_ok _ _ _ _ _ Hchown) as (f2 & Hf2 & Hfs').
    rewrite Hfs2, lookup_insert_eq in Hf2. injection Hf2 as <-.
    simpl in Hfs'.
    eexists _, _. split; [exact Hstat|].
    unfold Os.stat. rewrite Hfs', lookup_insert_eq. simpl.
    split; [reflexivity|]. simpl. split; [apply stat_mode_bits | split; reflexivity].
  - pose proof (touches_only_rekey_file self filename new_password w) as Hframe.
    now rewrite H in Hframe.
Qed.

End Rekey.

(** ** The executable library satisfies the facts assumed of the real one *)

Lemma byte_of_to_N (c : byte) : Binascii.byte_of_N (Byte.to_N c) = c.
Proof. unfold Binascii.byte_of_N. now rewrite Byte.of_to_N. Qed.

Lemma to_N_byte_of_N (n : N) : (n <= 255)%N -> Byte.to_N (Binascii.byte_of_N n) = n.
Proof.
  intros H. unfold Binascii.byte_of_N.
  pose proof (Byte.to_of_N_option_map n) as E.
  apply N.leb_le in H. rewrite H in E.
  destruct (Byte.of_N n); simpl in E; [now injection E | discriminate].
Qed.

Lemma byte_of_N_eq (n : N) (c : byte) : n = Byte.to_N c -> Binascii.byte_of_N n = c.
Proof. intros ->. apply byte_of_to_N. Qed.

Section Base64Laws.

Local Ltac Zify.zify_post_hook ::= Z.to_euclidean_division_equations.

Lemma sextet_char (n : N) :
  (n < 64)%N -> Base64.val (Base64.char n) = Some n /\ Base64.char n <> Base64.PAD.
Proof.
  intros Hn.
  assert (Hall : forallb (fun k =>
            match Base64.val (Base64.char (N.of_nat k)) with
            | Some m => (m =? N.of_nat k)%N
            | None => false
            end && negb (Byte.eqb (Base64.char (N.of_nat k)) Base64.PAD))
          (seq 0 64) = true) by (vm_compute; reflexivity).
  rewrite forallb_forall in Hall.
  specialize (Hall (N.to_nat n)). rewrite N2Nat.id in Hall.
  assert (Hin : In (N.to_nat n) (seq 0 64)) by (apply in_seq; lia).
  apply Hall, andb_true_iff in Hin. destruct Hin as [Hval Hpad].
  split.
  - destruct (Base64.val (Base64.char n)) as [m|]; [|discriminate].
    apply N.eqb_eq in Hval. now subst.
  - intros E. rewrite E in Hpad. discriminate.
Qed.

Lemma char_not_newline (n : N) : Base64.char n <> NL.
Proof.
  unfold Base64.char.
  destruct (nth_in_or_default (N.to_nat n) Base64.alphabet Base64.PAD) as [Hin| ->];
    [|discriminate].
  assert (Hall : Forall (fun c => c <> NL) Base64.alphabet)
    by (apply (bool_decide_unpack _); vm_compute; exact I).
  rewrite Forall_forall in Hall. apply Hall. now apply list_elem_of_In.
Qed.

Lemma decode_group (v1 v2 v3 v4 : N) (rest : bytes) :
  (v1 < 64)%N -> (v2 < 64)%N -> (v3 < 64)%N -> (v4 < 64)%N ->
  Base64.decode (Base64.char v1 :: Base64.char v2 :: Base64.char v3
                   :: Base64.char v4 :: rest)
  = match Base64.decode rest with
    | Some r =>
        Some (Binascii.byte_of_N (v1 * 4 + v2 / 16)
                :: Binascii.byte_of_N (v2 mod 16 * 16 + v3 / 4)
                :: Binascii.byte_of_N (v3 mod 4 * 64 + v4) :: r)
    | None => None
    end.
Proof.
  intros H1 H2 H3 H4.
  destruct (sextet_char v1 H1) as [E1 _], (sextet_char v2 H2) as [E2 _],
    (sextet_char v3 H3) as [E3 P3], (sextet_char v4 H4) as [E4 P4].
  cbn [Base64.decode]. rewrite E1, E2.
  rewrite (decide_False (P := Base64.char v3 = Base64.PAD)) by assumption.
  rewrite E3.
  rewrite (decide_False (P := Base64.char v4 = Base64.PAD)) by assumption.
  rewrite E4. reflexivity.
Qed.

Lemma decode_group_pad1 (v1 v2 v3 : N) :
  (v1 < 64)%N -> (v2 < 64)%N -> (v3 < 64)%N ->
  Base64.decode [Base64.char v1; Base64.char v2; Base64.char v3; Base64.PAD]
  = Some [Binascii.byte_of_N (v1 * 4 + v2 / 16);
          Binascii.byte_of_N (v2 mod 16 * 16 + v3 / 4)].
Proof.
  intros H1 H2 H3.
  destruct (sextet_char v1 H1) as [E1 _], (sextet_char v2 H2) as [E2 _],
    (sextet_char v3 H3) as [E3 P3].
  cbn [Base64.decode]. rewrite E1, E2.
  rewrite (decide_False (P := Base64.char v3 = Base64.PAD)) by assumption.
  rewrite E3.
  rewrite (decide_True (P := Base64.PAD = Base64.PAD)) by reflexivity.
  reflexivity.
Qed.

Lemma decode_group_pad2 (v1 v2 : N) :
  (v1 < 64)%N -> (v2 < 64)%N ->
  Base64.decode [Base64.char v1; Base64.char v2; Base64.PAD; Base64.PAD]
  = Some [Binascii.byte_of_N (v1 * 4 + v2 / 16)].
Proof.
  intros H1 H2.
  destruct (sextet_char v1 H1) as [E1 _], (sextet_char v2 H2) as [E2 _].
  cbn [Base64.decode]. rewrite E1, E2.
  rewrite !(decide_True (P := Base64.PAD = Base64.PAD)) by reflexivity.
  reflexivity.
Qed.

Lemma base64_decode_encode (s : bytes) : Base64.decode (Base64.encode s) = Some s.
Proof.
  assert (H : forall n s, length s <= n -> Base64.decode (Base64.encode s) = Some s).
  { clear s. induction n as [|n IH]; intros s Hlen.
    - destruct s; [reflexivity | simpl in Hlen; lia].
    - destruct s as [|a [|b [|c s]]]; [reflexivity | | |].
      + pose proof (Byte.to_N_bounded a) as Ha.
        cbn [Base64.encode]. rewrite decode_group_pad2 by lia.
        repeat f_equal; apply byte_of_N_eq; lia.
      + pose proof (Byte.to_N_bounded a) as Ha.
        pose proof (Byte.to_N_bounded b) as Hb.
        cbn [Base64.encode]. rewrite decode_group_pad1 by lia.
        repeat f_equal; apply byte_of_N_eq; lia.
      + pose proof (Byte.to_N_bounded a) as Ha.
        pose proof (Byte.to_N_bounded b) as Hb.
        pose proof (Byte.to_N_bounded c) as Hc.
        cbn [Base64.encode]. rewrite decode_group by lia.
        rewrite IH by (simpl in Hlen; lia).
        repeat f_equal; apply byte_of_N_eq; lia. }
  apply (H (length s)). lia.
Qed.

Lemma base64_no_newline (s : bytes) : NL ∉ Base64.encode s.
Proof.
  assert (H : forall n s, length s <= n -> NL ∉ Base64.encode s).
  { clear s. induction n as [|n IH]; intros s Hlen.
    - destruct s; [apply not_elem_of_nil | simpl in Hlen; lia].
    - destruct s as [|a [|b [|c s]]]; cbn [Base64.encode];
        rewrite ?not_elem_of_cons; repeat split;
        try apply not_elem_of_nil; try (intros E; symmetry in E; revert E);
        try apply char_not_newline; try discriminate.
      apply IH. simpl in Hlen. lia. }
  apply (H (length s)). lia.
Qed.

End Base64Laws.

Lemma example_mac_size (key msg : bytes) : length (Example.mac key msg) = 32.
Proof. unfold Example.mac. apply repeat_length. Qed.

Lemma byte_log2 (c : byte) : (N.log2 (Byte.to_N c) < 8)%N.
Proof.
  pose proof (Byte.to_N_bounded c) as H.
  destruct (N.eq_dec (Byte.to_N c) 0%N) as [E|E]; [rewrite E; reflexivity|].
  apply N.log2_lt_pow2; [lia|]. change (2 ^ 8)%N with 256%N. lia.
Qed.

Lemma lxor_bytes_bounded (a c : byte) : (N.lxor (Byte.to_N a) (Byte.to_N c) <= 255)%N.
Proof.
  set (x := N.lxor (Byte.to_N a) (Byte.to_N c)).
  destruct (N.eq_dec x 0%N) as [E|E]; [rewrite E; discriminate|].
  assert (Hlog : (N.log2 x < 8)%N).
  { pose proof (N.log2_lxor (Byte.to_N a) (Byte.to_N c)) as H.
    pose proof (byte_log2 a). pose proof (byte_log2 c). fold x in H. lia. }
  apply N.log2_lt_pow2 in Hlog; [|lia]. change (2 ^ 8)%N with 256%N in Hlog. lia.
Qed.

Lemma byte_xor_involutive (k c : byte) : Example.byte_xor k (Example.byte_xor k c) = c.
Proof.
  unfold Example.byte_xor. apply byte_of_N_eq.
  rewrite to_N_byte_of_N by apply lxor_bytes_bounded.
  now rewrite <- N.lxor_assoc, N.lxor_nilpotent, N.lxor_0_l.
Qed.

Lemma example_stream_inverse (key : bytes) (iv : N) (data : bytes) :
  Example.stream key iv (Example.stream key iv data) = data.
Proof.
  unfold Example.stream. rewrite map_map.
  induction data as [|c data IH]; [reflexivity|].
  simpl. now rewrite byte_xor_involutive, IH.
Qed.

(** ** The theorems at concrete inputs *)

Lemma encrypt_then_decrypt_witness :
  is_encrypted (B "hello") = false
  /\ length Example.salt = 32
  /\ exists blob,
       VaultLib_encrypt (L := Example.lib) Example.vault_lib Example.salt (B "hello") None
       = Ok blob
       /\ VaultLib_decrypt (L := Example.lib) Example.vault_lib blob
          = Ok (B "1.2", B "AES256", B "1.2", B "hello").
Proof.
  split; [reflexivity|]. split; [reflexivity|].
  apply (encrypt_then_decrypt (L := Example.lib)
           example_mac_size example_stream_inverse
           base64_decode_encode base64_no_newline
           (B "hello") Example.password Example.salt None);
    reflexivity.
Defined.

(** C1, as stated, fails on a plaintext that starts with the magic: encrypt
    refuses it as already encrypted, so there is no armoured output to
    decrypt and nothing returns the plaintext. *)
Lemma armoured_plaintext_is_refused :
  let P := B "$ANSIBLE_VAULT;1.2;AES256;1.2" ++ [NL] ++ B "YWJj" ++ [NL] in
  VaultLib_encrypt (L := Example.lib) Example.vault_lib Example.salt P None
  = Raise (AnsibleError AlreadyEncrypted)
  /\ ~ exists blob,
         VaultLib_encrypt (L := Example.lib) Example.vault_lib Example.salt P None = Ok blob
         /\ VaultLib_decrypt (L := Example.lib) Example.vault_lib blob
            = Ok (B "1.2", B "AES256", B "1.2", P).
Proof.
  split; [reflexivity|].
  intros [blob [H _]]. discriminate H.
Qed.

Lemma encrypt_output_format_witness :
  length Example.salt = 32
  /\ VaultLib_encrypt (L := Example.lib) Example.vault_lib Example.salt (B "hello") None
     = Ok Example.hello_vault
  /\ take 30 Example.hello_vault = B "$ANSIBLE_VAULT;1.2;AES256;1.2" ++ [NL]
  /\ header_fields Example.hello_vault = [B "$ANSIBLE_VAULT"; B "1.2"; B "AES256"; B "1.2"]
  /\ exists decoded,
       Base64.decode (Py.remove NL (drop 30 Example.hello_vault)) = Some decoded
       /\ 64 <= length decoded.
Proof.
  assert (Hsalt : length Example.salt = 32) by reflexivity.
  assert (Henc :
    VaultLib_encrypt (L := Example.lib) Example.vault_lib Example.salt (B "hello") None
    = Ok Example.hello_vault) by reflexivity.
  destruct (encrypt_output_format (L := Example.lib)
              example_mac_size base64_decode_encode base64_no_newline
              Example.password Example.salt (B "hello") None Example.hello_vault
              Hsalt Henc)
    as (_ & Hblob & Hfields & _ & _ & Hdecode & Hlen).
  split; [exact Hsalt|]. split; [exact Henc|].
  split; [rewrite Hblob; reflexivity|]. split; [exact Hfields|].
  eexists. split; [|exact Hlen].
  rewrite Hblob. exact Hdecode.
Defined.

Lemma mac_mismatch_fails_witness :
  _parse_vault_header Example.tampered_vault
    = Ok (B "1.2", B "AES256", B "1.2",
          Some (Base64.encode (Example.salt ++ repeat x00 32 ++ B "xyz") ++ [NL]))
  /\ repeat x00 32
     <> Example.mac (Py.slice (Example.kdf Example.password Example.salt 64) 32 64) (B "xyz")
  /\ VaultLib_decrypt (L := Example.lib) Example.vault_lib Example.tampered_vault
     = Raise (AnsibleError DecryptionFailed).
Proof.
  assert (Hparse :
    _parse_vault_header Example.tampered_vault
    = Ok (B "1.2", B "AES256", B "1.2",
          Some (Base64.encode (Example.salt ++ repeat x00 32 ++ B "xyz") ++ [NL])))
    by (vm_compute; reflexivity).
  assert (Hunpack :
    unpack_message (L := Example.lib)
      (Base64.encode (Example.salt ++ repeat x00 32 ++ B "xyz") ++ [NL])
      Example.password (B "1.2")
    = Ok (Example.salt, repeat x00 32, B "xyz",
          (Py.slice (Example.kdf Example.password Example.salt 64) 0 32,
           Py.slice (Example.kdf Example.password Example.salt 64) 32 64, 0%N)))
    by (vm_compute; reflexivity).
  assert (Hmac :
    repeat x00 32
    <> HMAC_SHA256 (CryptoLib := Example.lib)
         (Py.slice (Example.kdf Example.password Example.salt 64) 32 64) (B "xyz"))
    by (vm_compute; discriminate).
  split; [exact Hparse|]. split; [exact Hmac|].
  exact (proj2 (proj2 (mac_mismatch_fails (L := Example.lib) _ _ _ _ _ _ _ _ _ _ _
                         Hparse Hunpack Hmac))).
Defined.

Lemma short_body_fails_witness :
  Base64.decode (Py.remove NL (Base64.encode (B "short") ++ [NL])) = Some (B "short")
  /\ length (B "short") < 64
  /\ VaultLib_decrypt (L := Example.lib) Example.vault_lib Example.short_vault
     = Raise (AnsibleError DecryptionFailed).
Proof.
  assert (Hparse :
    _parse_vault_header Example.short_vault
    = Ok (B "1.2", B "AES256", B "1.2", Some (Base64.encode (B "short") ++ [NL])))
    by (vm_compute; reflexivity).
  assert (Hv : B "1.2" <> B "1.1") by discriminate.
  assert (Hdecode :
    b64decode (CryptoLib := Example.lib)
      (Py.remove NL (Base64.encode (B "short") ++ [NL])) = Some (B "short"))
    by (vm_compute; reflexivity).
  assert (Hlen : length (B "short") < 64) by (vm_compute; lia).
  destruct (short_body_fails (L := Example.lib) example_mac_size
              Example.password _ _ _ _ _ Hparse Hv Hdecode Hlen)
    as (keys & _ & _ & _ & Hfail).
  split; [exact Hdecode|]. split; [exact Hlen|]. exact Hfail.
Defined.

Lemma zero_padding_drops_everything_witness :
  _parse_vault_header Example.zero_padded_vault
    = Ok (B "1.1", B "AES256", B "1.1",
          Some (Example.legacy_body Example.password Example.salt [x41; x00] ++ [NL]))
  /\ VaultAES256_decrypt (L := Example.lib)
       (Some (Example.legacy_body Example.password Example.salt [x41; x00] ++ [NL]))
       Example.password (B "1.1")
     = Ok (Some [])
  /\ VaultLib_decrypt (L := Example.lib) Example.vault_lib Example.zero_padded_vault
     = Ok (B "1.1", B "AES256", B "1.1", []).
Proof.
  split; [vm_compute; reflexivity|].
  split; [|vm_compute; reflexivity].
  set (derivedkey := Example.kdf Example.password Example.salt 80).
  set (key1 := Py.slice derivedkey 0 32).
  set (key2 := Py.slice derivedkey 32 64).
  set (iv := fold_left (fun acc c => (256 * acc + Byte.to_N c)%N)
                       (Py.slice derivedkey 64 80) 0%N).
  set (ciphertext := Example.stream key1 iv [x41; x00]).
  refine (proj1 (zero_padding_drops_everything (L := Example.lib)
                   _ Example.password Example.salt (Example.mac key2 ciphertext)
                   ciphertext key1 key2 iv _ _ _)).
  - vm_compute. reflexivity.
  - reflexivity.
  - vm_compute. reflexivity.
Defined.

(** A 1.1 vault with well-formed padding: the three bytes of value 3 that
    follow [b'hello'] are dropped. *)
Example padded_vault_decrypts :
  VaultLib_decrypt (L := Example.lib) Example.vault_lib Example.padded_vault
  = Ok (B "1.1", B "AES256", B "1.1", B "hello").
Proof. vm_compute. reflexivity. Qed.

Lemma rekey_file_preserves_mode_and_owner_witness :
  let w' := (rekey_file (L := Example.lib) Example.editor "vault.yml" (B "new")
               Example.world0).2 in
  rekey_file (L := Example.lib) Example.editor "vault.yml" (B "new") Example.world0
  = (Ok tt, w')
  /\ exists after,
       Os.stat "vault.yml" w' = (Ok after, w')
       /\ st_mode after = 33152%N /\ st_uid after = 1000%N /\ st_gid after = 1000%N.
Proof.
  intros w'.
  assert (Hrun :
    rekey_file (L := Example.lib) Example.editor "vault.yml" (B "new") Example.world0
    = (Ok tt, w')).
  { unfold w'. rewrite (surjective_pairing (rekey_file _ _ _ _)) at 1.
    apply (f_equal (fun r => (r, w'))). vm_compute. reflexivity. }
  split; [exact Hrun|].
  destruct (rekey_file_preserves_mode_and_owner (L := Example.lib) _ _ _ _ _ Hrun)
    as ((prev & after & Hprev & Hafter & Hmode & Huid & Hgid) & _).
  exists after. split; [exact Hafter|].
  assert (E : prev = mk_stat 33152 1000 1000 (length Example.hello_vault)).
  { vm_compute in Hprev. injection Hprev as <-. vm_compute. reflexivity. }
  rewrite Hmode, Huid, Hgid, E. auto.
Defined.

(** * Further properties of the module *)

(** ** VaultLib: what encrypt writes, and what it refuses *)

Section EncryptMore.
Context {L : CryptoLib}.

(** The cipher name becomes AES256 whatever is asked for. *)
Lemma write_cipher_name (cipher_name : option bytes) :
  match cipher_name with
  | Some n =>
      if bool_decide (n = []) || negb (bool_decide (n ∈ CIPHER_WRITE_WHITELIST))
      then DEFAULT_WRITE_CIPHER else n
  | None => DEFAULT_WRITE_CIPHER
  end = B "AES256".
Proof.
  destruct cipher_name as [n|]; [|reflexivity].
  destruct (bool_decide_reflect (n = [])); simpl; [reflexivity|].
  destruct (bool_decide_reflect (n ∈ CIPHER_WRITE_WHITELIST)) as [Hin|Hin];
    simpl; [|reflexivity].
  unfold CIPHER_WRITE_WHITELIST in Hin. now apply list_elem_of_singleton in Hin.
Qed.

Lemma VaultLib_encrypt_any_name (self : VaultLib) (salt data : bytes)
    (cipher_name : option bytes) :
  VaultLib_encrypt self salt data cipher_name = VaultLib_encrypt self salt data None.
Proof. unfold VaultLib_encrypt. now rewrite write_cipher_name. Qed.

Lemma VaultLib_encrypt_blob (self : VaultLib) (salt data blob : bytes)
    (cipher_name : option bytes) :
  VaultLib_encrypt self salt data cipher_name = Ok blob ->
  is_encrypted data = false
  /\ exists password body,
       b_password self = Some password
       /\ VaultAES256_encrypt salt data password = Ok body
       /\ blob = _add_vault_header (B "AES256") (B "1.2") body.
Proof.
  unfold VaultLib_encrypt. rewrite write_cipher_name.
  destruct (is_encrypted data); [discriminate|]. simpl.
  destruct (b_password self) as [password|]; [|discriminate].
  destruct (VaultAES256_encrypt salt data password) as [body|] eqn:E; [|discriminate].
  simpl. intros H. injection H as <-. eauto 6.
Qed.

(** X1: whatever cipher name the caller passes (none, an unknown one, or
    the legacy b'AES'), VaultLib.encrypt does what it does with no name: it
    encrypts with AES256, and never runs into the refusal of the VaultAES
    class to encrypt. *)
Theorem encrypt_ignores_cipher_name (self : VaultLib) (salt data : bytes)
    (cipher_name : option bytes) :
  VaultLib_encrypt self salt data cipher_name = VaultLib_encrypt self salt data None
  /\ VaultLib_encrypt self salt data cipher_name <> Raise (AnsibleError DeprecatedEncrypt)
  /\ VaultLib_encrypt self salt data cipher_name <> Raise (AnsibleError CipherNotFound).
Proof.
  split; [apply VaultLib_encrypt_any_name|].
  unfold VaultLib_encrypt. rewrite write_cipher_name.
  destruct (is_encrypted data); [split; discriminate|]. simpl.
  destruct (b_password self) as [password|]; [|split; discriminate].
  destruct (VaultAES256_encrypt salt data password) as [body|] eqn:E;
    simpl; [split; discriminate|].
  unfold VaultAES256_encrypt in E. rewrite gen_key_initctr_no_iv in E. discriminate.
Qed.

(** X2: a blob that VaultLib.encrypt returned is recognised by
    is_encrypted, so encrypting it again, with any vault, salt or cipher
    name, is refused as "input is already encrypted". *)
Theorem encrypt_twice_is_refused (self : VaultLib) (salt data blob : bytes)
    (cipher_name : option bytes) :
  VaultLib_encrypt self salt data cipher_name = Ok blob ->
  is_encrypted blob = true
  /\ forall self' salt' cipher_name',
       VaultLib_encrypt self' salt' blob cipher_name'
       = Raise (AnsibleError AlreadyEncrypted).
Proof.
  intros H. apply VaultLib_encrypt_blob in H as (_ & password & body & _ & _ & ->).
  assert (E : is_encrypted (_add_vault_header (B "AES256") (B "1.2") body) = true)
    by reflexivity.
  split; [exact E|].
  intros self' salt' cipher_name'. unfold VaultLib_encrypt. now rewrite E.
Qed.

End EncryptMore.

Lemma encrypt_twice_is_refused_witness :
  VaultLib_encrypt (L := Example.lib) Example.vault_lib Example.salt (B "hello") None
  = Ok Example.hello_vault
  /\ VaultLib_encrypt (L := Example.lib) Example.vault_lib Example.salt
       Example.hello_vault (Some (B "AES256"))
     = Raise (AnsibleError AlreadyEncrypted).
Proof.
  assert (H : VaultLib_encrypt (L := Example.lib) Example.vault_lib Example.salt
                (B "hello") None = Ok Example.hello_vault) by reflexivity.
  split; [exact H|].
  exact (proj2 (encrypt_twice_is_refused (L := Example.lib) _ _ _ _ _ H) _ _ _).
Defined.

(** ** The header codec: emit, then parse *)

Lemma split_at_sep (sep : byte) (a r : bytes) :
  sep ∉ a -> Py.split sep (a ++ sep :: r) = a :: Py.split sep r.
Proof.
  induction a as [|c a IH]; intros H; simpl.
  - now rewrite decide_True by reflexivity.
  - rewrite not_elem_of_cons in H. destruct H as [Hc Ha].
    rewrite decide_False by congruence. now rewrite (IH Ha).
Qed.

Lemma split_without_sep (sep : byte) (a : bytes) : sep ∉ a -> Py.split sep a = [a].
Proof.
  induction a as [|c a IH]; intros H; simpl; [reflexivity|].
  rewrite not_elem_of_cons in H. destruct H as [Hc Ha].
  rewrite decide_False by congruence. now rewrite (IH Ha).
Qed.

Lemma lstrip_length (s : bytes) : length (Py.lstrip s) <= length s.
Proof.
  induction s as [|c s IH]; simpl; [lia|].
  destruct (Py.isspace c); simpl; lia.
Qed.

Lemma lstrip_same_length (s : bytes) : length (Py.lstrip s) = length s -> Py.lstrip s = s.
Proof.
  destruct s as [|c s]; simpl; [reflexivity|].
  destruct (Py.isspace c); [|reflexivity].
  pose proof (lstrip_length s). lia.
Qed.

Lemma strip_fixed (s : bytes) : Py.strip s = s -> Py.lstrip s = s /\ Py.rstrip s = s.
Proof.
  intros H. assert (Hl : Py.lstrip s = s).
  { apply lstrip_same_length. apply (f_equal length) in H.
    unfold Py.strip, Py.rstrip in H. rewrite length_rev in H.
    pose proof (lstrip_length (rev (Py.lstrip s))) as H1. rewrite length_rev in H1.
    pose proof (lstrip_length s). lia. }
  split; [exact Hl|]. unfold Py.strip in H. now rewrite Hl in H.
Qed.

Lemma lstrip_app (s t : bytes) : s <> [] -> Py.lstrip s = s -> Py.lstrip (s ++ t) = s ++ t.
Proof.
  destruct s as [|c s]; [congruence|]. intros _. simpl.
  destruct (Py.isspace c); [|reflexivity].
  intros H. pose proof (lstrip_length s) as Hle. rewrite H in Hle. simpl in Hle. lia.
Qed.

Lemma rstrip_app (p v : bytes) : v <> [] -> Py.rstrip v = v -> Py.rstrip (p ++ v) = p ++ v.
Proof.
  intros Hv H. unfold Py.rstrip in *.
  assert (Hrev : Py.lstrip (rev v) = rev v).
  { apply (f_equal (@rev byte)) in H. now rewrite rev_involutive in H. }
  rewrite rev_app_distr, lstrip_app, <- rev_app_distr, rev_involutive; auto.
  intros E. apply Hv. apply (f_equal (@rev byte)) in E.
  now rewrite rev_involutive in E.
Qed.

(** The header line of [_add_vault_header]. *)
Lemma add_vault_header_line (name version body : bytes) :
  _add_vault_header name version body
  = (B "$ANSIBLE_VAULT;1.2;" ++ name ++ [SEMI] ++ version) ++ NL :: body.
Proof. unfold _add_vault_header. rewrite <- !app_assoc. reflexivity. Qed.

Lemma header_line_strip (name version : bytes) :
  Py.strip version = version ->
  Py.strip (B "$ANSIBLE_VAULT;1.2;" ++ name ++ [SEMI] ++ version)
  = B "$ANSIBLE_VAULT;1.2;" ++ name ++ [SEMI] ++ version.
Proof.
  intros Hv. apply strip_fixed in Hv as [_ Hr].
  unfold Py.strip.
  change (Py.lstrip (B "$ANSIBLE_VAULT;1.2;" ++ name ++ [SEMI] ++ version))
    with (B "$ANSIBLE_VAULT;1.2;" ++ name ++ [SEMI] ++ version).
  rewrite !app_assoc, <- (app_assoc _ [SEMI] version).
  apply rstrip_app; [discriminate|].
  destruct version as [|c version]; [reflexivity|].
  apply (rstrip_app [SEMI]); [discriminate | exact Hr].
Qed.

Lemma header_line_fields (name version : bytes) :
  SEMI ∉ name -> SEMI ∉ version ->
  Py.split SEMI (B "$ANSIBLE_VAULT;1.2;" ++ name ++ [SEMI] ++ version)
  = [B "$ANSIBLE_VAULT"; B "1.2"; name; version].
Proof.
  intros Hn Hv.
  change (B "$ANSIBLE_VAULT;1.2;" ++ name ++ [SEMI] ++ version)
    with (B "$ANSIBLE_VAULT" ++ SEMI :: B "1.2" ++ SEMI :: name ++ SEMI :: version).
  rewrite split_at_sep by (apply (bool_decide_unpack _); vm_compute; exact I).
  rewrite split_at_sep by (apply (bool_decide_unpack _); vm_compute; exact I).
  now rewrite (split_at_sep _ _ _ Hn), (split_without_sep _ _ Hv).
Qed.

Lemma parse_add_vault_header_plain (name version body : bytes) :
  plain_field name -> plain_field version ->
  _parse_vault_header (_add_vault_header name version body)
  = Ok (B "1.2", name, version, Some body).
Proof.
  intros (Hn1 & Hn2 & Hn3) (Hv1 & Hv2 & Hv3).
  unfold _parse_vault_header.
  rewrite add_vault_header_line, splitn_first_line.
  - cbn [nth]. rewrite (header_line_strip _ _ Hv3), (header_line_fields _ _ Hn1 Hv1).
    cbn [nth length]. rewrite Hn3, Hv3. reflexivity.
  - rewrite !not_elem_of_app. repeat split; auto.
    + apply (bool_decide_unpack _). vm_compute. exact I.
    + apply (bool_decide_unpack _). vm_compute. exact I.
Qed.

(** X3: parsing what _add_vault_header emitted gives back container version
    1.2, the cipher name, the cipher version and the body, for every cipher
    name and version that have no semicolon, no newline and no white space at
    their ends, and for every body. *)
Theorem parse_add_vault_header (name version body : bytes) :
  plain_field name -> plain_field version ->
  _parse_vault_header (_add_vault_header name version body)
  = Ok (B "1.2", name, version, Some body).
Proof. exact (parse_add_vault_header_plain name version body). Qed.

Lemma parse_add_vault_header_witness :
  plain_field (B "AES") /\ plain_field (B "1.1")
  /\ _parse_vault_header (_add_vault_header (B "AES") (B "1.1") (B "6162" ++ [NL]))
     = Ok (B "1.2", B "AES", B "1.1", Some (B "6162" ++ [NL])).
Proof.
  assert (Hn : plain_field (B "AES")).
  { repeat split; try reflexivity; apply (bool_decide_unpack _); vm_compute; exact I. }
  assert (Hv : plain_field (B "1.1")).
  { repeat split; try reflexivity; apply (bool_decide_unpack _); vm_compute; exact I. }
  split; [exact Hn|]. split; [exact Hv|].
  exact (parse_add_vault_header _ _ _ Hn Hv).
Defined.

(** ** VaultLib.decrypt: the errors it raises *)

Lemma bind_raise {A C} (r : result A) (k : A -> result C) (e : exn) :
  bind r k = Raise e -> r = Raise e \/ exists a, r = Ok a /\ k a = Raise e.
Proof. destruct r as [a|e']; simpl; [eauto | intros [= ->]; auto]. Qed.

Lemma bind_ok {A C} (r : result A) (k : A -> result C) (c : C) :
  bind r k = Ok c -> exists a, r = Ok a /\ k a = Ok c.
Proof. destruct r as [a|e']; simpl; [eauto | discriminate]. Qed.

Lemma unhexlify_raises (s : bytes) (e : exn) :
  Binascii.unhexlify s = Raise e -> e = TypeError.
Proof.
  assert (H : forall n s, length s <= n -> Binascii.unhexlify s = Raise e -> e = TypeError).
  { clear s. induction n as [|n IH]; intros s Hlen.
    - destruct s; [discriminate | simpl in Hlen; lia].
    - destruct s as [|h [|l s]]; simpl; [discriminate | congruence |].
      destruct (Binascii.hex_digit h), (Binascii.hex_digit l); try congruence.
      intros H. apply bind_raise in H as [H|(r & _ & H)]; [|discriminate].
      apply (IH s); [simpl in Hlen; lia | exact H]. }
  apply (H (length s)). lia.
Qed.

Section DecryptErrors.
Context {L : CryptoLib}.

Lemma gen_key_initctr_raises (password salt : bytes) (generate_iv : bool) (e : exn) :
  gen_key_initctr password salt generate_iv = Raise e -> e = ValueError.
Proof.
  unfold gen_key_initctr. destruct generate_iv; [|discriminate].
  unfold Binascii.int_of_hexlify.
  destruct (Py.slice _ _ _); simpl; [congruence | discriminate].
Qed.

Lemma unpack_message_raises (message password version : bytes) (e : exn) :
  unpack_message message password version = Raise e -> builtin_exception e.
Proof.
  unfold unpack_message. destruct (bool_decide _).
  - intros H. apply bind_raise in H as [H|(m & _ & H)];
      [apply unhexlify_raises in H; now subst|].
    destruct (Py.splitn 2 NL m) as [|s [|c [|t [|? ?]]]];
      try (injection H as <-; exact I).
    repeat (apply bind_raise in H as [H|(? & _ & H)];
            [apply unhexlify_raises in H; now subst|]).
    apply bind_raise in H as [H|(? & _ & H)]; [|discriminate].
    apply gen_key_initctr_raises in H. now subst.
  - destruct (b64decode _); [|intros [= <-]; exact I].
    rewrite gen_key_initctr_no_iv. discriminate.
Qed.

Lemma VaultAES256_decrypt_raises (message : option bytes) (password version : bytes)
    (e : exn) :
  VaultAES256_decrypt message password version = Raise e -> builtin_exception e.
Proof.
  unfold VaultAES256_decrypt. destruct message as [message|]; [|intros [= <-]; exact I].
  intros H. apply bind_raise in H as [H|([[[salt mac] ct] [[key1 key2] iv]] & _ & H)];
    [now apply unpack_message_raises in H|].
  destruct (negb _); [discriminate|].
  destruct (bool_decide _); [|discriminate].
  unfold Py.last_item in H. destruct (last _); [discriminate|].
  simpl in H. injection H as <-. exact I.
Qed.

Lemma aes_decrypt_loop_raises (rounds bs : nat) (c : cbc_cipher)
    (in_file next_chunk out : bytes) (e : exn) :
  aes_decrypt_loop rounds bs c in_file next_chunk out = Raise e -> builtin_exception e.
Proof.
  revert c in_file next_chunk out.
  induction rounds as [|rounds IH]; intros c in_file next_chunk out;
    cbn [aes_decrypt_loop]; [intros [= <-]; exact I|].
  cbv zeta.
  match goal with
  | |- context [match ?x with Some _ => _ | None => _ end] =>
      destruct x as [[next c']|]
  end; [|intros [= <-]; exact I].
  destruct (length next =? 0); [|apply IH].
  unfold Py.last_item. destruct (last next_chunk); simpl;
    [discriminate | intros [= <-]; exact I].
Qed.

Lemma VaultAES_decrypt_raises (data : option bytes) (password : bytes) (e : exn) :
  VaultAES_decrypt data password = Raise e ->
  builtin_exception e \/ e = AnsibleError DecryptionFailed.
Proof.
  unfold VaultAES_decrypt. destruct data as [data|]; [|intros [= <-]; left; exact I].
  intros H. apply bind_raise in H as [H|(hexdata & _ & H)];
    [apply unhexlify_raises in H; subst; left; exact I|].
  destruct (aes_derive_key_and_iv _ _ _ _) as [key iv].
  apply bind_raise in H as [H|(out_data & _ & H)];
    [left; now apply aes_decrypt_loop_raises in H|].
  destruct (Py.splitn 1 NL out_data) as [|this_sha [|this_data [|? ?]]];
    try (injection H as <-; left; exact I).
  destruct (bool_decide _); [injection H as <-; now right | discriminate].
Qed.


End DecryptErrors.


(** ** A vault without a body *)

Lemma splitn_one_line (s : bytes) : NL ∉ s -> Py.splitn 1 NL s = [s].
Proof.
  induction s as [|c s IH]; intros H; simpl; [reflexivity|].
  rewrite not_elem_of_cons in H. destruct H as [Hc Hs].
  rewrite decide_False by congruence. now rewrite (IH Hs).
Qed.

Lemma splitn_two_lines (s : bytes) :
  NL ∈ s -> exists line rest, Py.splitn 1 NL s = [line; rest].
Proof.
  induction s as [|c s IH]; intros H; [now apply elem_of_nil in H|].
  simpl. destruct (decide (c = NL)) as [->|Hc].
  - rewrite splitn_0. eauto.
  - apply elem_of_cons in H as [H|H]; [congruence|].
    destruct (IH H) as (line & rest & ->). eauto.
Qed.

Lemma parse_vault_header_body (data : bytes)
    (vv cn cv : bytes) (body : option bytes) :
  _parse_vault_header data = Ok (vv, cn, cv, body) ->
  (body = None <-> NL ∉ data).
Proof.
  rewrite parse_vault_header_unfold. cbv zeta. intros H.
  assert (Hbody : body = if 1 <? length (Py.splitn 1 NL data)
                         then Some (nth 1 (Py.splitn 1 NL data) []) else None).
  { destruct (_ && _); [|discriminate].
    destruct (vault_version_ge_1_2 _).
    - destruct (_ =? 4); [now injection H | discriminate].
    - destruct (_ =? 3); [now injection H | discriminate]. }
  rewrite Hbody. split.
  - intros E Hin. apply splitn_two_lines in Hin as (line & rest & Hs).
    rewrite Hs in E. discriminate.
  - intros Hnl. now rewrite (splitn_one_line _ Hnl).
Qed.

Section NoBody.
Context {L : CryptoLib}.

(** X5: the body that _parse_vault_header returns is None exactly when the
    data has no newline; VaultLib.decrypt on such data, when its header
    names a known cipher, ends in the AttributeError of None.replace and
    not in an AnsibleError. *)
Theorem header_without_newline (password data : bytes)
    (vv cn cv : bytes) (body : option bytes) :
  _parse_vault_header data = Ok (vv, cn, cv, body) ->
  (body = None <-> NL ∉ data)
  /\ (NL ∉ data -> cn ∈ CIPHER_WHITELIST ->
      VaultLib_decrypt {| b_password := Some password |} data = Raise AttributeError).
Proof.
  intros Hparse. pose proof (parse_vault_header_body _ _ _ _ _ Hparse) as Hbody.
  split; [exact Hbody|]. intros Hnl Hin.
  apply Hbody in Hnl. subst body.
  unfold VaultLib_decrypt. simpl. rewrite Hparse. simpl.
  rewrite bool_decide_true by assumption. simpl.
  unfold CIPHER_WHITELIST in Hin.
  apply elem_of_cons in Hin as [->|Hin];
    [|apply list_elem_of_singleton in Hin as ->]; reflexivity.
Qed.

End NoBody.

Lemma header_without_newline_witness :
  _parse_vault_header (B "$ANSIBLE_VAULT;1.2;AES256;1.2")
    = Ok (B "1.2", B "AES256", B "1.2", None)
  /\ VaultLib_decrypt (L := Example.lib) Example.vault_lib (B "$ANSIBLE_VAULT;1.2;AES256;1.2")
     = Raise AttributeError.
Proof.
  assert (H : _parse_vault_header (B "$ANSIBLE_VAULT;1.2;AES256;1.2")
              = Ok (B "1.2", B "AES256", B "1.2", None)) by reflexivity.
  split; [exact H|].
  apply (proj2 (header_without_newline (L := Example.lib) Example.password _ _ _ _ _ H)).
  - apply (bool_decide_unpack _). vm_compute. exact I.
  - apply (bool_decide_unpack _). vm_compute. exact I.
Defined.

(** ** Decrypting with another passphrase *)

Section OtherPassphrase.
Context {L : CryptoLib}.

Hypothesis HMAC_digest_size : forall key msg, length (HMAC_SHA256 key msg) = 32.
Hypothesis b64_inverse : forall s, b64decode (b64encode s) = Some s.
Hypothesis b64_no_newline : forall s, NL ∉ b64encode s.

(** X6: a blob that encrypt made under passphrase Q, decrypted under a
    passphrase Q': when the HMAC of the ciphertext under the mac key of Q'
    differs from the one stored, decrypt raises "Decryption failed"; when it
    is the same, decrypt returns whatever AES-CTR makes of the ciphertext
    under the encryption key of Q'. *)
Theorem decrypt_with_other_passphrase (P Q Q' salt blob : bytes)
    (cipher_name : option bytes) :
  length salt = 32 ->
  VaultLib_encrypt {| b_password := Some Q |} salt P cipher_name = Ok blob ->
  let ciphertext := AES_CTR_encrypt (Py.slice (PBKDF2 Q salt 64) 0 32) 0 P in
  let mac := HMAC_SHA256 (Py.slice (PBKDF2 Q salt 64) 32 64) ciphertext in
  let mac' := HMAC_SHA256 (Py.slice (PBKDF2 Q' salt 64) 32 64) ciphertext in
  (mac' <> mac ->
     VaultLib_decrypt {| b_password := Some Q' |} blob
     = Raise (AnsibleError DecryptionFailed))
  /\ (mac' = mac ->
     VaultLib_decrypt {| b_password := Some Q' |} blob
     = Ok (B "1.2", B "AES256", B "1.2",
           AES_CTR_decrypt (Py.slice (PBKDF2 Q' salt 64) 0 32) 0 ciphertext)).
Proof.
  intros Hsalt Henc ciphertext mac mac'.
  apply VaultLib_encrypt_blob in Henc as (_ & password & body & Hpw & Hbody & ->).
  simpl in Hpw. injection Hpw as <-.
  rewrite VaultAES256_encrypt_eq in Hbody. cbv zeta in Hbody. injection Hbody as <-.
  fold ciphertext. fold mac.
  rewrite (VaultLib_decrypt_AES256 _ _ _ _ _ (parse_own_header _)).
  rewrite (VaultAES256_decrypt_unpacked _ _ _ _ _ _ _ _ _
             (unpack_wrapped_message b64_inverse b64_no_newline salt mac ciphertext Q'
                (B "1.2") ltac:(discriminate) Hsalt (HMAC_digest_size _ _))).
  fold mac'. split.
  - intros Hne. rewrite is_equal_false_of_neq by congruence. reflexivity.
  - intros <-. rewrite is_equal_refl. cbn [negb].
    rewrite bool_decide_false by discriminate. reflexivity.
Qed.

End OtherPassphrase.

Lemma decrypt_with_other_passphrase_witness :
  VaultLib_encrypt (L := Example.lib) Example.vault_lib Example.salt (B "hello") None
  = Ok Example.hello_vault
  /\ VaultLib_decrypt (L := Example.lib) {| b_password := Some (B "other") |}
       Example.hello_vault
     = Raise (AnsibleError DecryptionFailed).
Proof.
  assert (Henc : VaultLib_encrypt (L := Example.lib) Example.vault_lib Example.salt
                   (B "hello") None = Ok Example.hello_vault) by reflexivity.
  split; [exact Henc|].
  apply (proj1 (decrypt_with_other_passphrase (L := Example.lib)
                  example_mac_size base64_decode_encode base64_no_newline
                  (B "hello") Example.password (B "other") Example.salt
                  Example.hello_vault None eq_refl Henc)).
  vm_compute. discriminate.
Defined.

(** ** The keys and the counter *)

Lemma big_endian_bound (s : bytes) (acc : N) :
  (fold_left (fun acc c => 256 * acc + Byte.to_N c) s acc
   < (acc + 1) * 256 ^ N.of_nat (length s))%N.
Proof.
  revert acc. induction s as [|c s IH]; intros acc.
  - simpl. lia.
  - cbn [fold_left length]. rewrite Nat2N.inj_succ, N.pow_succ_r'.
    pose proof (IH (256 * acc + Byte.to_N c)%N) as H.
    pose proof (Byte.to_N_bounded c) as Hc.
    assert (256 ^ N.of_nat (length s) <> 0)%N by (apply N.pow_nonzero; lia).
    nia.
Qed.

Section KeyDerivation.
Context {L : CryptoLib}.

Hypothesis PBKDF2_length :
  forall password salt dkLen, length (PBKDF2 password salt dkLen) = dkLen.

(** X7: when PBKDF2 returns as many bytes as it is asked for,
    gen_key_initctr raises nothing and returns an AES key of 32 bytes, a MAC
    key of 32 bytes and an initial counter below 2^128, which is 0 unless an
    IV is asked for; the two keys and the IV are consecutive pieces of one
    PBKDF2 output. *)
Theorem gen_key_initctr_sizes (password salt : bytes) (generate_iv : bool) :
  exists key1 key2 iv,
    gen_key_initctr password salt generate_iv = Ok (key1, key2, iv)
    /\ length key1 = 32
    /\ length key2 = 32
    /\ (iv < 2 ^ 128)%N
    /\ (generate_iv = false -> iv = 0%N)
    /\ key1 ++ key2
       = take 64 (PBKDF2 password salt (if generate_iv then 80 else 64)).
Proof.
  assert (Hkeys : forall d : bytes, 64 <= length d ->
            length (Py.slice d 0 32) = 32 /\ length (Py.slice d 32 (32 * 2)) = 32
            /\ Py.slice d 0 32 ++ Py.slice d 32 (32 * 2) = take 64 d).
  { intros d Hd. unfold Py.slice. rewrite !length_take, !length_drop.
    split; [lia|]. split; [lia|].
    change (take (32 - 0) (drop 0 d)) with (take 32 d).
    change (32 * 2 - 32) with 32.
    rewrite (take_drop_commute d 32 32).
    change (32 + 32) with 64.
    transitivity (take 32 (take 64 d) ++ drop 32 (take 64 d)); [|apply take_drop].
    now rewrite take_take. }
  unfold gen_key_initctr. cbv zeta. destruct generate_iv.
  - set (d := PBKDF2 password salt (2 * 32 + 16)).
    assert (Hd : length d = 80) by apply PBKDF2_length.
    destruct (Hkeys d ltac:(lia)) as (H1 & H2 & H12).
    unfold Binascii.int_of_hexlify.
    destruct (Py.slice d (32 * 2) (32 * 2 + 16)) as [|c iv] eqn:Eiv.
    + apply (f_equal length) in Eiv. unfold Py.slice in Eiv.
      rewrite length_take, length_drop in Eiv. cbn [length] in Eiv. lia.
    + simpl bind. eexists _, _, _. split; [reflexivity|].
      repeat split; try assumption; [|discriminate].
      pose proof (big_endian_bound (c :: iv) 0) as Hb.
      assert (Hlen : length (c :: iv) <= 16).
      { rewrite <- Eiv. unfold Py.slice. rewrite length_take. lia. }
      eapply N.lt_le_trans; [exact Hb|].
      rewrite N.mul_1_l. change (2 ^ 128)%N with (256 ^ 16)%N.
      apply N.pow_le_mono_r; lia.
  - set (d := PBKDF2 password salt (2 * 32 + 0)).
    assert (Hd : length d = 64) by apply PBKDF2_length.
    destruct (Hkeys d ltac:(lia)) as (H1 & H2 & H12).
    simpl bind. eexists _, _, _. split; [reflexivity|].
    repeat split; try assumption; try reflexivity.
Qed.

End KeyDerivation.

Lemma example_kdf_length (password salt : bytes) (dkLen : nat) :
  length (Example.kdf password salt dkLen) = dkLen.
Proof.
  unfold Example.kdf. rewrite length_take, !length_app, repeat_length. lia.
Qed.

Lemma gen_key_initctr_sizes_witness :
  exists key1 key2 iv,
    gen_key_initctr (L := Example.lib) Example.password Example.salt true
    = Ok (key1, key2, iv)
    /\ length key1 = 32 /\ length key2 = 32 /\ (iv < 2 ^ 128)%N.
Proof.
  destruct (gen_key_initctr_sizes (L := Example.lib) example_kdf_length
              Example.password Example.salt true)
    as (key1 & key2 & iv & H & H1 & H2 & Hiv & _).
  exists key1, key2, iv. auto.
Defined.

(** ** The obsolete VaultAES cipher *)

Section Legacy.
Context {L : CryptoLib}.

Hypothesis MD5_digest_size : forall text, length (MD5 text) = 16.

(** X8: aes_derive_key_and_iv with the lengths VaultAES.decrypt passes (key
    32, IV 16) runs its loop three times: with D1 = MD5(password + salt),
    D2 = MD5(D1 + password + salt) and D3 = MD5(D2 + password + salt), the
    key is D1 + D2 and the IV is D3. *)
Theorem aes_derive_key_and_iv_rounds (password salt : bytes) :
  let d1 := MD5 (password ++ salt) in
  let d2 := MD5 (d1 ++ password ++ salt) in
  let d3 := MD5 (d2 ++ password ++ salt) in
  aes_derive_key_and_iv password salt 32 16 = (d1 ++ d2, d3).
Proof.
  intros d1 d2 d3. unfold aes_derive_key_and_iv.
  assert (H1 : length d1 = 16) by apply MD5_digest_size.
  assert (H2 : length d2 = 16) by apply MD5_digest_size.
  assert (H3 : length d3 = 16) by apply MD5_digest_size.
  assert (Hloop : aes_derive_loop (32 + 16) (32 + 16) password salt [] []
                  = d1 ++ d2 ++ d3).
  { change (32 + 16) with (S (S (S 45))) at 1.
    cbn [aes_derive_loop]. change ([] ++ password ++ salt) with (password ++ salt).
    fold d1. change ([] ++ d1) with d1.
    replace (length (@nil byte) <? 32 + 16) with true by reflexivity.
    replace (length d1 <? 32 + 16) with true by (rewrite H1; reflexivity).
    fold d2.
    replace (length (d1 ++ d2) <? 32 + 16) with true
      by (rewrite length_app, H1, H2; reflexivity).
    fold d3.
    replace (length ((d1 ++ d2) ++ d3) <? 32 + 16) with false
      by (rewrite !length_app, H1, H2, H3; reflexivity).
    now rewrite <- app_assoc. }
  rewrite Hloop. unfold Py.slice. f_equal.
  - simpl. rewrite app_assoc. apply take_app_length'. rewrite length_app. lia.
  - rewrite app_assoc, drop_app_length' by (rewrite length_app; lia).
    apply take_ge. lia.
Qed.

End Legacy.

Lemma aes_derive_key_and_iv_rounds_witness :
  length (fst (aes_derive_key_and_iv (L := Example.lib) Example.password (B "saltsalt") 32 16))
  = 32
  /\ length (snd (aes_derive_key_and_iv (L := Example.lib) Example.password (B "saltsalt") 32 16))
     = 16.
Proof.
  rewrite (aes_derive_key_and_iv_rounds (L := Example.lib)
             (fun text => repeat_length _ 16) Example.password (B "saltsalt")).
  split; reflexivity.
Defined.

Lemma splitn_two_inv (s line rest : bytes) :
  Py.splitn 1 NL s = [line; rest] -> s = line ++ NL :: rest /\ NL ∉ line.
Proof.
  revert line. induction s as [|c s IH]; intros line; simpl; [discriminate|].
  destruct (decide (c = NL)) as [->|Hc].
  - rewrite splitn_0. intros [= <- <-]. split; [reflexivity | apply not_elem_of_nil].
  - destruct (Py.splitn 1 NL s) as [|w [|r [|? ?]]] eqn:E; try discriminate.
    intros [= <- <-]. destruct (IH w eq_refl) as [-> Hw].
    split; [reflexivity|]. rewrite not_elem_of_cons. auto.
Qed.

Section LegacyDecrypt.
Context {L : CryptoLib}.

(** X9: VaultAES.decrypt never returns None; when it returns data, the
    stream its CBC loop produced from the unhexlified input (after the
    16-byte salt block, under the key and IV derived from the password and
    the last 8 bytes of that block) is the SHA-256 hex digest of the data, a
    newline, and the data. *)
Theorem VaultAES_decrypt_checks_digest (data : option bytes) (password : bytes)
    (r : option bytes) :
  VaultAES_decrypt data password = Ok r ->
  exists body hexdata this_data,
    data = Some body
    /\ r = Some this_data
    /\ Binascii.unhexlify (Py.remove NL body) = Ok hexdata
    /\ let bs := AES_block_size in
       let salt := drop 8 (take bs hexdata) in
       let in_file := drop bs hexdata in
       let cipher :=
         AES_CBC_new (aes_derive_key_and_iv password salt 32 bs).1
                     (aes_derive_key_and_iv password salt 32 bs).2 in
       aes_decrypt_loop (S (length in_file)) bs cipher in_file [] []
       = Ok (SHA256_hexdigest this_data ++ NL :: this_data).
Proof.
  unfold VaultAES_decrypt. destruct data as [body|]; [|discriminate].
  intros H. apply bind_ok in H as (hexdata & Hhex & H).
  cbv zeta in H.
  destruct (aes_derive_key_and_iv password
              (drop (length (B "Salted__")) (take AES_block_size hexdata))
              32 AES_block_size) as [key iv] eqn:Ekey.
  apply bind_ok in H as (out_data & Hloop & H).
  destruct (Py.splitn 1 NL out_data) as [|this_sha [|this_data [|? ?]]] eqn:Esplit;
    try discriminate.
  destruct (bool_decide_reflect (this_sha <> SHA256_hexdigest this_data)) as [|Hsha];
    [discriminate|].
  injection H as <-.
  apply dec_stable in Hsha. subst this_sha.
  apply splitn_two_inv in Esplit as [-> _].
  exists body, hexdata, this_data. repeat split; try assumption.
  cbv zeta. change (length (B "Salted__")) with 8 in Ekey. rewrite Ekey. exact Hloop.
Qed.

End LegacyDecrypt.

Lemma VaultAES_decrypt_checks_digest_witness :
  VaultLib_decrypt (L := Example.lib) Example.vault_lib Example.legacy_aes_vault
  = Ok (B "1.1", B "AES", B "1.1", B "hi")
  /\ exists hexdata,
       Binascii.unhexlify
         (Py.remove NL
            (Example.legacy_aes_body Example.password (B "saltsalt") (B "hi") [x02; x02]
               ++ [NL]))
       = Ok hexdata
       /\ take 8 hexdata = B "Salted__".
Proof.
  split; [vm_compute; reflexivity|].
  assert (H : VaultAES_decrypt (L := Example.lib)
                (Some (Example.legacy_aes_body Example.password (B "saltsalt") (B "hi")
                         [x02; x02] ++ [NL]))
                Example.password
              = Ok (Some (B "hi"))) by (vm_compute; reflexivity).
  destruct (VaultAES_decrypt_checks_digest (L := Example.lib) _ _ _ H)
    as (body & hexdata & this_data & Hbody & _ & Hhex & _).
  apply (f_equal (fun o : option bytes => match o with Some b => b | None => [] end))
    in Hbody.
  cbv beta iota in Hbody. subst body.
  exists hexdata. split; [exact Hhex|].
  vm_compute in Hhex.
  apply (f_equal (fun r : result bytes => match r with Ok h => h | Raise _ => [] end))
    in Hhex.
  cbv beta iota in Hhex. subst hexdata. vm_compute. reflexivity.
Defined.

(** ** The editor: what its calls leave of the process *)

Lemma same_process_refl (w : world) : same_process w w.
Proof. repeat split. Qed.

Lemma same_process_trans (w1 w2 w3 : world) :
  same_process w1 w2 -> same_process w2 w3 -> same_process w1 w3.
Proof.
  intros (A1 & A2 & A3 & A4) (B1 & B2 & B3 & B4).
  repeat split; congruence.
Qed.

Lemma same_process_set_fs (fs : gmap string file) (w : world) :
  same_process w (set_fs fs w).
Proof. repeat split. Qed.

Create HintDb process discriminated.

#[local] Hint Resolve same_process_refl same_process_set_fs : process.

Lemma keeps_process_ret {A} (a : A) : keeps_process (ret a).
Proof. intros w. simpl. auto with process. Qed.

Lemma keeps_process_raise {A} (e : exn) : keeps_process (@raise A e).
Proof. intros w. simpl. auto with process. Qed.

Lemma keeps_process_bind {A C} (m : io A) (k : A -> io C) :
  keeps_process m -> (forall a, keeps_process (k a)) -> keeps_process (io_bind m k).
Proof.
  intros Hm Hk w. unfold io_bind. specialize (Hm w).
  destruct (m w) as [[a|e] w1]; simpl in *; [|exact Hm].
  exact (same_process_trans _ _ _ Hm (Hk a w1)).
Qed.

Lemma keeps_process_try_except {A} (m : io A) (handler : exn -> io A) :
  keeps_process m -> (forall e, keeps_process (handler e)) ->
  keeps_process (try_except m handler).
Proof.
  intros Hm Hh w. unfold try_except. specialize (Hm w).
  destruct (m w) as [[a|e] w1]; simpl in *; [exact Hm|].
  exact (same_process_trans _ _ _ Hm (Hh e w1)).
Qed.

Ltac os_process f :=
  let w := fresh "w" in
  intros w; unfold f; simpl;
  repeat match goal with
         | |- context [match ?x with _ => _ end] => destruct x; simpl
         end;
  auto with process.

Lemma keeps_process_isfile (p : string) : keeps_process (Os.path_isfile p).
Proof. os_process Os.path_isfile. Qed.

Lemma keeps_process_stat (p : string) : keeps_process (Os.stat p).
Proof. os_process Os.stat. Qed.

Lemma keeps_process_remove (p : string) : keeps_process (Os.remove p).
Proof. os_process Os.remove. Qed.

Lemma keeps_process_chmod (p : string) (mode : N) : keeps_process (Os.chmod p mode).
Proof. os_process Os.chmod. Qed.

Lemma keeps_process_chown (p : string) (uid gid : N) : keeps_process (Os.chown p uid gid).
Proof. os_process Os.chown. Qed.

Lemma keeps_process_call_shred (p : string) : keeps_process (Os.call_shred p).
Proof. os_process Os.call_shred. Qed.

Lemma keeps_process_open_wb (p : string) : keeps_process (Os.open_wb p).
Proof. os_process Os.open_wb. Qed.

Lemma keeps_process_close (p : string) (fh : Os.file_handle) :
  keeps_process (Os.close p fh).
Proof. os_process Os.close. Qed.

#[local] Hint Resolve keeps_process_ret keeps_process_raise keeps_process_isfile
  keeps_process_stat keeps_process_remove keeps_process_chmod keeps_process_chown
  keeps_process_call_shred keeps_process_open_wb keeps_process_close : process.

Lemma shred_passes_process (passes file_len max_chunk_len : nat) (fh : Os.file_handle)
    (w : world) :
  same_process w (shred_passes passes file_len max_chunk_len fh w).2.
Proof.
  revert fh w. induction passes as [|passes IH]; intros fh w; [apply same_process_refl|].
  cbn [shred_passes]. unfold Os.randint, Os.urandom.
  destruct (overwrite_pass _ _ _ fh) as [[[]|e] fh']; [|repeat split].
  eapply same_process_trans; [|apply IH]. repeat split.
Qed.

Lemma keeps_process_shred_file_custom (p : string) : keeps_process (_shred_file_custom p).
Proof.
  unfold _shred_file_custom, Os.path_getsize.
  apply keeps_process_bind; [apply keeps_process_bind; auto with process|].
  intros file_len. destruct (0 <? file_len); [|auto with process].
  apply keeps_process_bind; [auto with process|].
  intros fh w.
  pose proof (shred_passes_process 3 file_len (Nat.min MAX_CHUNK_LEN file_len) fh w) as Hp.
  destruct (shred_passes _ _ _ fh w) as [[r fh'] w1]. simpl in Hp.
  pose proof (keeps_process_close p fh' w1) as Hclose.
  destruct (Os.close p fh' w1) as [r' w2]. simpl in *.
  exact (same_process_trans _ _ _ Hp Hclose).
Qed.

Lemma keeps_process_shred_file (p : string) : keeps_process (_shred_file p).
Proof.
  unfold _shred_file.
  apply keeps_process_bind; [auto with process|].
  intros [|]; simpl; [|auto with process].
  apply keeps_process_bind.
  - apply keeps_process_try_except; [auto with process|].
    intros []; auto with process.
  - intros r. apply keeps_process_bind; [|auto with process].
    destruct (negb _); auto using keeps_process_shred_file_custom with process.
Qed.

(** ** The editor: _shred_file *)

Lemma remove_ok (p : string) (w w' : world) :
  Os.remove p w = (Ok tt, w') -> w_fs w' = delete p (w_fs w).
Proof.
  unfold Os.remove. destruct (w_fs w !! p); [|discriminate].
  intros [= <-]. reflexivity.
Qed.

Lemma shred_file_absent (p : string) (w : world) :
  w_fs w !! p = None -> _shred_file p w = (Ok tt, w).
Proof.
  intros H. unfold _shred_file, io_bind, Os.path_isfile. now rewrite H.
Qed.

Lemma shred_file_ok (p : string) (w w' : world) :
  _shred_file p w = (Ok tt, w') ->
  w_fs w' !! p = None /\ same_elsewhere p w w' /\ same_process w w'.
Proof.
  intros H.
  pose proof (touches_only_shred_file p w) as Hframe.
  pose proof (keeps_process_shred_file p w) as Hproc.
  rewrite H in Hframe, Hproc. simpl in Hframe, Hproc.
  split; [|auto].
  unfold _shred_file in H.
  apply io_bind_ok in H as (isfile & w1 & Hisfile & H).
  unfold Os.path_isfile in Hisfile. injection Hisfile as <- <-.
  destruct (w_fs w !! p) eqn:Hp; simpl in H.
  - apply io_bind_ok in H as (r & w2 & _ & H).
    apply io_bind_ok in H as ([] & w3 & _ & H).
    apply remove_ok in H. rewrite H. apply lookup_delete_eq.
  - injection H as <-. exact Hp.
Qed.

(** ** The editor: the custom shred on a whole file *)

Lemma write_buf_length (data : bytes) (fh : Os.file_handle) :
  Os.fh_pos fh <= length (Os.fh_buf fh) ->
  length (Os.fh_buf (Os.write data fh))
  = Nat.max (length (Os.fh_buf fh)) (Os.fh_pos fh + length data).
Proof.
  intros H. unfold Os.write. simpl.
  rewrite !length_app, length_take, repeat_length, length_drop. lia.
Qed.

Lemma written_pos (fh : Os.file_handle) (w : bytes) :
  written fh w -> Os.fh_pos fh <= length (Os.fh_buf fh).
Proof.
  intros [Hpos Hbuf]. apply (f_equal length) in Hbuf.
  rewrite length_take in Hbuf. lia.
Qed.

Lemma iter_buf_length (n file_len : nat) (fh : Os.file_handle) (w data : bytes) :
  written fh w ->
  length (Os.fh_buf fh) <= file_len ->
  length w + n * length data <= file_len ->
  length (Os.fh_buf (Nat.iter n (Os.write data) fh)) <= file_len.
Proof.
  intros Hw Hbuf. induction n as [|n IH]; intros Hn; [exact Hbuf|].
  change (Nat.iter (S n) (Os.write data) fh)
    with (Os.write data (Nat.iter n (Os.write data) fh)).
  pose proof (written_iter n fh w data Hw) as Hwn.
  pose proof (written_pos _ _ Hwn) as Hpos.
  rewrite write_buf_length by exact Hpos.
  destruct Hwn as [Hp _]. rewrite Hp, length_app, length_concat_repeat.
  specialize (IH ltac:(lia)). lia.
Qed.

(** One pass leaves exactly its pattern in a file object that held no more
    than the length of the file. *)
Lemma overwrite_pass_buf (file_len : nat) (data : bytes) (fh : Os.file_handle) :
  1 <= length data <= file_len ->
  length (Os.fh_buf fh) <= file_len ->
  overwrite_pass file_len (length data) data fh
  = (Ok tt, Os.mk_fh file_len (pass_pattern file_len data)).
Proof.
  intros Hc Hbuf.
  set (q := file_len / length data).
  set (tail := take (file_len mod length data) data).
  set (fh1 := Nat.iter q (Os.write data) (Os.seek 0 fh)).
  set (fh2 := Os.write tail fh1).
  pose proof (Nat.div_mod_eq file_len (length data)) as Hdm. fold q in Hdm.
  pose proof (Nat.mod_upper_bound file_len (length data) ltac:(lia)) as Hmod.
  assert (Htail : length tail = file_len mod length data)
    by (unfold tail; rewrite length_take; lia).
  assert (Hw1 : written fh1 (concat (repeat data q)))
    by (exact (written_iter q _ [] data (written_seek fh))).
  assert (Hw2 : written fh2 (concat (repeat data q) ++ tail))
    by (exact (written_write _ _ tail Hw1)).
  assert (Hall : length (concat (repeat data q) ++ tail) = file_len)
    by (rewrite length_app, length_concat_repeat, Htail; lia).
  assert (Hlen1 : length (Os.fh_buf fh1) <= file_len).
  { apply (iter_buf_length q file_len (Os.seek 0 fh) [] data (written_seek fh) Hbuf).
    simpl. nia. }
  assert (Hlen2 : length (Os.fh_buf fh2) = file_len).
  { unfold fh2. rewrite write_buf_length by exact (written_pos _ _ Hw1).
    destruct Hw1 as [Hp1 _]. rewrite Hp1, length_concat_repeat, Htail. lia. }
  destruct Hw2 as [Hp2 Hb2]. rewrite Hall in Hp2.
  assert (Hfh2 : fh2 = Os.mk_fh file_len (pass_pattern file_len data)).
  { destruct fh2 as [pos buf]. simpl in *. subst pos. f_equal.
    unfold pass_pattern. fold q. fold tail. rewrite <- Hb2, <- Hlen2.
    symmetry. apply firstn_all. }
  unfold overwrite_pass.
  destruct (Nat.eqb_spec (length data) 0) as [E|_]; [lia|].
  fold q. fold tail. fold fh1. fold fh2. unfold Os.tell.
  rewrite Hp2, Nat.eqb_refl. simpl. now rewrite Hfh2.
Qed.

Lemma drawn_chunk_length (w : world) (pos file_len : nat) :
  2 <= file_len ->
  length (drawn_chunk w pos file_len) = drawn_chunk_len w pos file_len
  /\ 1 <= drawn_chunk_len w pos file_len <= file_len.
Proof.
  intros HL. unfold drawn_chunk. rewrite length_map, length_seq.
  split; [reflexivity|]. unfold drawn_chunk_len. cbv zeta.
  assert (Hmax : 2 <= Nat.min MAX_CHUNK_LEN file_len <= file_len)
    by (unfold MAX_CHUNK_LEN; lia).
  set (m := Nat.min MAX_CHUNK_LEN file_len) in *.
  pose proof (Nat.mod_upper_bound (w_rand_nat w pos) (m - m / 2 + 1)).
  pose proof (Nat.div_mod_eq m 2). pose proof (Nat.mod_upper_bound m 2). lia.
Qed.

Lemma advance_fields (n : nat) (w : world) :
  w_fs (advance n w) = w_fs w
  /\ w_rand_nat (advance n w) = w_rand_nat w
  /\ w_rand_byte (advance n w) = w_rand_byte w
  /\ w_rand_pos (advance n w) = n + w_rand_pos w.
Proof.
  revert w. induction n as [|n IH]; intros w; [repeat split|].
  cbn [advance]. destruct (IH (next_random w)) as (H1 & H2 & H3 & H4).
  rewrite H1, H2, H3, H4. simpl. repeat split. lia.
Qed.

Lemma randint_draw (w : world) (file_len : nat) :
  Os.randint (Nat.min MAX_CHUNK_LEN file_len / 2) (Nat.min MAX_CHUNK_LEN file_len) w
  = (drawn_chunk_len w (w_rand_pos w) file_len, next_random w).
Proof. unfold Os.randint, drawn_chunk_len. reflexivity. Qed.

Lemma urandom_draw (w : world) (file_len : nat) :
  Os.urandom (drawn_chunk_len w (w_rand_pos w) file_len) (next_random w)
  = (drawn_chunk w (w_rand_pos w) file_len, advance 2 w).
Proof. unfold Os.urandom, drawn_chunk. reflexivity. Qed.

Lemma shred_passes_step (n file_len : nat) (fh : Os.file_handle) (w : world) :
  2 <= file_len ->
  length (Os.fh_buf fh) <= file_len ->
  shred_passes (S n) file_len (Nat.min MAX_CHUNK_LEN file_len) fh w
  = shred_passes n file_len (Nat.min MAX_CHUNK_LEN file_len)
      (Os.mk_fh file_len (pass_pattern file_len (drawn_chunk w (w_rand_pos w) file_len)))
      (advance 2 w).
Proof.
  intros HL Hbuf. cbn [shred_passes].
  rewrite randint_draw, urandom_draw.
  destruct (drawn_chunk_length w (w_rand_pos w) file_len HL) as [Hlen Hc].
  rewrite <- Hlen at 1. rewrite overwrite_pass_buf by (rewrite ?Hlen; auto).
  reflexivity.
Qed.

Lemma pass_pattern_length (file_len : nat) (data : bytes) :
  1 <= length data -> length (pass_pattern file_len data) = file_len.
Proof.
  intros Hc. unfold pass_pattern.
  rewrite length_app, length_concat_repeat, length_take.
  pose proof (Nat.div_mod_eq file_len (length data)).
  pose proof (Nat.mod_upper_bound file_len (length data) ltac:(lia)). lia.
Qed.

Lemma advance_add (n m : nat) (w : world) : advance n (advance m w) = advance (m + n) w.
Proof.
  revert w. induction m as [|m IH]; intros w; [reflexivity|].
  cbn [advance Nat.add]. apply IH.
Qed.

Lemma drawn_chunk_advance (n pos file_len : nat) (w : world) :
  drawn_chunk (advance n w) pos file_len = drawn_chunk w pos file_len.
Proof.
  destruct (advance_fields n w) as (_ & Hn & Hb & _).
  unfold drawn_chunk, drawn_chunk_len. now rewrite Hn, Hb.
Qed.

Lemma shred_passes_last (n file_len : nat) (fh : Os.file_handle) (w : world) :
  2 <= file_len ->
  length (Os.fh_buf fh) <= file_len ->
  shred_passes (S n) file_len (Nat.min MAX_CHUNK_LEN file_len) fh w
  = (Ok tt,
     Os.mk_fh file_len
       (pass_pattern file_len (drawn_chunk w (2 * n + w_rand_pos w) file_len)),
     advance (2 * S n) w).
Proof.
  intros HL. revert fh w. induction n as [|n IH]; intros fh w Hbuf.
  - rewrite shred_passes_step by assumption. reflexivity.
  - rewrite shred_passes_step by assumption.
    rewrite IH.
    + rewrite drawn_chunk_advance, advance_add.
      destruct (advance_fields 2 w) as (_ & _ & _ & Hpos). rewrite Hpos.
      replace (2 * n + (2 + w_rand_pos w)) with (2 * S n + w_rand_pos w) by lia.
      replace (2 + 2 * S n) with (2 * S (S n)) by lia.
      reflexivity.
    + cbn [Os.fh_buf]. rewrite pass_pattern_length; [lia|].
      destruct (drawn_chunk_length w (w_rand_pos w) file_len HL) as [Hlen Hc]. lia.
Qed.

Lemma io_bind_eq {A C} (m : io A) (k : A -> io C) (w w1 : world) (a : A) :
  m w = (Ok a, w1) -> io_bind m k w = k a w1.
Proof. intros H. unfold io_bind. now rewrite H. Qed.

Lemma io_bind_raise {A C} (m : io A) (k : A -> io C) (w w1 : world) (e : exn) :
  m w = (Raise e, w1) -> io_bind m k w = (Raise e, w1).
Proof. intros H. unfold io_bind. now rewrite H. Qed.

Lemma path_getsize_eq (p : string) (w : world) (f : file) :
  w_fs w !! p = Some f -> Os.path_getsize p w = (Ok (length (f_data f)), w).
Proof. intros H. unfold Os.path_getsize, io_bind, Os.stat. now rewrite H. Qed.

Lemma path_isfile_eq (p : string) (w : world) :
  Os.path_isfile p w = (Ok (bool_decide (is_Some (w_fs w !! p))), w).
Proof.
  unfold Os.path_isfile. destruct (w_fs w !! p) eqn:E.
  - now rewrite bool_decide_true by eauto.
  - rewrite bool_decide_false; [reflexivity|]. now intros [? ?].
Qed.

Lemma open_wb_existing (p : string) (w : world) (f : file) :
  w_fs w !! p = Some f ->
  Os.open_wb p w
  = (Ok (Os.mk_fh 0 []),
     set_fs (<[p := mk_file (f_mode f) (f_uid f) (f_gid f) []]> (w_fs w)) w).
Proof. intros H. unfold Os.open_wb. now rewrite H. Qed.

Lemma open_wb_new (p : string) (w : world) :
  w_fs w !! p = None ->
  Os.open_wb p w
  = (Ok (Os.mk_fh 0 []),
     set_fs (<[p := mk_file (N.ldiff 438 (w_umask w)) (w_euid w) (w_egid w) []]> (w_fs w))
            w).
Proof. intros H. unfold Os.open_wb. now rewrite H. Qed.

Lemma close_eq (p : string) (fh : Os.file_handle) (w : world) (f : file) :
  w_fs w !! p = Some f ->
  Os.close p fh w
  = (Ok tt,
     set_fs (<[p := mk_file (f_mode f) (f_uid f) (f_gid f) (Os.fh_buf fh)]> (w_fs w)) w).
Proof. intros H. unfold Os.close. now rewrite H. Qed.

Lemma shred_file_custom_run (p : string) (w : world) (f : file) :
  w_fs w !! p = Some f ->
  2 <= length (f_data f) ->
  let file_len := length (f_data f) in
  let pattern := pass_pattern file_len (drawn_chunk w (4 + w_rand_pos w) file_len) in
  let w1 := set_fs (<[p := mk_file (f_mode f) (f_uid f) (f_gid f) []]> (w_fs w)) w in
  _shred_file_custom p w
  = (Ok tt,
     set_fs (<[p := mk_file (f_mode f) (f_uid f) (f_gid f) pattern]> (w_fs w1))
            (advance 6 w1)).
Proof.
  intros Hf HL file_len pattern w1.
  unfold _shred_file_custom.
  rewrite (io_bind_eq _ _ _ _ _ (path_getsize_eq p w f Hf)). fold file_len.
  replace (0 <? file_len) with true by (symmetry; apply Nat.ltb_lt; lia).
  rewrite (io_bind_eq _ _ _ _ _ (open_wb_existing p w f Hf)). fold w1.
  rewrite (shred_passes_last 2 file_len (Os.mk_fh 0 []) w1 HL) by (simpl; lia).
  destruct (advance_fields 6 w1) as (Hfs & _ & _ & _).
  assert (Hf1 : w_fs (advance 6 w1) !! p
                = Some (mk_file (f_mode f) (f_uid f) (f_gid f) []))
    by (rewrite Hfs; apply lookup_insert_eq).
  assert (Hdraw : drawn_chunk w1 (2 * 2 + w_rand_pos w1) file_len
                  = drawn_chunk w (4 + w_rand_pos w) file_len)
    by (unfold drawn_chunk, drawn_chunk_len; reflexivity).
  rewrite Hdraw. fold pattern.
  change (2 * 3) with 6.
  rewrite (close_eq p _ _ _ Hf1). rewrite Hfs.
  cbn [f_mode f_uid f_gid Os.fh_buf]. reflexivity.
Qed.



(** ** The editor: the custom shred on a file of one byte *)

Lemma drawn_chunk_len_one (w : world) (pos : nat) :
  drawn_chunk_len w pos 1 = w_rand_nat w pos mod 2.
Proof.
  unfold drawn_chunk_len. cbv zeta.
  replace (Nat.min MAX_CHUNK_LEN 1) with 1 by (unfold MAX_CHUNK_LEN; lia).
  reflexivity.
Qed.

Lemma shred_file_custom_one_byte_run (p : string) (w : world) (f : file) :
  w_fs w !! p = Some f ->
  length (f_data f) = 1 ->
  w_rand_nat w (w_rand_pos w) mod 2 = 0 ->
  let w1 := set_fs (<[p := mk_file (f_mode f) (f_uid f) (f_gid f) []]> (w_fs w)) w in
  _shred_file_custom p w
  = (Raise ZeroDivisionError,
     set_fs (<[p := mk_file (f_mode f) (f_uid f) (f_gid f) []]> (w_fs w1)) (advance 2 w1)).
Proof.
  intros Hf HL Hdraw w1.
  unfold _shred_file_custom.
  rewrite (io_bind_eq _ _ _ _ _ (path_getsize_eq p w f Hf)). rewrite HL.
  change (0 <? 1) with true. cbv iota.
  rewrite (io_bind_eq _ _ _ _ _ (open_wb_existing p w f Hf)). fold w1.
  cbn [shred_passes]. rewrite randint_draw, urandom_draw.
  assert (Hlen : drawn_chunk_len w1 (w_rand_pos w1) 1 = 0)
    by (rewrite drawn_chunk_len_one; exact Hdraw).
  rewrite Hlen.
  change (overwrite_pass 1 0 (drawn_chunk w1 (w_rand_pos w1) 1) (Os.mk_fh 0 []))
    with (@Raise unit ZeroDivisionError, Os.mk_fh 0 []).
  cbv iota.
  destruct (advance_fields 2 w1) as (Hfs & _ & _ & _).
  assert (Hf1 : w_fs (advance 2 w1) !! p
                = Some (mk_file (f_mode f) (f_uid f) (f_gid f) []))
    by (rewrite Hfs; apply lookup_insert_eq).
  rewrite (close_eq p _ _ _ Hf1), Hfs. reflexivity.
Qed.

Lemma call_shred_unavailable (p : string) (w : world) :
  w_shred w = None ->
  try_except (Os.call_shred p)
             (fun e => match e with
                       | OSError => ret 1%Z
                       | _ => raise e
                       end) w
  = (Ok 1%Z, w).
Proof. intros H. unfold try_except, Os.call_shred. now rewrite H. Qed.

Lemma shred_file_present (p : string) (w : world) (f : file) :
  w_fs w !! p = Some f ->
  _shred_file p w
  = (let! r := try_except (Os.call_shred p)
                          (fun e => match e with
                                    | OSError => ret 1%Z
                                    | _ => raise e
                                    end) in
     let! _ := (if negb (r =? 0)%Z then _shred_file_custom p else ret tt) in
     Os.remove p) w.
Proof.
  intros Hf. unfold _shred_file at 1.
  rewrite (io_bind_eq _ _ _ _ _ (path_isfile_eq p w)).
  rewrite bool_decide_true by eauto. reflexivity.
Qed.

(** X11: with no shred to call, _shred_file on a file of exactly one byte
    raises ZeroDivisionError whenever random.randint(0, 1) draws 0 for the
    chunk length: the file is not removed, it stays in place with its mode
    and owner and no content, and every other file is as it was. *)
Theorem shred_file_one_byte (p : string) (w : world) (f : file) :
  w_shred w = None ->
  w_fs w !! p = Some f ->
  length (f_data f) = 1 ->
  w_rand_nat w (w_rand_pos w) mod 2 = 0 ->
  exists w',
    _shred_file p w = (Raise ZeroDivisionError, w')
    /\ w_fs w' !! p = Some (mk_file (f_mode f) (f_uid f) (f_gid f) [])
    /\ same_elsewhere p w w'.
Proof.
  intros Hshred Hf HL Hdraw.
  rewrite (shred_file_present p w f Hf).
  rewrite (io_bind_eq _ _ _ _ _ (call_shred_unavailable p w Hshred)).
  change (negb (1 =? 0)%Z) with true. cbv iota.
  rewrite (io_bind_raise _ _ _ _ _ (shred_file_custom_one_byte_run p w f Hf HL Hdraw)).
  eexists. split; [reflexivity|]. split.
  - cbn [w_fs set_fs]. apply lookup_insert_eq.
  - intros other Hne. cbn [w_fs set_fs]. now rewrite !lookup_insert_ne.
Qed.

Lemma shred_file_one_byte_witness :
  let w := set_fs {[ "key"%string := mk_file 384 1000 1000 [x41] ]} Example.world0 in
  exists w',
    _shred_file "key" (next_random w) = (Raise ZeroDivisionError, w')
    /\ w_fs w' !! "key"%string = Some (mk_file 384 1000 1000 []).
Proof.
  intros w.
  destruct (shred_file_one_byte "key" (next_random w) (mk_file 384 1000 1000 [x41]))
    as (w' & Hrun & Hfile & _); try reflexivity.
  exists w'. split; [exact Hrun | exact Hfile].
Defined.

(** ** The editor: _shred_file, as a whole *)

Lemma remove_eq (p : string) (w : world) (f : file) :
  w_fs w !! p = Some f -> Os.remove p w = (Ok tt, set_fs (delete p (w_fs w)) w).
Proof. intros H. unfold Os.remove. now rewrite H. Qed.

Lemma shred_file_custom_empty (p : string) (w : world) (f : file) :
  w_fs w !! p = Some f -> f_data f = [] -> _shred_file_custom p w = (Ok tt, w).
Proof.
  intros Hf Hdata. unfold _shred_file_custom.
  rewrite (io_bind_eq _ _ _ _ _ (path_getsize_eq p w f Hf)), Hdata. reflexivity.
Qed.

Lemma shred_file_succeeds (p : string) (w : world) (f : file) :
  w_fs w !! p = Some f ->
  (w_shred w = None /\ length (f_data f) <> 1)
  \/ (exists tool, w_shred w = Some tool /\ (tool (f_data f)).1 = 0%Z) ->
  exists w', _shred_file p w = (Ok tt, w').
Proof.
  intros Hf [[Hshred HL]|(tool & Hshred & Hstatus)]; rewrite (shred_file_present p w f Hf).
  - rewrite (io_bind_eq _ _ _ _ _ (call_shred_unavailable p w Hshred)).
    change (negb (1 =? 0)%Z) with true. cbv iota.
    destruct (f_data f) as [|c [|c' data]] eqn:Hdata; [| simpl in HL; lia |].
    + rewrite (io_bind_eq _ _ _ _ _ (shred_file_custom_empty p w f Hf Hdata)).
      rewrite (remove_eq p w f Hf). eauto.
    + assert (HL2 : 2 <= length (f_data f)) by (rewrite Hdata; simpl; lia).
      rewrite (io_bind_eq _ _ _ _ _ (shred_file_custom_run p w f Hf HL2)).
      erewrite remove_eq; [eauto|]. cbn [w_fs set_fs]. apply lookup_insert_eq.
  - unfold io_bind at 1, try_except, Os.call_shred. rewrite Hshred, Hf.
    destruct (tool (f_data f)) as [status data] eqn:Htool. simpl in Hstatus. subst status.
    change (negb (0 =? 0)%Z) with false. cbv iota.
    unfold io_bind, ret. erewrite remove_eq; [eauto|].
    cbn [w_fs set_fs]. apply lookup_insert_eq.
Qed.



(** ** The editor: write_data and read_data *)

Lemma write_new_file (data : bytes) : Os.fh_buf (Os.write data (Os.mk_fh 0 [])) = data.
Proof. unfold Os.write. simpl. rewrite drop_nil. apply app_nil_r. Qed.

Lemma read_data_file (p : string) (w : world) (f : file) :
  p <> "-"%string -> w_fs w !! p = Some f -> read_data p w = (Ok (f_data f), w).
Proof.
  intros Hp Hf. unfold read_data, try_except.
  rewrite bool_decide_false by assumption. now rewrite Hf.
Qed.

Lemma read_data_ok (p : string) (w w' : world) (data : bytes) :
  p <> "-"%string -> read_data p w = (Ok data, w') ->
  w' = w /\ exists f, w_fs w !! p = Some f /\ f_data f = data.
Proof.
  intros Hp. unfold read_data, try_except.
  rewrite bool_decide_false by assumption.
  destruct (w_fs w !! p) as [f|]; [|discriminate].
  intros [= <- <-]. eauto.
Qed.

(** The file that [write_data] leaves at a path where there is none. *)
Lemma write_at_free_path (data : bytes) (p : string) (w : world) :
  w_fs w !! p = None ->
  (let! fh := Os.open_wb p in Os.close p (Os.write data fh)) w
  = (Ok tt,
     set_fs (<[p := mk_file (N.ldiff 438 (w_umask w)) (w_euid w) (w_egid w) data]> (w_fs w))
            w).
Proof.
  intros Hfree. rewrite (io_bind_eq _ _ _ _ _ (open_wb_new p w Hfree)).
  erewrite close_eq by (cbn [w_fs set_fs]; apply lookup_insert_eq).
  cbn [w_fs set_fs f_mode f_uid f_gid]. rewrite write_new_file, insert_insert_eq.
  reflexivity.
Qed.

Lemma write_data_ok (data : bytes) (p : string) (shred : bool) (w w' : world) :
  p <> "-"%string ->
  write_data data p shred w = (Ok tt, w') ->
  w_fs w' !! p = Some (mk_file (N.ldiff 438 (w_umask w)) (w_euid w) (w_egid w) data)
  /\ same_elsewhere p w w'
  /\ same_process w w'.
Proof.
  intros Hp. unfold write_data. rewrite bool_decide_false by assumption.
  rewrite (io_bind_eq _ _ _ _ _ (path_isfile_eq p w)).
  intros H. apply io_bind_ok in H as ([] & w2 & Hclear & H).
  assert (Hw2 : w_fs w2 !! p = None /\ same_elsewhere p w w2 /\ same_process w w2).
  { destruct (w_fs w !! p) as [f|] eqn:Hf.
    - rewrite bool_decide_true in Hclear by eauto.
      destruct shred; [now apply shred_file_ok|].
      rewrite (remove_eq p w f Hf) in Hclear. injection Hclear as <-.
      split; [cbn [w_fs set_fs]; apply lookup_delete_eq|].
      split; [apply same_elsewhere_delete | apply same_process_set_fs].
    - rewrite bool_decide_false in Hclear by (now intros [? ?]).
      injection Hclear as <-.
      split; [exact Hf | split; [apply same_elsewhere_refl | apply same_process_refl]]. }
  destruct Hw2 as (Hfree & Hframe & Hproc).
  rewrite (write_at_free_path data p w2 Hfree) in H. injection H as <-.
  destruct Hproc as (Hu & He & Hg & Hs).
  split; [cbn [w_fs set_fs]; rewrite <- Hu, <- He, <- Hg; apply lookup_insert_eq|].
  split.
  - eapply same_elsewhere_trans; [exact Hframe | apply same_elsewhere_insert].
  - repeat split; assumption.
Qed.

Lemma write_data_unshredded (data : bytes) (p : string) (w : world) :
  p <> "-"%string -> exists w', write_data data p false w = (Ok tt, w').
Proof.
  intros Hp. unfold write_data. rewrite bool_decide_false by assumption.
  rewrite (io_bind_eq _ _ _ _ _ (path_isfile_eq p w)).
  destruct (w_fs w !! p) as [f|] eqn:Hf.
  - rewrite bool_decide_true by eauto.
    rewrite (io_bind_eq _ _ _ _ _ (remove_eq p w f Hf)).
    rewrite write_at_free_path by (cbn [w_fs set_fs]; apply lookup_delete_eq). eauto.
  - rewrite bool_decide_false by (now intros [? ?]).
    unfold io_bind at 1, ret. rewrite (write_at_free_path data p w Hf). eauto.
Qed.



(** ** The editor: shuffle_files *)

Lemma mode_bits_of_stat (m : N) :
  N.land (N.lor Os.S_IFREG (N.land m Os.S_IALLUGO)) Os.S_IALLUGO = N.land m Os.S_IALLUGO.
Proof.
  rewrite N.land_lor_distr_l.
  change (N.land Os.S_IFREG Os.S_IALLUGO) with 0%N. rewrite N.lor_0_l.
  now rewrite <- N.land_assoc, N.land_diag.
Qed.

Lemma stat_eq (p : string) (w : world) (f : file) :
  w_fs w !! p = Some f ->
  Os.stat p w
  = (Ok (mk_stat (N.lor Os.S_IFREG (N.land (f_mode f) Os.S_IALLUGO))
                 (f_uid f) (f_gid f) (length (f_data f))), w).
Proof. intros H. unfold Os.stat. now rewrite H. Qed.

Lemma chmod_eq (p : string) (mode : N) (w : world) (f : file) :
  w_fs w !! p = Some f ->
  Os.chmod p mode w
  = (Ok tt, set_fs (<[p := mk_file (N.land mode Os.S_IALLUGO) (f_uid f) (f_gid f)
                                   (f_data f)]> (w_fs w)) w).
Proof. intros H. unfold Os.chmod. now rewrite H. Qed.

Lemma chown_eq (p : string) (uid gid : N) (w : world) (f : file) :
  w_fs w !! p = Some f ->
  Os.chown p uid gid w
  = (Ok tt, set_fs (<[p := mk_file (f_mode f) uid gid (f_data f)]> (w_fs w)) w).
Proof. intros H. unfold Os.chown. now rewrite H. Qed.

Lemma move_eq (src dest : string) (w : world) (f : file) :
  w_fs w !! src = Some f ->
  Shutil.move src dest w = (Ok tt, set_fs (<[dest := f]> (delete src (w_fs w))) w).
Proof. intros H. unfold Shutil.move. now rewrite H. Qed.

Lemma move_missing (src dest : string) (w : world) :
  w_fs w !! src = None -> Shutil.move src dest w = (Raise OSError, w).
Proof. intros H. unfold Shutil.move. now rewrite H. Qed.

(** The first step of [shuffle_files] on a [dest] that exists. *)
Lemma shuffle_files_clears (dest : string) (w : world) (d : file) :
  w_fs w !! dest = Some d ->
  (let! st := Os.stat dest in
   let! _ := Os.remove dest in
   ret (Some st)) w
  = (Ok (Some (mk_stat (N.lor Os.S_IFREG (N.land (f_mode d) Os.S_IALLUGO))
                       (f_uid d) (f_gid d) (length (f_data d)))),
     set_fs (delete dest (w_fs w)) w).
Proof.
  intros Hdest.
  rewrite (io_bind_eq _ _ _ _ _ (stat_eq dest w d Hdest)).
  rewrite (io_bind_eq _ _ _ _ _ (remove_eq dest w d Hdest)). reflexivity.
Qed.

(** The file that [shuffle_files] leaves at [dest]: the bytes of [src], with
    the mode and owner [dest] had, or those of [src] when there was no
    [dest]. *)
Lemma shuffle_files_run (src dest : string) (w : world) (f : file) :
  src <> dest -> w_fs w !! src = Some f ->
  shuffle_files src dest w
  = (Ok tt,
     set_fs (<[dest := match w_fs w !! dest with
                       | Some d => mk_file (N.land (f_mode d) Os.S_IALLUGO)
                                           (f_uid d) (f_gid d) (f_data f)
                       | None => f
                       end]> (delete src (w_fs w))) w).
Proof.
  intros Hne Hsrc. unfold shuffle_files.
  rewrite (io_bind_eq _ _ _ _ _ (path_isfile_eq dest w)).
  destruct (w_fs w !! dest) as [d|] eqn:Hdest.
  - rewrite bool_decide_true by eauto. cbv iota.
    rewrite (io_bind_eq _ _ _ _ _ (shuffle_files_clears dest w d Hdest)).
    erewrite (io_bind_eq _ _ _ _ _ (move_eq src dest _ f _)).
    erewrite (io_bind_eq _ _ _ _ _ (chmod_eq dest _ _ _ _)).
    erewrite chown_eq by (cbn [w_fs set_fs]; apply lookup_insert_eq).
    cbn [w_fs set_fs f_mode f_uid f_gid f_data st_mode st_uid st_gid].
    rewrite !insert_insert_eq, mode_bits_of_stat.
    rewrite (delete_delete (w_fs w) src dest), insert_delete_eq. reflexivity.
  - rewrite bool_decide_false by (now intros [? ?]). cbv iota.
    unfold io_bind at 1, ret at 1.
    rewrite (io_bind_eq _ _ _ _ _ (move_eq src dest w f Hsrc)). reflexivity.
  Unshelve.
  + cbn [w_fs set_fs]. rewrite lookup_delete_ne by congruence. exact Hsrc.
  + cbn [w_fs set_fs]. apply lookup_insert_eq.
Qed.


(** X15: shuffle_files removes [dest] before it moves [src]: when [src]
    holds no file, or is [dest] itself, the call raises, and afterwards
    there is no file at [dest] any more, while all other files are as they
    were. *)
Theorem shuffle_files_missing_source (src dest : string) (w : world) :
  w_fs w !! src = None \/ src = dest ->
  exists e w',
    shuffle_files src dest w = (Raise e, w')
    /\ w_fs w' !! dest = None
    /\ same_elsewhere dest w w'.
Proof.
  intros Hsrc. unfold shuffle_files.
  rewrite (io_bind_eq _ _ _ _ _ (path_isfile_eq dest w)).
  destruct (w_fs w !! dest) as [d|] eqn:Hdest.
  - rewrite bool_decide_true by eauto. cbv iota.
    rewrite (io_bind_eq _ _ _ _ _ (shuffle_files_clears dest w d Hdest)).
    assert (Hgone : w_fs (set_fs (delete dest (w_fs w)) w) !! src = None).
    { cbn [w_fs set_fs]. destruct Hsrc as [Hsrc| ->]; [|apply lookup_delete_eq].
      destruct (decide (src = dest)) as [->|Hne]; [apply lookup_delete_eq|].
      rewrite lookup_delete_ne by congruence. exact Hsrc. }
    rewrite (io_bind_raise _ _ _ _ _ (move_missing src dest _ Hgone)).
    eexists _, _. split; [reflexivity|].
    split; [cbn [w_fs set_fs]; apply lookup_delete_eq | apply same_elsewhere_delete].
  - rewrite bool_decide_false by (now intros [? ?]). cbv iota.
    unfold io_bind at 1, ret at 1.
    assert (Hgone : w_fs w !! src = None) by (destruct Hsrc as [?| ->]; assumption).
    rewrite (io_bind_raise _ _ _ _ _ (move_missing src dest _ Hgone)).
    eexists _, _. split; [reflexivity|].
    split; [exact Hdest | apply same_elsewhere_refl].
Qed.

(** ** The editor: what it writes can be read back *)

Section EditorRoundTrips.
Context {L : CryptoLib}.

Hypothesis HMAC_digest_size : forall key msg, length (HMAC_SHA256 key msg) = 32.
Hypothesis AES_CTR_inverse :
  forall key iv data, AES_CTR_decrypt key iv (AES_CTR_encrypt key iv data) = data.
Hypothesis b64_inverse : forall s, b64decode (b64encode s) = Some s.
Hypothesis b64_no_newline : forall s, NL ∉ b64encode s.

(** What [VaultLib.encrypt] returns, [VaultLib.decrypt] of the same vault
    opens. *)
Lemma decrypt_encrypted (v : VaultLib) (salt data blob : bytes)
    (cipher_name : option bytes) :
  length salt = 32 ->
  VaultLib_encrypt v salt data cipher_name = Ok blob ->
  VaultLib_decrypt v blob = Ok (B "1.2", B "AES256", B "1.2", data).
Proof.
  intros Hsalt Henc.
  destruct (VaultLib_encrypt_blob _ _ _ _ _ Henc)
    as (Hplain & password & body & Hpw & Hbody & ->).
  destruct v as [pw]. cbn [b_password] in Hpw. subst pw.
  rewrite VaultAES256_encrypt_eq in Hbody. cbv zeta in Hbody. injection Hbody as <-.
  rewrite (VaultLib_decrypt_AES256 _ _ _ _ _ (parse_own_header _)).
  erewrite VaultAES256_decrypt_unpacked;
    [| apply (unpack_wrapped_message b64_inverse b64_no_newline);
       [discriminate | assumption | apply HMAC_digest_size]].
  rewrite is_equal_refl. cbn [negb].
  rewrite bool_decide_false by discriminate. cbv zeta.
  rewrite AES_CTR_inverse. reflexivity.
Qed.

Lemma vault_encrypt_ok (v : VaultLib) (data blob : bytes) (cipher_name : option bytes)
    (w w' : world) :
  vault_encrypt v data cipher_name w = (Ok blob, w') ->
  VaultLib_decrypt v blob = Ok (B "1.2", B "AES256", B "1.2", data)
  /\ is_encrypted data = false
  /\ w_fs w' = w_fs w
  /\ same_process w w'.
Proof.
  unfold vault_encrypt, Os.urandom.
  destruct (VaultLib_encrypt v _ data cipher_name) as [blob'|e] eqn:Henc; [|discriminate].
  intros [= <- <-].
  split; [eapply decrypt_encrypted; [|exact Henc]|].
  - now rewrite length_map, length_seq.
  - split; [apply (VaultLib_encrypt_blob _ _ _ _ _ Henc)|].
    split; [reflexivity | repeat split].
Qed.

Lemma plaintext_of_file (self : VaultEditor) (p : string) (w : world) (f : file)
    (v n c data : bytes) :
  p <> "-"%string -> w_fs w !! p = Some f ->
  VaultLib_decrypt (vault self) (f_data f) = Ok (v, n, c, data) ->
  VaultEditor_plaintext self p w = (Ok data, w).
Proof.
  intros Hp Hf Hdec. unfold VaultEditor_plaintext.
  rewrite (io_bind_eq _ _ _ _ _ (read_data_file p w f Hp Hf)).
  unfold io_bind, lift. rewrite Hdec. reflexivity.
Qed.

Lemma encrypt_file_ok (self : VaultEditor) (filename : string)
    (output_file : option string) (w w' : world) :
  filename <> "-"%string -> output_or output_file filename <> "-"%string ->
  encrypt_file self filename output_file w = (Ok tt, w') ->
  exists f blob,
    w_fs w !! filename = Some f
    /\ is_encrypted (f_data f) = false
    /\ VaultLib_decrypt (vault self) blob = Ok (B "1.2", B "AES256", B "1.2", f_data f)
    /\ w_fs w' !! output_or output_file filename
       = Some (mk_file (N.ldiff 438 (w_umask w)) (w_euid w) (w_egid w) blob)
    /\ same_elsewhere (output_or output_file filename) w w'.
Proof.
  intros Hin Hout H. unfold encrypt_file in H.
  apply io_bind_ok in H as (plaintext & w1 & Hread & H).
  destruct (read_data_ok _ _ _ _ Hin Hread) as (-> & f & Hf & <-).
  apply io_bind_ok in H as (blob & w2 & Henc & H).
  destruct (vault_encrypt_ok _ _ _ _ _ _ Henc) as (Hdec & Hplain & Hfs & Hproc).
  destruct (write_data_ok _ _ _ _ _ Hout H) as (Hfile & Hframe & _).
  destruct Hproc as (Hu & He & Hg & _).
  exists f, blob. split; [exact Hf|]. split; [exact Hplain|]. split; [exact Hdec|].
  split; [rewrite <- Hu, <- He, <- Hg; exact Hfile|].
  intros other Hne. rewrite (Hframe other Hne). now rewrite Hfs.
Qed.

(** X16: when encrypt_file returns (for paths other than '-'), the input
    file did not start with the vault header, and plaintext() of the output
    path, with the same editor, returns exactly the bytes the input file
    had; only the output path has changed, so that with a separate
    output_file the input stays in place, in clear. *)
Theorem encrypt_file_then_plaintext (self : VaultEditor) (filename : string)
    (output_file : option string) (w w' : world) :
  filename <> "-"%string -> output_or output_file filename <> "-"%string ->
  encrypt_file self filename output_file w = (Ok tt, w') ->
  exists f,
    w_fs w !! filename = Some f
    /\ is_encrypted (f_data f) = false
    /\ VaultEditor_plaintext self (output_or output_file filename) w' = (Ok (f_data f), w')
    /\ same_elsewhere (output_or output_file filename) w w'.
Proof.
  intros Hin Hout H.
  destruct (encrypt_file_ok self filename output_file w w' Hin Hout H)
    as (f & blob & Hf & Hplain & Hdec & Hfile & Hframe).
  exists f. split; [exact Hf|]. split; [exact Hplain|]. split; [|exact Hframe].
  exact (plaintext_of_file self _ w' _ _ _ _ _ Hout Hfile Hdec).
Qed.

Lemma rekey_file_run (self : VaultEditor) (filename : string) (new_password : bytes)
    (w w' : world) :
  filename <> "-"%string ->
  rekey_file self filename new_password w = (Ok tt, w') ->
  exists f f' v n c plaintext,
    w_fs w !! filename = Some f
    /\ VaultLib_decrypt (vault self) (f_data f) = Ok (v, n, c, plaintext)
    /\ w_fs w' !! filename = Some f'
    /\ VaultLib_decrypt {| b_password := Some new_password |} (f_data f')
       = Ok (B "1.2", B "AES256", B "1.2", plaintext).
Proof.
  intros Hp H. unfold rekey_file in H.
  apply io_bind_ok in H as (prev & w0 & Hstat & H).
  destruct (stat_ok _ _ _ _ Hstat) as [-> _].
  apply io_bind_ok in H as (ciphertext & wa & Hread & H).
  destruct (read_data_ok _ _ _ _ Hp Hread) as (-> & f & Hf & <-).
  apply io_bind_ok in H as ([[[v n] c] plaintext] & wb & Hdec & H).
  unfold lift in Hdec. injection Hdec as Hdec <-.
  apply io_bind_ok in H as (new_ciphertext & wc & Henc & H).
  destruct (vault_encrypt_ok _ _ _ _ _ _ Henc) as (Hnew & _).
  apply io_bind_ok in H as ([] & wd & Hwrite & H).
  destruct (write_data_ok _ _ _ _ _ Hp Hwrite) as (Hfile & _).
  apply io_bind_ok in H as ([] & we & Hchmod & Hchown).
  destruct (chmod_ok _ _ _ _ Hchmod) as (f1 & Hf1 & Hfs2).
  destruct (chown_ok _ _ _ _ _ Hchown) as (f2 & Hf2 & Hfs').
  rewrite Hfile in Hf1. injection Hf1 as <-.
  rewrite Hfs2, lookup_insert_eq in Hf2. injection Hf2 as <-.
  cbn [f_mode f_uid f_gid f_data] in Hfs'.
  eexists f, _, v, n, c, plaintext.
  split; [exact Hf|]. split; [exact Hdec|].
  split; [rewrite Hfs'; apply lookup_insert_eq|]. exact Hnew.
Qed.


(** ** The editor: _edit_file_helper and its callers *)

Lemma edit_file_helper_prepares (tmp_path : string) (existing_data : option bytes)
    (w : world) :
  tmp_path <> "-"%string ->
  (match existing_data with
   | Some (c :: data) => write_data (c :: data) tmp_path false
   | _ => ret tt
   end) (set_fs (<[tmp_path := mk_file 384 (w_euid w) (w_egid w) []]> (w_fs w)) w)
  = (Ok tt, editor_start tmp_path existing_data w).
Proof.
  intros Hp. unfold editor_start.
  destruct existing_data as [[|c data]|]; try reflexivity.
  unfold write_data. rewrite bool_decide_false by assumption.
  rewrite (io_bind_eq _ _ _ _ _ (path_isfile_eq _ _)).
  set (w0 := set_fs _ w).
  assert (Htmp : w_fs w0 !! tmp_path = Some (mk_file 384 (w_euid w) (w_egid w) []))
    by (unfold w0; cbn [w_fs set_fs]; apply lookup_insert_eq).
  rewrite Htmp, bool_decide_true by eauto. cbv iota.
  rewrite (io_bind_eq _ _ _ _ _ (remove_eq tmp_path w0 _ Htmp)).
  rewrite write_at_free_path by (cbn [w_fs set_fs]; apply lookup_delete_eq).
  unfold w0. cbn [w_fs set_fs w_umask w_euid w_egid].
  rewrite insert_delete_eq, insert_insert_eq. reflexivity.
Qed.

(** The steps of a run of [_edit_file_helper] that returns. *)
Lemma edit_file_helper_ok (self : VaultEditor) (tmp_path : string)
    (editor : string -> io Z) (filename : string) (existing_data : option bytes)
    (force_save : bool) (w w' : world) :
  tmp_path <> "-"%string -> tmp_path <> filename ->
  _edit_file_helper self tmp_path editor filename existing_data force_save w = (Ok tt, w') ->
  exists status w1 f,
    editor tmp_path (editor_start tmp_path existing_data w) = (Ok status, w1)
    /\ w_fs w1 !! tmp_path = Some f
    /\ w_fs w' !! tmp_path = None
    /\ (forall other, other <> tmp_path -> other <> filename ->
          w_fs w' !! other = w_fs w1 !! other)
    /\ if bool_decide (existing_data = Some (f_data f)) && negb force_save
       then w_fs w' !! filename = w_fs w1 !! filename
       else exists blob,
              VaultLib_decrypt (vault self) blob
              = Ok (B "1.2", B "AES256", B "1.2", f_data f)
              /\ w_fs w' !! filename
                 = Some (match w_fs w1 !! filename with
                         | Some d => mk_file (N.land (f_mode d) 4095) (f_uid d) (f_gid d) blob
                         | None => mk_file (N.ldiff 438 (w_umask w1)) (w_euid w1)
                                           (w_egid w1) blob
                         end).
Proof.
  intros Hp Hne H. unfold _edit_file_helper in H.
  rewrite (io_bind_eq _ _ _ _ _ (eq_refl : mkstemp tmp_path w = (Ok tt, _))) in H.
  rewrite (io_bind_eq _ _ _ _ _ (edit_file_helper_prepares _ existing_data w Hp)) in H.
  apply io_bind_ok in H as (status & w1 & Hcall & H).
  unfold try_except in Hcall.
  destruct (editor tmp_path _) as [[status'|e] w1'] eqn:Hed.
  2:{ apply io_bind_ok in Hcall as (? & ? & _ & Hcall). discriminate. }
  injection Hcall as -> ->.
  apply io_bind_ok in H as (tmpdata & w1' & Hread & H).
  destruct (read_data_ok _ _ _ _ Hp Hread) as (-> & f & Hf & <-).
  exists status, w1, f. split; [reflexivity|]. split; [exact Hf|].
  destruct (bool_decide (existing_data = Some (f_data f)) && negb force_save).
  - destruct (shred_file_ok _ _ _ H) as (Hgone & Hframe & _).
    split; [exact Hgone|].
    split; [intros other H1 _; exact (Hframe other H1)|].
    apply Hframe. congruence.
  - apply io_bind_ok in H as (enc_data & w2 & Henc & H).
    destruct (vault_encrypt_ok _ _ _ _ _ _ Henc) as (Hdec & _ & Hfs & Hproc).
    apply io_bind_ok in H as ([] & w3 & Hwrite & H).
    destruct (write_data_ok _ _ _ _ _ Hp Hwrite) as (Hfile & Hframe & _).
    rewrite (shuffle_files_run _ _ _ _ Hne Hfile) in H. injection H as <-.
    cbn [w_fs set_fs].
    split; [rewrite lookup_insert_ne by congruence; apply lookup_delete_eq|].
    split.
    + intros other H1 H2. rewrite lookup_insert_ne by congruence.
      rewrite lookup_delete_ne by congruence. rewrite (Hframe other H1). now rewrite Hfs.
    + exists enc_data. split; [exact Hdec|].
      rewrite lookup_insert_eq.
      assert (Hsame : w_fs w3 !! filename = w_fs w1 !! filename).
      { rewrite (Hframe filename) by congruence. now rewrite Hfs. }
      rewrite Hsame. destruct (w_fs w1 !! filename); [reflexivity|].
      destruct Hproc as (-> & -> & -> & _). reflexivity.
Qed.


(** X19: when the call of the editor raises, _edit_file_helper never
    returns normally and changes no file but the temporary one: either
    _shred_file succeeds, the temporary file is gone and the exception of
    the editor is raised again, or the exception of _shred_file is raised
    in its place. *)
Theorem edit_file_helper_editor_fails (self : VaultEditor) (tmp_path : string)
    (editor : string -> io Z) (filename : string) (existing_data : option bytes)
    (force_save : bool) (w w1 : world) (e : exn) :
  tmp_path <> "-"%string ->
  editor tmp_path (editor_start tmp_path existing_data w) = (Raise e, w1) ->
  exists e' w',
    _edit_file_helper self tmp_path editor filename existing_data force_save w
    = (Raise e', w')
    /\ same_elsewhere tmp_path w1 w'
    /\ (_shred_file tmp_path w1 = (Raise e', w')
        \/ _shred_file tmp_path w1 = (Ok tt, w') /\ e' = e /\ w_fs w' !! tmp_path = None).
Proof.
  intros Hp Hed. unfold _edit_file_helper.
  rewrite (io_bind_eq _ _ _ _ _ (eq_refl : mkstemp tmp_path w = (Ok tt, _))).
  rewrite (io_bind_eq _ _ _ _ _ (edit_file_helper_prepares _ existing_data w Hp)).
  pose proof (touches_only_shred_file tmp_path w1) as Hframe.
  destruct (_shred_file tmp_path w1) as [[[]|e'] w'] eqn:Hshred.
  - exists e, w'. split.
    + apply io_bind_raise. unfold try_except. rewrite Hed.
      apply io_bind_eq with (1 := Hshred).
    + split; [exact Hframe|]. right. split; [reflexivity|]. split; [reflexivity|].
      exact (proj1 (shred_file_ok _ _ _ Hshred)).
  - exists e', w'. split.
    + apply io_bind_raise. unfold try_except. rewrite Hed.
      apply io_bind_raise with (1 := Hshred).
    + split; [exact Hframe|]. left. reflexivity.
Qed.



End EditorRoundTrips.

(** ** VaultFile *)

Lemma readline_startswith (prefix s : bytes) :
  NL ∉ prefix -> Py.startswith (readline s).1 prefix = Py.startswith s prefix.
Proof.
  revert s. induction prefix as [|p prefix IH]; intros s Hnl.
  - destruct s as [|c s]; [reflexivity|]. cbn [readline].
    destruct (decide (c = NL)); [reflexivity|]. now destruct (readline s).
  - apply not_elem_of_cons in Hnl as [Hp Hnl].
    destruct s as [|c s]; [reflexivity|]. cbn [readline].
    destruct (decide (c = NL)) as [->|Hc].
    + cbn [fst Py.startswith]. now rewrite !decide_False by assumption.
    + specialize (IH s Hnl). destruct (readline s) as [line rest].
      cbn [fst Py.startswith] in *. now rewrite IH.
Qed.

Lemma readline_first_line (line rest : bytes) :
  NL ∉ line -> readline (line ++ NL :: rest) = (line ++ [NL], rest).
Proof.
  induction line as [|c line IH]; intros Hnl.
  - cbn [app readline]. now rewrite decide_True by reflexivity.
  - apply not_elem_of_cons in Hnl as [Hc Hnl].
    cbn [app readline]. rewrite decide_False by congruence.
    now rewrite (IH Hnl).
Qed.

Lemma lstrip_elem (c : byte) (s : bytes) : c ∈ Py.lstrip s -> c ∈ s.
Proof.
  induction s as [|a s IH]; [easy|]. cbn [Py.lstrip].
  destruct (Py.isspace a); [|easy]. intros H. apply list_elem_of_further, IH, H.
Qed.

Lemma rev_elem (c : byte) (s : bytes) : c ∈ rev s <-> c ∈ s.
Proof. rewrite !list_elem_of_In. symmetry. apply in_rev. Qed.

Lemma strip_elem (c : byte) (s : bytes) : c ∈ Py.strip s -> c ∈ s.
Proof.
  unfold Py.strip, Py.rstrip. rewrite rev_elem. intros H.
  apply lstrip_elem in H. rewrite rev_elem in H. now apply lstrip_elem.
Qed.

(** Data without a semicolon in its first line has one header field. *)
Lemma parse_vault_header_no_semicolon (data : bytes) :
  SEMI ∉ data -> _parse_vault_header data = Raise (AnsibleError NotVault).
Proof.
  intros Hsemi. apply (parse_vault_header_outcome data). left.
  unfold header_fields.
  assert (Hline : SEMI ∉ nth 0 (Py.splitn 1 NL data) []).
  { destruct (decide (NL ∈ data)) as [Hnl|Hnl].
    - destruct (splitn_two_lines data Hnl) as (line & rest & E). rewrite E.
      apply splitn_two_inv in E as [-> _]. cbn [nth].
      intros H. apply Hsemi. apply elem_of_app. now left.
    - now rewrite (splitn_one_line data Hnl). }
  rewrite split_without_sep; [simpl; lia|].
  intros H. apply Hline. now apply strip_elem.
Qed.

Section VaultFileFacts.
Context {L : CryptoLib}.

Hypothesis b64_no_semicolon : forall s, SEMI ∉ b64encode s.

(** X22: VaultFile.get_decrypted never returns a file with decrypted data:
    whenever it returns, it returns self.filename, and the file does not
    start with the vault header. *)
Theorem get_decrypted_returns_the_filename (self self' : VaultFile) (r : string) :
  VaultFile_get_decrypted self = (Ok r, self') ->
  r = vf_filename self /\ is_encrypted (vf_filehandle self) = false.
Proof.
  unfold VaultFile_get_decrypted, VaultFile_is_encrypted, is_encrypted.
  rewrite <- (readline_startswith b_HEADER (vf_filehandle self))
    by (apply (bool_decide_unpack _); vm_compute; exact I).
  destruct (readline (vf_filehandle self)) as [peak unread]. cbn [fst].
  destruct (Py.startswith peak b_HEADER).
  - cbn [vf_filehandle set_filehandle].
    destruct (VaultLib_decrypt _ unread) as [[[[? ?] ?] ?]|e]; discriminate.
  - intros [= <- <-]. split; reflexivity.
Qed.

Lemma wrapped_body_elem (c : byte) (lines : list bytes) :
  c ∈ concat (map (fun line => line ++ [NL]) lines) -> c = NL \/ c ∈ concat lines.
Proof.
  induction lines as [|line lines IH]; cbn [map concat]; [easy|].
  rewrite !elem_of_app, list_elem_of_singleton. intros [[H|H]|H]; auto.
  destruct (IH H); auto.
Qed.

(** X23: on a file that holds what VaultLib.encrypt returned,
    VaultFile.get_decrypted raises 'Input is not an encrypted vault file',
    whatever the password: is_encrypted has consumed the header line, and
    decrypt is given the body alone. *)
Theorem get_decrypted_rejects_vaults (self : VaultFile) (v : VaultLib)
    (salt data blob password : bytes) (cipher_name : option bytes) :
  VaultLib_encrypt v salt data cipher_name = Ok blob ->
  vf_filehandle self = blob ->
  vf_password self = Some password ->
  VaultFile_get_decrypted self
  = (Raise (AnsibleError NotVault), set_filehandle [] self).
Proof.
  intros Henc Hfile Hpw.
  destruct (VaultLib_encrypt_blob _ _ _ _ _ Henc)
    as (_ & pw & body & _ & Hbody & ->).
  rewrite VaultAES256_encrypt_eq in Hbody. cbv zeta in Hbody. injection Hbody as <-.
  unfold VaultFile_get_decrypted, VaultFile_is_encrypted. rewrite Hfile.
  change (_add_vault_header (B "AES256") (B "1.2") ?b)
    with (B "$ANSIBLE_VAULT;1.2;AES256;1.2" ++ NL :: b).
  rewrite readline_first_line by (apply (bool_decide_unpack _); vm_compute; exact I).
  change (Py.startswith (B "$ANSIBLE_VAULT;1.2;AES256;1.2" ++ [NL]) b_HEADER) with true.
  cbv iota. cbn [vf_filehandle vf_password set_filehandle]. rewrite Hpw.
  unfold VaultLib_decrypt. cbn [b_password].
  rewrite parse_vault_header_no_semicolon; [reflexivity|].
  intros H. apply wrapped_body_elem in H as [H|H]; [discriminate|].
  rewrite wrapped_lines_concat in H. exact (b64_no_semicolon _ H).
Qed.

End VaultFileFacts.

(** ** Examples *)

Lemma char_not_semicolon (n : N) : Base64.char n <> SEMI.
Proof.
  unfold Base64.char.
  destruct (nth_in_or_default (N.to_nat n) Base64.alphabet Base64.PAD) as [Hin| ->];
    [|discriminate].
  assert (Hall : Forall (fun c => c <> SEMI) Base64.alphabet)
    by (apply (bool_decide_unpack _); vm_compute; exact I).
  rewrite Forall_forall in Hall. apply Hall. now apply list_elem_of_In.
Qed.

Lemma base64_no_semicolon (s : bytes) : SEMI ∉ Base64.encode s.
Proof.
  assert (H : forall n s, length s <= n -> SEMI ∉ Base64.encode s).
  { clear s. induction n as [|n IH]; intros s Hlen.
    - destruct s; [apply not_elem_of_nil | simpl in Hlen; lia].
    - destruct s as [|a [|b [|c s]]]; cbn [Base64.encode];
        rewrite ?not_elem_of_cons; repeat split;
        try apply not_elem_of_nil; try (intros E; symmetry in E; revert E);
        try apply char_not_semicolon; try discriminate.
      apply IH. simpl in Hlen. lia. }
  apply (H (length s)). lia.
Qed.


Lemma shuffle_files_missing_source_witness :
  exists e w',
    shuffle_files "lost.txt" "vault.yml" Example.world0 = (Raise e, w')
    /\ w_fs w' !! "vault.yml"%string = None.
Proof.
  destruct (shuffle_files_missing_source "lost.txt" "vault.yml" Example.world0
              (or_introl eq_refl))
    as (e & w' & Hrun & Hgone & _).
  exists e, w'. split; [exact Hrun | exact Hgone].
Defined.

Lemma encrypt_file_then_plaintext_witness :
  let w' := (encrypt_file (L := Example.lib) Example.editor "notes.txt" None
               ExampleEdit.world1).2 in
  encrypt_file (L := Example.lib) Example.editor "notes.txt" None ExampleEdit.world1
  = (Ok tt, w')
  /\ VaultEditor_plaintext (L := Example.lib) Example.editor "notes.txt" w'
     = (Ok (B "plain text"), w').
Proof.
  intros w'.
  assert (Hrun :
    encrypt_file (L := Example.lib) Example.editor "notes.txt" None ExampleEdit.world1
    = (Ok tt, w')).
  { unfold w'. rewrite (surjective_pairing (encrypt_file _ _ _ _)) at 1.
    apply (f_equal (fun r => (r, w'))). vm_compute. reflexivity. }
  split; [exact Hrun|].
  assert (Hp : "notes.txt"%string <> "-"%string) by discriminate.
  destruct (encrypt_file_then_plaintext (L := Example.lib)
              example_mac_size example_stream_inverse
              base64_decode_encode base64_no_newline
              Example.editor "notes.txt" None ExampleEdit.world1 w' Hp Hp Hrun)
    as (f & Hf & _ & Hplain & _).
  assert (E : f = mk_file 420 1000 1000 (B "plain text")).
  { apply (f_equal (fun o => match o with Some x => x | None => f end)) in Hf.
    cbv beta iota in Hf. rewrite <- Hf. reflexivity. }
  rewrite E in Hplain. exact Hplain.
Defined.



Lemma edit_file_helper_editor_fails_witness :
  exists w',
    _edit_file_helper (L := Example.lib) Example.editor "/tmp/tmpa" ExampleEdit.no_editor
      "vault.yml" (Some (B "hello")) false Example.world0
    = (Raise OSError, w')
    /\ w_fs w' !! "/tmp/tmpa"%string = None.
Proof.
  assert (Hp : "/tmp/tmpa"%string <> "-"%string) by discriminate.
  destruct (edit_file_helper_editor_fails (L := Example.lib)
              Example.editor "/tmp/tmpa" ExampleEdit.no_editor "vault.yml"
              (Some (B "hello")) false Example.world0
              (editor_start "/tmp/tmpa" (Some (B "hello")) Example.world0) OSError
              Hp eq_refl)
    as (e' & w' & Hrun & _ & [Hshred|(Hshred & -> & Hgone)]).
  - exfalso. apply (f_equal fst) in Hshred. vm_compute in Hshred. discriminate.
  - exists w'. split; [exact Hrun | exact Hgone].
Defined.



Lemma get_decrypted_returns_the_filename_witness :
  VaultFile_get_decrypted (L := Example.lib) ExampleEdit.plain_file
  = (Ok "notes.txt"%string, set_filehandle [] ExampleEdit.plain_file)
  /\ is_encrypted (B "plain text") = false.
Proof.
  assert (Hrun :
    VaultFile_get_decrypted (L := Example.lib) ExampleEdit.plain_file
    = (Ok "notes.txt"%string, set_filehandle [] ExampleEdit.plain_file))
    by (vm_compute; reflexivity).
  split; [exact Hrun|].
  exact (proj2 (get_decrypted_returns_the_filename (L := Example.lib) _ _ _ Hrun)).
Defined.

Lemma get_decrypted_rejects_vaults_witness :
  VaultFile_get_decrypted (L := Example.lib) ExampleEdit.vault_file
  = (Raise (AnsibleError NotVault), set_filehandle [] ExampleEdit.vault_file).
Proof.
  apply (get_decrypted_rejects_vaults (L := Example.lib) base64_no_semicolon
           ExampleEdit.vault_file Example.vault_lib Example.salt (B "hello")
           Example.hello_vault Example.password None);
    [vm_compute; reflexivity | reflexivity | reflexivity].
Defined.
